(** * GLIR interpreter (vispy/gloo/glir.py): a shallow embedding

    The interpreter of GL Intermediate Representation commands is modelled
    as a state-and-exception monad over a [world] holding the parser's
    registry, the Python heap of GLIR objects, the chronological trace of
    calls made into the [gl] module and the text written to stdout / the
    logger.  The [gl] module itself is not part of the file under study: its
    return values are supplied by a [driver], which may answer differently
    depending on the whole history of calls.

    Commands carry a string verb, an integer handle and Python values as
    arguments; the names of uniforms and attributes reach the methods as
    strings.  The interpreter is read as Python 3.  A string is a [str]
    whose code points are all below 256, one [ascii] per code point; a
    [str] with a code point above 255 has no counterpart here.  Equality
    [==] is modelled on the values commands carry as sizes, offsets and
    handles (None, integers, strings, tuples), not numpy's elementwise
    comparison of arrays.  Left out: [GlirQueue.show], which prints
    through [repr]. *)

From stdpp Require Import gmap strings list fin_maps pretty.
From Stdlib Require Import ZArith Lia Ascii String.

Set Warnings "-register-all".
Open Scope string_scope.
Open Scope Z_scope.

(** ** Python values carried by commands *)

Inductive dtype :=
| int8 | uint8 | int16 | uint16 | int32 | uint32
| float16 | float32 | float64.

(** A numpy array: element type, shape and (opaque) contents. *)
Record ndarray := { arr_dtype : dtype; arr_shape : list Z; arr_data : list Z }.

Inductive pyval :=
| PNone
| PInt (z : Z)
| PStr (s : string)
| PTuple (l : list pyval)
| PArray (a : ndarray).

Inductive exception :=
| KeyError | IndexError | AttributeError | TypeError | ImportError
| RecursionError | AssertionError
| ValueError (msg : string)
| RuntimeError (msg : string)
| GLError (msg : string).

Inductive result (A : Type) :=
| Ok (a : A)
| Raise (e : exception).
Arguments Ok {A} a.
Arguments Raise {A} e.

(** ** The [gl] module, seen from the interpreter *)

Inductive glcall :=
| glCreateProgram
| glDeleteProgram (h : Z)
| glUseProgram (h : Z)
| glActiveTexture (texture : Z)
| glValidateProgram (h : Z)
| glGetProgramParameter (h pname : Z)
| glGetProgramInfoLog (h : Z)
| glCreateShader (type : Z)
| glShaderSource (h : Z) (code : pyval)
| glCompileShader (h : Z)
| glGetShaderParameter (h pname : Z)
| glGetShaderInfoLog (h : Z)
| glAttachShader (p s : Z)
| glLinkProgram (p : Z)
| glDetachShader (p s : Z)
| glDeleteShader (s : Z)
| glGetActiveAttrib (p : Z) (i : Z)
| glGetActiveUniform (p : Z) (i : Z)
| glGetUniformLocation (p : Z) (name : string)
| glGetAttribLocation (p : Z) (name : string)
| glUniformv (funcname : string) (location count : Z) (value : pyval)
| glUniformMatrixv (funcname : string) (location count : Z) (transpose : bool) (value : pyval)
| glUniform1i (location : Z) (v : Z)
| glVertexAttrib (funcname : string) (location : Z) (args : list pyval)
| glDisableVertexAttribArray (location : Z)
| glEnableVertexAttribArray (location : Z)
| glVertexAttribPointer (location size gtype normalized : Z) (stride offset : pyval)
| glDrawElements (mode count gtype : pyval)
| glDrawArrays (mode first count : pyval)
| glCreateBuffer
| glDeleteBuffer (h : Z)
| glBindBuffer (target h : Z)
| glBufferData (target : Z) (size_or_data : pyval) (usage : Z)
| glBufferSubData (target : Z) (offset : pyval) (data : pyval)
| glCreateTexture
| glDeleteTexture (h : Z)
| glBindTexture (target h : Z)
| glTexParameterf (target pname : Z) (param : pyval)
| glPixelStorei (pname param : Z)
| glTexImage2D (target level : Z) (internalformat format : pyval) (type : Z) (shape : pyval)
| glTexSubImage2D (target level : Z) (xoffset yoffset : pyval) (format : pyval) (type : Z) (pixels : ndarray)
| glTexImage3D (target level : Z) (internalformat : pyval) (width height depth : pyval) (border : Z) (format : pyval) (type : Z)
| glTexSubImage3D (target level : Z) (xoffset yoffset zoffset : pyval) (width height depth : Z) (format : pyval) (type : Z) (pixels : ndarray)
| check_error (when : string).

(** Enumerants of the [gl] module used by the interpreter. *)
Definition GL_ARRAY_BUFFER : Z := 34962.
Definition GL_ELEMENT_ARRAY_BUFFER : Z := 34963.
Definition GL_DYNAMIC_DRAW : Z := 35048.
Definition GL_TEXTURE_2D : Z := 3553.
Definition GL_TEXTURE_3D : Z := 32879.
Definition GL_SAMPLER_3D : Z := 35679.
Definition GL_TEXTURE0 : Z := 33984.
Definition GL_VERTEX_SHADER : Z := 35633.
Definition GL_FRAGMENT_SHADER : Z := 35632.
Definition GL_COMPILE_STATUS : Z := 35713.
Definition GL_LINK_STATUS : Z := 35714.
Definition GL_VALIDATE_STATUS : Z := 35715.
Definition GL_ACTIVE_UNIFORMS : Z := 35718.
Definition GL_ACTIVE_ATTRIBUTES : Z := 35721.
Definition GL_FALSE : Z := 0.
Definition GL_BYTE : Z := 5120.
Definition GL_UNSIGNED_BYTE : Z := 5121.
Definition GL_SHORT : Z := 5122.
Definition GL_UNSIGNED_SHORT : Z := 5123.
Definition GL_INT : Z := 5124.
Definition GL_UNSIGNED_INT : Z := 5125.
Definition GL_FLOAT : Z := 5126.
Definition GL_TEXTURE_WRAP_S : Z := 10242.
Definition GL_TEXTURE_WRAP_T : Z := 10243.
Definition GL_TEXTURE_MIN_FILTER : Z := 10241.
Definition GL_TEXTURE_MAG_FILTER : Z := 10240.
Definition GL_UNPACK_ALIGNMENT : Z := 3317.

(** What the surroundings of the interpreter answer.  Every answer may
    depend on the calls made so far.  [gl_fails] is consulted only for the
    entry points whose failure the interpreter itself anticipates
    ([check_error] and [glBufferSubData]); [set_pop] is Python's [set.pop],
    which returns an arbitrary element. *)
Record driver := {
  gl_int : list glcall -> glcall -> Z;
  gl_str : list glcall -> glcall -> string;
  gl_active : list glcall -> glcall -> string * Z * Z;
  gl_fails : list glcall -> glcall -> bool;
  ati_bug_platform : bool;
  pyopengl_available : bool;
  recursion_limit : nat;
  set_pop : gset Z -> option Z
}.

(** [set.pop] returns a member of the set and raises only on the empty set. *)
Definition set_pop_ok (D : driver) : Prop :=
  forall s : gset Z,
    match set_pop D s with
    | Some x => x ∈ s
    | None => s = ∅
    end.

(** ** GLIR objects and the interpreter state *)

(** [_parser._current_program]: absent until the first program is built,
    then the integer 0, then whatever [use_this_program] stores in it,
    namely the object its name [id] denotes there: the Python builtin. *)
Inductive current_program :=
| CP_absent
| CP_int (z : Z)
| CP_builtin_id.

Record GlirProgram := {
  p_handle : Z;
  _validated : bool;
  _handles : gmap string Z;
  _unset_variables : gset string;
  _samplers : list (string * (nat * Z));
  _buffers : list (string * nat)
}.

Record GlirBuffer := {
  b_handle : Z;
  _buffer_size : pyval;
  _bufferSubDataOk : bool
}.

Record GlirTexture := {
  t_handle : Z;
  _shape_format : pyval;
  _format : option pyval
}.

Inductive GlirObject :=
| VertexBuffer (b : GlirBuffer)
| IndexBuffer (b : GlirBuffer)
| Program (p : GlirProgram)
| Texture2D (t : GlirTexture)
| Texture3D (t : GlirTexture).

Inductive klass :=
| GlirVertexBuffer | GlirIndexBuffer | GlirProgramClass
| GlirTexture2D | GlirTexture3D.

Inductive output :=
| print_cannot (cmd : string) (id : Z)
| print_invalid_command (cmd : string)
| print_gtype_format (gtype : option Z) (format : pyval)
| print_info_log (log : string)
| warn_unset_variables (names : gset string)
| warn_not_active_uniform (name : string)
| warn_not_active_attribute (name : string)
| debug_using_glBufferData.

(** The heap holds every object ever constructed, addressed by position;
    the registry [_objects] and the programs' sampler / buffer maps hold
    references into it, so that an object stays shared between them. *)
Record world := {
  _objects : gmap Z nat;
  _invalid_objects : gset Z;
  _current_program : current_program;
  heap : list GlirObject;
  gl_trace : list glcall;
  stdout : list output
}.

Definition initial_world : world :=
  {| _objects := ∅; _invalid_objects := ∅; _current_program := CP_absent;
     heap := []; gl_trace := []; stdout := [] |}.

Record command := { cmd : string; id : Z; args : list pyval }.

(** ** The monad *)

Definition M (A : Type) : Type := world -> result A * world.

Definition ret {A} (a : A) : M A := fun w => (Ok a, w).
Definition raise {A} (e : exception) : M A := fun w => (Raise e, w).
Definition bind {A B} (m : M A) (k : A -> M B) : M B :=
  fun w => match m w with
           | (Ok a, w') => k a w'
           | (Raise e, w') => (Raise e, w')
           end.

Notation "'let!' x := c 'in' k" := (bind c (fun x => k))
  (at level 10, x name, c at level 100, k at level 200).
Notation "c ;;; k" := (bind c (fun _ => k))
  (at level 100, k at level 200, right associativity).

Definition lift {A} (r : result A) : M A := fun w => (r, w).

(** [for x in xs: body x] *)
Fixpoint for_each {A} (xs : list A) (body : A -> M unit) : M unit :=
  match xs with
  | [] => ret tt
  | x :: xs' => body x ;;; for_each xs' body
  end.

(** [try: body except Exception: handler]; the handler may re-raise. *)
Definition try_except {A} (body : M A) (handler : exception -> M A) : M A :=
  fun w => match body w with
           | (Ok a, w') => (Ok a, w')
           | (Raise e, w') => handler e w'
           end.

Definition get_world : M world := fun w => (Ok w, w).
Definition print (o : output) : M unit :=
  fun w => (Ok tt, {| _objects := _objects w; _invalid_objects := _invalid_objects w;
                      _current_program := _current_program w; heap := heap w;
                      gl_trace := gl_trace w; stdout := stdout w ++ [o] |}).
Definition record_call (c : glcall) (w : world) : world :=
  {| _objects := _objects w; _invalid_objects := _invalid_objects w;
     _current_program := _current_program w; heap := heap w;
     gl_trace := gl_trace w ++ [c]; stdout := stdout w |}.
Definition set_heap (h : list GlirObject) (w : world) : world :=
  {| _objects := _objects w; _invalid_objects := _invalid_objects w;
     _current_program := _current_program w; heap := h;
     gl_trace := gl_trace w; stdout := stdout w |}.
Definition set_current_program (c : current_program) : M unit :=
  fun w => (Ok tt, {| _objects := _objects w; _invalid_objects := _invalid_objects w;
                      _current_program := c; heap := heap w;
                      gl_trace := gl_trace w; stdout := stdout w |}).
Definition register (i : Z) (r : nat) : M unit :=
  fun w => (Ok tt, {| _objects := <[i := r]> (_objects w);
                      _invalid_objects := _invalid_objects w;
                      _current_program := _current_program w; heap := heap w;
                      gl_trace := gl_trace w; stdout := stdout w |}).
Definition add_invalid (i : Z) : M unit :=
  fun w => (Ok tt, {| _objects := _objects w;
                      _invalid_objects := {[ i ]} ∪ _invalid_objects w;
                      _current_program := _current_program w; heap := heap w;
                      gl_trace := gl_trace w; stdout := stdout w |}).

(** Constructing an object puts it at a fresh heap position. *)
Definition alloc (o : GlirObject) : M nat :=
  fun w => (Ok (List.length (heap w)), set_heap (heap w ++ [o]) w).
Definition store (r : nat) (o : GlirObject) : M unit :=
  fun w => (Ok tt, set_heap (<[r := o]> (heap w)) w).
Definition load (r : nat) : M GlirObject :=
  fun w => match heap w !! r with
           | Some o => (Ok o, w)
           | None => (Raise AttributeError, w)
           end.

(** ** Python operations on values *)

#[global] Instance dtype_eq_dec : EqDecision dtype.
Proof. solve_decision. Defined.
#[global] Instance ndarray_eq_dec : EqDecision ndarray.
Proof. solve_decision. Defined.
#[global] Instance current_program_eq_dec : EqDecision current_program.
Proof. solve_decision. Defined.
#[global] Instance pyval_is_int_dec (v : pyval) (n : Z) : Decision (v = PInt n).
Proof.
  destruct v as [|z| | |]; try (right; discriminate).
  destruct (decide (z = n)); [left; by subst | right; congruence].
Defined.

(** [a == b] on the values commands carry as sizes, offsets and handles.
    Two arrays are compared by content and an array differs from anything
    else; numpy compares elementwise, and the truth value of its answer
    depends on the size of the array and on the version of numpy: an array
    in the place of a size, an offset or a handle is outside this model. *)
Fixpoint py_eqb (a b : pyval) : bool :=
  match a, b with
  | PNone, PNone => true
  | PInt x, PInt y => bool_decide (x = y)
  | PStr s, PStr t => bool_decide (s = t)
  | PTuple l, PTuple m =>
      (fix go (l m : list pyval) : bool :=
         match l, m with
         | [], [] => true
         | x :: l', y :: m' => py_eqb x y && go l' m'
         | _, _ => false
         end) l m
  | PArray x, PArray y => bool_decide (x = y)
  | _, _ => false
  end.

Definition is_None (v : pyval) : bool :=
  match v with PNone => true | _ => false end.

Definition itemsize (d : dtype) : Z :=
  match d with
  | int8 | uint8 => 1
  | int16 | uint16 | float16 => 2
  | int32 | uint32 | float32 => 4
  | float64 => 8
  end.

Definition product (l : list Z) : Z := foldr Z.mul 1 l.

(** [data.nbytes] *)
Definition arr_nbytes (a : ndarray) : Z := itemsize (arr_dtype a) * product (arr_shape a).

Definition chars (s : string) : list pyval :=
  map (fun c => PStr (String c EmptyString)) (list_ascii_of_string s).

(** The items of a value when it is iterated: tuples, strings and
    one-dimensional arrays; anything else is not iterable here. *)
Definition py_items (v : pyval) : result (list pyval) :=
  match v with
  | PTuple l => Ok l
  | PStr s => Ok (chars s)
  | PArray a =>
      match arr_shape a with
      | [n] => Ok (map PInt (take (Z.to_nat n) (arr_data a)))
      | _ => Raise TypeError
      end
  | _ => Raise TypeError
  end.

(** [v[i]] for a literal index [i >= 0]. *)
Definition py_index (v : pyval) (i : nat) : result pyval :=
  match py_items v with
  | Ok l => match l !! i with Some x => Ok x | None => Raise IndexError end
  | Raise e => Raise e
  end.

(** [v[:n]] *)
Definition py_slice_to (v : pyval) (n : nat) : result pyval :=
  match v with
  | PTuple l => Ok (PTuple (take n l))
  | PStr s => Ok (PStr (substring 0 n s))
  | PArray a =>
      match arr_shape a with
      | d :: rest =>
          let d' := Z.min d (Z.of_nat n) in
          Ok (PArray {| arr_dtype := arr_dtype a; arr_shape := d' :: rest;
                        arr_data := take (Z.to_nat (d' * product rest)) (arr_data a) |})
      | [] => Raise IndexError
      end
  | _ => Raise TypeError
  end.

(** What unpacking [got] values into [expected] names raises. *)
Definition unpack_error (expected got : nat) : exception :=
  ValueError
    (if (got <? expected)%nat
     then "not enough values to unpack (expected " ++ pretty expected
          ++ ", got " ++ pretty got ++ ")"
     else "too many values to unpack (expected " ++ pretty expected ++ ")").

(** [a, b = v] and [a, b, c = v] *)
Definition unpack2 (v : pyval) : result (pyval * pyval) :=
  match py_items v with
  | Ok [a; b] => Ok (a, b)
  | Ok l => Raise (unpack_error 2 (List.length l))
  | Raise e => Raise e
  end.
Definition unpack3 (v : pyval) : result (pyval * pyval * pyval) :=
  match py_items v with
  | Ok [a; b; c] => Ok (a, b, c)
  | Ok l => Raise (unpack_error 3 (List.length l))
  | Raise e => Raise e
  end.

(** [data.shape[-k]] *)
Definition shape_from_end (a : ndarray) (k : nat) : result Z :=
  match rev (arr_shape a) !! (k - 1)%nat with
  | Some d => Ok d
  | None => Raise IndexError
  end.

(** [repr(data.dtype)], which is what [%r] formats. *)
Definition dtype_name (d : dtype) : string :=
  match d with
  | int8 => "int8" | uint8 => "uint8" | int16 => "int16" | uint16 => "uint16"
  | int32 => "int32" | uint32 => "uint32"
  | float16 => "float16" | float32 => "float32" | float64 => "float64"
  end.
Definition dtype_repr (d : dtype) : string := "dtype('" ++ dtype_name d ++ "')".

(** ['%i' % v]: a tuple on the right of [%] is the argument list. *)
Definition format_i (v : pyval) : result string :=
  match v with
  | PInt n => Ok (pretty n)
  | PTuple [PInt n] => Ok (pretty n)
  | _ => Raise TypeError
  end.

(** [hash(v)] succeeds: arrays are not hashable, nor is a tuple holding one. *)
Fixpoint hashable (v : pyval) : bool :=
  match v with
  | PArray _ => false
  | PTuple l =>
      (fix go (l : list pyval) : bool :=
         match l with
         | [] => true
         | x :: l' => hashable x && go l'
         end) l
  | _ => true
  end.

(** [GlirTexture._types]: the element types a texture upload accepts. *)
Definition _types (d : dtype) : option Z :=
  match d with
  | int8 => Some GL_BYTE
  | uint8 => Some GL_UNSIGNED_BYTE
  | int16 => Some GL_SHORT
  | uint16 => Some GL_UNSIGNED_SHORT
  | int32 => Some GL_INT
  | uint32 => Some GL_UNSIGNED_INT
  | float32 => Some GL_FLOAT
  | float16 | float64 => None
  end.

(** [GlirTexture._get_alignment]: the first of 4, 8, 2, 1 dividing [width]
    ([None] when the loop falls through). *)
Definition _get_alignment (width : Z) : option Z :=
  find (fun alignment => bool_decide (width `mod` alignment = 0)) [4; 8; 2; 1].

(** Dictionaries whose iteration order is observable: association lists
    kept in insertion order. *)
Definition dict_get {V} (k : string) (d : list (string * V)) : option V :=
  snd <$> find (fun kv => bool_decide (kv.1 = k)) d.
Definition dict_pop {V} (k : string) (d : list (string * V)) : list (string * V) :=
  filter (fun kv => kv.1 ≠ k) d.
Fixpoint dict_set {V} (k : string) (v : V) (d : list (string * V)) : list (string * V) :=
  match d with
  | [] => [(k, v)]
  | (k', v') :: d' => if bool_decide (k' = k) then (k, v) :: d' else (k', v') :: dict_set k v d'
  end.
Definition dict_values {V} (d : list (string * V)) : list V := map snd d.

Section Interpreter.
Context (D : driver).

(** ** Calls into [gl] *)

Definition gl_call (c : glcall) : M unit :=
  fun w => (Ok tt, record_call c w).
Definition gl_call_int (c : glcall) : M Z :=
  fun w => (Ok (gl_int D (gl_trace w) c), record_call c w).
Definition gl_call_str (c : glcall) : M string :=
  fun w => (Ok (gl_str D (gl_trace w) c), record_call c w).
Definition gl_call_active (c : glcall) : M (string * Z * Z) :=
  fun w => (Ok (gl_active D (gl_trace w) c), record_call c w).
Definition gl_call_fallible (c : glcall) : M unit :=
  fun w => if gl_fails D (gl_trace w) c
           then (Raise (GLError "gl"), record_call c w)
           else (Ok tt, record_call c w).

(** ** Attribute access on [self] *)

Definition load_buffer (self : nat) : M (Z * GlirBuffer) :=
  let! o := load self in
  match o with
  | VertexBuffer b => ret (GL_ARRAY_BUFFER, b)
  | IndexBuffer b => ret (GL_ELEMENT_ARRAY_BUFFER, b)
  | _ => raise AttributeError
  end.
Definition update_buffer (self : nat) (f : GlirBuffer -> GlirBuffer) : M unit :=
  let! o := load self in
  match o with
  | VertexBuffer b => store self (VertexBuffer (f b))
  | IndexBuffer b => store self (IndexBuffer (f b))
  | _ => raise AttributeError
  end.
Definition load_texture (self : nat) : M (Z * GlirTexture) :=
  let! o := load self in
  match o with
  | Texture2D t => ret (GL_TEXTURE_2D, t)
  | Texture3D t => ret (GL_TEXTURE_3D, t)
  | _ => raise AttributeError
  end.
Definition update_texture (self : nat) (f : GlirTexture -> GlirTexture) : M unit :=
  let! o := load self in
  match o with
  | Texture2D t => store self (Texture2D (f t))
  | Texture3D t => store self (Texture3D (f t))
  | _ => raise AttributeError
  end.
Definition load_program (self : nat) : M GlirProgram :=
  let! o := load self in
  match o with
  | Program p => ret p
  | _ => raise AttributeError
  end.
Definition update_program (self : nat) (f : GlirProgram -> GlirProgram) : M unit :=
  let! o := load self in
  match o with
  | Program p => store self (Program (f p))
  | _ => raise AttributeError
  end.

(** ** class GlirBuffer *)

Definition GlirBuffer__init__ : M GlirBuffer :=
  let! h := gl_call_int glCreateBuffer in
  ret {| b_handle := h; _buffer_size := PInt 0; _bufferSubDataOk := false |}.

Definition GlirBuffer_delete (self : nat) : M unit :=
  let! tb := load_buffer self in
  gl_call (glDeleteBuffer (b_handle tb.2)).

Definition GlirBuffer_activate (self : nat) : M unit :=
  let! tb := load_buffer self in
  gl_call (glBindBuffer tb.1 (b_handle tb.2)).

Definition GlirBuffer_deactivate (self : nat) : M unit :=
  let! tb := load_buffer self in
  gl_call (glBindBuffer tb.1 0).

Definition set_buffer_size (nbytes : pyval) (b : GlirBuffer) : GlirBuffer :=
  {| b_handle := b_handle b; _buffer_size := nbytes;
     _bufferSubDataOk := _bufferSubDataOk b |}.
Definition set_bufferSubDataOk (v : bool) (b : GlirBuffer) : GlirBuffer :=
  {| b_handle := b_handle b; _buffer_size := _buffer_size b;
     _bufferSubDataOk := v |}.

Definition GlirBuffer_set_size (self : nat) (nbytes : pyval) : M unit :=
  let! tb := load_buffer self in
  if negb (py_eqb nbytes (_buffer_size tb.2)) then
    gl_call (glBindBuffer tb.1 (b_handle tb.2)) ;;;
    gl_call (glBufferData tb.1 nbytes GL_DYNAMIC_DRAW) ;;;
    update_buffer self (set_buffer_size nbytes)
  else ret tt.

Definition GlirBuffer_set_data (self : nat) (offset data : pyval) : M unit :=
  let! tb := load_buffer self in
  gl_call (glBindBuffer tb.1 (b_handle tb.2)) ;;;
  let! nbytes := match data with
                 | PArray a => ret (arr_nbytes a)
                 | _ => raise AttributeError
                 end in
  let check_ati_bug := negb (_bufferSubDataOk tb.2) && ati_bug_platform D in
  (if check_ati_bug then gl_call_fallible (check_error "periodic check") else ret tt) ;;;
  try_except
    (gl_call_fallible (glBufferSubData tb.1 offset data) ;;;
     (if check_ati_bug then gl_call_fallible (check_error "glBufferSubData") else ret tt) ;;;
     update_buffer self (set_bufferSubDataOk true))
    (fun e =>
       let! tb' := load_buffer self in
       if py_eqb offset (PInt 0) && py_eqb (PInt nbytes) (_buffer_size tb'.2) then
         gl_call (glBufferData tb.1 data GL_DYNAMIC_DRAW) ;;;
         print debug_using_glBufferData
       else raise e).

(** ** class GlirTexture, GlirTexture2D, GlirTexture3D *)

Definition GlirTexture__init__ : M GlirTexture :=
  let! h := gl_call_int glCreateTexture in
  ret {| t_handle := h; _shape_format := PInt 0; _format := None |}.

Definition GlirTexture_delete (self : nat) : M unit :=
  let! tt_ := load_texture self in
  gl_call (glDeleteTexture (t_handle tt_.2)).

Definition GlirTexture_activate (self : nat) : M unit :=
  let! tt_ := load_texture self in
  gl_call (glBindTexture tt_.1 (t_handle tt_.2)).

Definition GlirTexture_deactivate (self : nat) : M unit :=
  let! tt_ := load_texture self in
  gl_call (glBindTexture tt_.1 0).

Definition GlirTexture_set_wrapping (self : nat) (wrapping : pyval) : M unit :=
  GlirTexture_activate self ;;;
  let! tt_ := load_texture self in
  let! w0 := lift (py_index wrapping 0) in
  gl_call (glTexParameterf tt_.1 GL_TEXTURE_WRAP_S w0) ;;;
  let! w1 := lift (py_index wrapping 1) in
  gl_call (glTexParameterf tt_.1 GL_TEXTURE_WRAP_T w1).

Definition GlirTexture_set_interpolation (self : nat) (interpolation : pyval) : M unit :=
  GlirTexture_activate self ;;;
  let! tt_ := load_texture self in
  let! i0 := lift (py_index interpolation 0) in
  gl_call (glTexParameterf tt_.1 GL_TEXTURE_MIN_FILTER i0) ;;;
  let! i1 := lift (py_index interpolation 1) in
  gl_call (glTexParameterf tt_.1 GL_TEXTURE_MAG_FILTER i1).

Definition set_format (format : pyval) (t : GlirTexture) : GlirTexture :=
  {| t_handle := t_handle t; _shape_format := _shape_format t;
     _format := Some format |}.

(** [self._format]: the attribute exists only once [set_size] has run. *)
Definition get_format (self : nat) : M pyval :=
  let! tt_ := load_texture self in
  match _format tt_.2 with
  | Some f => ret f
  | None => raise AttributeError
  end.

Definition GlirTexture2D_set_size (self : nat) (shape format : pyval) : M unit :=
  let! tt_ := load_texture self in
  if negb (py_eqb (PTuple [shape; format]) (_shape_format tt_.2)) then
    update_texture self (set_format format) ;;;
    let! fmt := get_format self in
    let! shape2 := lift (py_slice_to shape 2) in
    gl_call (glTexImage2D tt_.1 0 fmt fmt GL_BYTE shape2)
  else ret tt.

Definition GlirTexture2D_set_data (self : nat) (offset data : pyval) : M unit :=
  let! yx := lift (unpack2 offset) in
  let! a := match data with
            | PArray a => ret a
            | _ => raise AttributeError
            end in
  let gtype := _types (arr_dtype a) in
  let! fmt := get_format self in
  print (print_gtype_format gtype fmt) ;;;
  match gtype with
  | None =>
      raise (ValueError ("Type " ++ dtype_repr (arr_dtype a)
                         ++ " not allowed for texture"))
  | Some gtype =>
      let! s2 := lift (shape_from_end a 2) in
      let! s1 := lift (shape_from_end a 1) in
      let alignment := _get_alignment (s2 * s1) in
      (if negb (bool_decide (alignment = Some 4))
       then gl_call (glPixelStorei GL_UNPACK_ALIGNMENT (default 0 alignment))
       else ret tt) ;;;
      let! tt_ := load_texture self in
      let! fmt := get_format self in
      gl_call (glTexSubImage2D tt_.1 0 yx.2 yx.1 fmt gtype a) ;;;
      (if negb (bool_decide (alignment = Some 4))
       then gl_call (glPixelStorei GL_UNPACK_ALIGNMENT 4)
       else ret tt)
  end.

(** [_check_pyopengl_3D] *)
Definition _check_pyopengl_3D : M unit :=
  if pyopengl_available D then ret tt else raise ImportError.

(** The module-level wrapper [glTexImage3D]. *)
Definition glTexImage3D_wrapper (target level : Z) (internalformat format : pyval)
    (type : Z) (pixels : pyval) : M unit :=
  _check_pyopengl_3D ;;;
  let border := 0 in
  (match pixels with PTuple _ => ret tt | _ => raise AssertionError end) ;;;
  let! dhw := lift (unpack3 pixels) in
  gl_call (glTexImage3D target level internalformat dhw.2 dhw.1.2 dhw.1.1 border format type).

(** The module-level wrapper [glTexSubImage3D]. *)
Definition glTexSubImage3D_wrapper (target level : Z) (xoffset yoffset zoffset : pyval)
    (format : pyval) (type : Z) (pixels : ndarray) : M unit :=
  _check_pyopengl_3D ;;;
  match take 3 (arr_shape pixels) with
  | [depth; height; width] =>
      gl_call (glTexSubImage3D target level xoffset yoffset zoffset
                 width height depth format type pixels)
  | shape => raise (unpack_error 3 (List.length shape))
  end.

Definition GlirTexture3D_set_size (self : nat) (shape format : pyval) : M unit :=
  let! tt_ := load_texture self in
  if negb (py_eqb (PTuple [shape; format]) (_shape_format tt_.2)) then
    update_texture self (set_format format) ;;;
    let! fmt := get_format self in
    let! shape3 := lift (py_slice_to shape 3) in
    glTexImage3D_wrapper tt_.1 0 fmt fmt GL_BYTE shape3
  else ret tt.

(** [self.dtype]: no GLIR texture has such an attribute. *)
Definition get_self_dtype (self : nat) : M dtype := raise AttributeError.

Definition GlirTexture3D_set_data (self : nat) (offset data : pyval) : M unit :=
  let! zyx := lift (unpack3 offset) in
  let! d := get_self_dtype self in
  match _types d with
  | None => raise (ValueError "Type not allowed for texture")
  | Some gtype =>
      let! a := match data with
                | PArray a => ret a
                | _ => raise AttributeError
                end in
      let! s3 := lift (shape_from_end a 3) in
      let! s2 := lift (shape_from_end a 2) in
      let! s1 := lift (shape_from_end a 1) in
      let alignment := _get_alignment (s3 * s2 * s1) in
      (if negb (bool_decide (alignment = Some 4))
       then gl_call (glPixelStorei GL_UNPACK_ALIGNMENT (default 0 alignment))
       else ret tt) ;;;
      let! tt_ := load_texture self in
      let! fmt := get_format self in
      glTexSubImage3D_wrapper tt_.1 0 zyx.2 zyx.1.2 zyx.1.1 fmt gtype a ;;;
      (if negb (bool_decide (alignment = Some 4))
       then gl_call (glPixelStorei GL_UNPACK_ALIGNMENT 4)
       else ret tt)
  end.

(** ** class GlirProgram *)

Definition UTYPEMAP : gmap string string :=
  list_to_map
    [("float", "glUniform1fv"); ("vec2", "glUniform2fv");
     ("vec3", "glUniform3fv"); ("vec4", "glUniform4fv");
     ("int", "glUniform1iv"); ("ivec2", "glUniform2iv");
     ("ivec3", "glUniform3iv"); ("ivec4", "glUniform4iv");
     ("bool", "glUniform1iv"); ("bvec2", "glUniform2iv");
     ("bvec3", "glUniform3iv"); ("bvec4", "glUniform4iv");
     ("mat2", "glUniformMatrix2fv"); ("mat3", "glUniformMatrix3fv");
     ("mat4", "glUniformMatrix4fv");
     ("sampler2D", "glUniform1i"); ("sampler3D", "glUniform1i")].

Definition ATYPEMAP : gmap string string :=
  list_to_map
    [("float", "glVertexAttrib1f"); ("vec2", "glVertexAttrib2f");
     ("vec3", "glVertexAttrib3f"); ("vec4", "glVertexAttrib4f")].

(** [ATYPEINFO]: component count and GL type (the numpy type is unused). *)
Definition ATYPEINFO : gmap string (Z * Z) :=
  list_to_map
    [("float", (1, GL_FLOAT)); ("vec2", (2, GL_FLOAT));
     ("vec3", (3, GL_FLOAT)); ("vec4", (4, GL_FLOAT))].

(** [table[key]] for a table keyed by strings. *)
Definition subscript {V} (table : gmap string V) (key : pyval) : M V :=
  match key with
  | PStr s => match table !! s with
              | Some v => ret v
              | None => raise KeyError
              end
  | PArray _ => raise TypeError
  | _ => raise KeyError
  end.

Definition startswith (pre : string) (v : pyval) : bool :=
  match v with
  | PStr s => String.prefix pre s
  | _ => false
  end.

Definition GlirProgram__init__ : M GlirProgram :=
  set_current_program (CP_int 0) ;;;
  let! h := gl_call_int glCreateProgram in
  ret {| p_handle := h; _validated := false; _handles := ∅;
         _unset_variables := ∅; _samplers := []; _buffers := [] |}.

Definition GlirProgram_delete (self : nat) : M unit :=
  let! p := load_program self in
  gl_call (glDeleteProgram (p_handle p)).

(** [id != self._parser._current_program], where [id] is the builtin
    function: no local or global of that name exists in this scope. *)
Definition builtin_id_ne (c : current_program) : M bool :=
  match c with
  | CP_absent => raise AttributeError
  | CP_int _ => ret true
  | CP_builtin_id => ret false
  end.

Definition use_this_program (self : nat) : M unit :=
  let! w := get_world in
  let! differs := builtin_id_ne (_current_program w) in
  if differs then
    set_current_program CP_builtin_id ;;;
    let! p := load_program self in
    gl_call (glUseProgram (p_handle p))
  else ret tt.

Definition set_validated (v : bool) (p : GlirProgram) : GlirProgram :=
  {| p_handle := p_handle p; _validated := v; _handles := _handles p;
     _unset_variables := _unset_variables p; _samplers := _samplers p;
     _buffers := _buffers p |}.
Definition set_handles (h : gmap string Z) (p : GlirProgram) : GlirProgram :=
  {| p_handle := p_handle p; _validated := _validated p; _handles := h;
     _unset_variables := _unset_variables p; _samplers := _samplers p;
     _buffers := _buffers p |}.
Definition set_unset_variables (u : gset string) (p : GlirProgram) : GlirProgram :=
  {| p_handle := p_handle p; _validated := _validated p; _handles := _handles p;
     _unset_variables := u; _samplers := _samplers p; _buffers := _buffers p |}.
Definition set_samplers (s : list (string * (nat * Z))) (p : GlirProgram) : GlirProgram :=
  {| p_handle := p_handle p; _validated := _validated p; _handles := _handles p;
     _unset_variables := _unset_variables p; _samplers := s; _buffers := _buffers p |}.
Definition set_buffers (b : list (string * nat)) (p : GlirProgram) : GlirProgram :=
  {| p_handle := p_handle p; _validated := _validated p; _handles := _handles p;
     _unset_variables := _unset_variables p; _samplers := _samplers p; _buffers := b |}.

(** [GlirProgram.activate]; [activate] is the method the textures and
    buffers bound to the program answer to. *)
Definition GlirProgram_activate (activate : nat -> M unit) (self : nat) : M unit :=
  use_this_program self ;;;
  let! p := load_program self in
  for_each (dict_values (_samplers p))
    (fun tex_unit =>
       gl_call (glActiveTexture (GL_TEXTURE0 + tex_unit.2)) ;;;
       activate tex_unit.1) ;;;
  let! p := load_program self in
  for_each (dict_values (_buffers p)) (fun vbo => activate vbo) ;;;
  let! p := load_program self in
  if negb (_validated p) then
    update_program self (set_validated true) ;;;
    let! p := load_program self in
    (if bool_decide (_unset_variables p = ∅) then ret tt
     else print (warn_unset_variables (_unset_variables p))) ;;;
    gl_call (glValidateProgram (p_handle p)) ;;;
    let! status := gl_call_int (glGetProgramParameter (p_handle p) GL_VALIDATE_STATUS) in
    if bool_decide (status = 0) then
      let! log := gl_call_str (glGetProgramInfoLog (p_handle p)) in
      print (print_info_log log) ;;;
      raise (RuntimeError "Program validation error")
    else ret tt
  else ret tt.

(** [ob.activate()]: Python looks the method up in the object's class.
    A program bound as its own buffer or texture would recurse; the
    interpreter's recursion limit bounds the depth. *)
Fixpoint activate (depth : nat) (self : nat) : M unit :=
  match depth with
  | O => raise RecursionError
  | S depth' =>
      let! o := load self in
      match o with
      | VertexBuffer _ | IndexBuffer _ => GlirBuffer_activate self
      | Texture2D _ | Texture3D _ => GlirTexture_activate self
      | Program _ => GlirProgram_activate (activate depth') self
      end
  end.

Definition GlirProgram_deactivate (self : nat) : M unit :=
  gl_call (glBindBuffer GL_ARRAY_BUFFER 0).

(** [ob.deactivate()] *)
Definition deactivate (self : nat) : M unit :=
  let! o := load self in
  match o with
  | VertexBuffer _ | IndexBuffer _ => GlirBuffer_deactivate self
  | Texture2D _ | Texture3D _ => GlirTexture_deactivate self
  | Program _ => GlirProgram_deactivate self
  end.

(** [ob.delete()] *)
Definition delete (self : nat) : M unit :=
  let! o := load self in
  match o with
  | VertexBuffer _ | IndexBuffer _ => GlirBuffer_delete self
  | Texture2D _ | Texture3D _ => GlirTexture_delete self
  | Program _ => GlirProgram_delete self
  end.

(** The character classes of [re] on a [str] pattern, for the code
    points below 256.  [\d]: the decimal digits, which below 256 are 0-9
    only.  [\s], also the characters [str.strip] removes: tab to carriage
    return, the four separators 28-31, the space, NEL (133) and the
    no-break space (160).  [\w]: the alphanumeric characters and the
    underscore; below 256 these are the ASCII ones, the ordinal
    indicators, the micro sign, the superscript digits, the vulgar
    fractions and the Latin-1 letters. *)
Definition in_range (lo hi : nat) (c : ascii) : bool :=
  (lo <=? nat_of_ascii c)%nat && (nat_of_ascii c <=? hi)%nat.
Definition is_word (c : ascii) : bool :=
  in_range 48 57 c || in_range 65 90 c || in_range 97 122 c || in_range 95 95 c
  || in_range 170 170 c || in_range 178 179 c || in_range 181 181 c
  || in_range 185 186 c || in_range 188 190 c || in_range 192 214 c
  || in_range 216 246 c || in_range 248 255 c.
Definition is_digit (c : ascii) : bool := in_range 48 57 c.
Definition is_space (c : ascii) : bool :=
  in_range 9 13 c || in_range 28 32 c || in_range 133 133 c || in_range 160 160 c.

(** The regular expression of [_get_active_attributes_and_uniforms],
    [(?P<name>\w+)\s*(\[(?P<size>\d+)\])\s*], matched at the start of
    the string; the result is the group [name].  Every quantifier is
    greedy and followed by a character outside its class, so the longest
    run is the only candidate. *)

Fixpoint span (p : ascii -> bool) (s : string) : string * string :=
  match s with
  | String c s' =>
      if p c then let r := span p s' in (String c r.1, r.2) else (EmptyString, s)
  | EmptyString => (EmptyString, EmptyString)
  end.

Definition regex_match_name (s : string) : option string :=
  let w := span is_word s in
  if bool_decide (w.1 = "") then None
  else
    match (span is_space w.2).2 with
    | String "["%char r =>
        let d := span is_digit r in
        if bool_decide (d.1 = "") then None
        else match d.2 with
             | String "]"%char _ => Some w.1
             | _ => None
             end
    | _ => None
    end.

(** What one active variable contributes to its container. *)
Definition expand_active (name : string) (size gtype : Z) : list (string * Z) :=
  match regex_match_name name with
  | Some name =>
      map (fun i => (name ++ "[" ++ pretty i ++ "]", gtype)) (seqZ 0 size)
  | None => [(name, gtype)]
  end.

Fixpoint collect_active (func : Z -> Z -> glcall) (handle : Z) (indices : list Z)
    (container : list (string * Z)) : M (list (string * Z)) :=
  match indices with
  | [] => ret container
  | i :: rest =>
      let! nsg := gl_call_active (func handle i) in
      collect_active func handle rest
        (container ++ expand_active nsg.1.1 nsg.1.2 nsg.2)
  end.

Definition _get_active_attributes_and_uniforms (self : nat) : M (gset string) :=
  let! p := load_program self in
  let! cu := gl_call_int (glGetProgramParameter (p_handle p) GL_ACTIVE_UNIFORMS) in
  let! ca := gl_call_int (glGetProgramParameter (p_handle p) GL_ACTIVE_ATTRIBUTES) in
  let! attributes := collect_active glGetActiveAttrib (p_handle p) (seqZ 0 ca) [] in
  let! uniforms := collect_active glGetActiveUniform (p_handle p) (seqZ 0 cu) [] in
  ret (list_to_set (map fst attributes ++ map fst uniforms)).

(** [GlirProgram._parse_error].  The three regular expressions are
    matched at the start of the string.  In each, every quantified class
    is followed by a character outside the class, so the longest run is
    the only candidate; [.] is any character but a newline. *)
Fixpoint strip_prefix (lit s : string) : option string :=
  match lit, s with
  | EmptyString, _ => Some s
  | String a lit', String b s' =>
      if bool_decide (a = b) then strip_prefix lit' s' else None
  | String _ _, EmptyString => None
  end.

(** [(\d+)]: the group and what follows it. *)
Definition digits_group (s : string) : option (string * string) :=
  let d := span is_digit s in
  if bool_decide (d.1 = "") then None else Some d.

(** [\s]: exactly one whitespace character. *)
Definition one_space (s : string) : option string :=
  match s with
  | String c r => if is_space c then Some r else None
  | EmptyString => None
  end.

Definition is_not_newline (c : ascii) : bool :=
  negb (bool_decide (nat_of_ascii c = 10%nat)).

(** The last group of each expression: any characters but a newline. *)
Definition rest_of_line (s : string) : string := (span is_not_newline s).1.

(** [int(s)] on a run of decimal digits. *)
Definition int_of_digits (s : string) : Z :=
  fold_left (fun acc c => 10 * acc + (Z.of_nat (nat_of_ascii c) - 48))
    (list_ascii_of_string s) 0.

(** Nvidia: digits, [(], digits, [)], whitespace, [:], one whitespace,
    the rest of the line; the second digits and the rest are returned. *)
Definition match_nvidia (error : string) : option (Z * string) :=
  g1 ← digits_group error;
  r ← strip_prefix "(" g1.2;
  g2 ← digits_group r;
  r ← strip_prefix ")" g2.2;
  r ← strip_prefix ":" (span is_space r).2;
  r ← one_space r;
  Some (int_of_digits g2.1, rest_of_line r).

(** ATI / Intel: [ERROR:], one whitespace, digits, [:], digits, [:], one
    whitespace, the rest of the line; the second digits and the rest are
    returned. *)
Definition match_ati (error : string) : option (Z * string) :=
  r ← strip_prefix "ERROR:" error;
  r ← one_space r;
  g1 ← digits_group r;
  r ← strip_prefix ":" g1.2;
  g2 ← digits_group r;
  r ← strip_prefix ":" g2.2;
  r ← one_space r;
  Some (int_of_digits g2.1, rest_of_line r).

(** Nouveau: digits, [:], digits, [(], digits, [):], one whitespace, the
    rest of the line; the second digits and the rest are returned. *)
Definition match_nouveau (error : string) : option (Z * string) :=
  g1 ← digits_group error;
  r ← strip_prefix ":" g1.2;
  g2 ← digits_group r;
  r ← strip_prefix "(" g2.2;
  g3 ← digits_group r;
  r ← strip_prefix "):" g3.2;
  r ← one_space r;
  Some (int_of_digits g2.1, rest_of_line r).

Definition _parse_error (error : string) : option Z * string :=
  match match_nvidia error with
  | Some m => (Some m.1, m.2)
  | None =>
      match match_ati error with
      | Some m => (Some m.1, m.2)
      | None =>
          match match_nouveau error with
          | Some m => (Some m.1, m.2)
          | None => (None, error)
          end
      end
  end.


(** [s.split('\n')] *)
Definition newline : ascii := "010"%char.
Fixpoint split_lines (s : string) : list string :=
  match s with
  | EmptyString => [EmptyString]
  | String c s' =>
      if is_not_newline c then
        match split_lines s' with
        | line :: lines => String c line :: lines
        | [] => [String c EmptyString]
        end
      else EmptyString :: split_lines s'
  end.

(** [s.strip()]: leading whitespace goes, then trailing whitespace. *)
Fixpoint rstrip (s : string) : string :=
  match s with
  | EmptyString => EmptyString
  | String c s' =>
      match rstrip s' with
      | EmptyString => if is_space c then EmptyString else String c EmptyString
      | r => String c r
      end
  end.
Definition py_strip (s : string) : string := rstrip (span is_space s).2.

(** ['\n'.join(l)] and [' ' * n] *)
Fixpoint join_lines (l : list string) : string :=
  match l with
  | [] => EmptyString
  | [x] => x
  | x :: rest => x ++ String newline (join_lines rest)
  end.
Fixpoint spaces (n : nat) : string :=
  match n with
  | O => EmptyString
  | S n' => String " "%char (spaces n')
  end.

(** What one line of the compiler log adds to [results] in [_get_error]. *)
Definition error_lines (lines : option (list string)) (error : string)
  : list string :=
  let error := py_strip error in
  if bool_decide (error = "") then []
  else
    let parsed := _parse_error error in
    match parsed.1, lines with
    | Some linenr, Some lines =>
        ("on line " ++ pretty linenr ++ ": " ++ parsed.2) ::
        (if bool_decide (linenr > 0)
            && bool_decide (linenr < Z.of_nat (List.length lines))
         then match lines !! Z.to_nat (linenr - 1) with
              | Some line => ["  " ++ line]
              | None => []
              end
         else [])
    | _, _ => [parsed.2]
    end.

(** [GlirProgram._get_error]; [code.split] needs [code] to be a string. *)
Definition _get_error (code : pyval) (errors : string) (indentation : nat)
  : result string :=
  match (match code with
         | PNone => Ok None
         | PStr code => Ok (Some (map py_strip (split_lines code)))
         | _ => Raise AttributeError
         end) with
  | Raise e => Raise e
  | Ok lines =>
      let results := flat_map (error_lines lines) (split_lines errors) in
      let results := map (fun r => spaces indentation ++ r) results in
      Ok (join_lines results)
  end.

(** One stage of [set_shaders]. *)
Definition compile_stage (code : pyval) (handle : Z) (type : string) : M unit :=
  gl_call (glShaderSource handle code) ;;;
  gl_call (glCompileShader handle) ;;;
  let! status := gl_call_int (glGetShaderParameter handle GL_COMPILE_STATUS) in
  if bool_decide (status = 0) then
    let! errors := gl_call_str (glGetShaderInfoLog handle) in
    let! errormsg := lift (_get_error code errors 4) in
    raise (RuntimeError ("Shader compilation error in " ++ (type ++ " shader")
                         ++ ":" ++ String newline errormsg))
  else ret tt.

Definition GlirProgram_set_shaders (self : nat) (vert frag : pyval) : M unit :=
  let! vert_handle := gl_call_int (glCreateShader GL_VERTEX_SHADER) in
  let! frag_handle := gl_call_int (glCreateShader GL_FRAGMENT_SHADER) in
  compile_stage vert vert_handle "vertex" ;;;
  compile_stage frag frag_handle "fragment" ;;;
  let! p := load_program self in
  gl_call (glAttachShader (p_handle p) vert_handle) ;;;
  gl_call (glAttachShader (p_handle p) frag_handle) ;;;
  gl_call (glLinkProgram (p_handle p)) ;;;
  let! status := gl_call_int (glGetProgramParameter (p_handle p) GL_LINK_STATUS) in
  (if bool_decide (status = 0) then
     let! log := gl_call_str (glGetProgramInfoLog (p_handle p)) in
     print (print_info_log log) ;;;
     raise (RuntimeError "Program linking error")
   else ret tt) ;;;
  gl_call (glDetachShader (p_handle p) vert_handle) ;;;
  gl_call (glDetachShader (p_handle p) frag_handle) ;;;
  gl_call (glDeleteShader vert_handle) ;;;
  gl_call (glDeleteShader frag_handle) ;;;
  let! names := _get_active_attributes_and_uniforms self in
  update_program self (set_unset_variables names) ;;;
  update_program self (set_handles ∅).

(** [GlirProgram._get_free_unit] *)
Definition _get_free_unit (units : list Z) : M Z :=
  match units with
  | [] => ret 1
  | u :: us =>
      let min_unit := foldr Z.min u us in
      let max_unit := foldr Z.max u us in
      if bool_decide (min_unit > 1) then ret (min_unit - 1)
      else if bool_decide (Z.of_nat (List.length units) < max_unit - min_unit + 1) then
        match set_pop D (list_to_set (seqZ (min_unit + 1) (max_unit - (min_unit + 1)))
                           ∖ list_to_set units) with
        | Some unit => ret unit
        | None => raise KeyError
        end
      else ret (max_unit + 1)
  end.

(** [GlirParser.get_object] *)
Definition get_object (key : pyval) : M (option nat) :=
  let! w := get_world in
  match key with
  | PInt i => ret (_objects w !! i)
  | _ => if hashable key then ret None else raise TypeError
  end.

(** The common prologue of [set_uniform] and [set_attribute]: the cached
    location, or a fresh query that marks the name as set; [None] when the
    method warns and returns. *)
Definition resolve_handle (self : nat) (name : string)
    (query : Z -> string -> glcall) (warning : output) : M (option Z) :=
  let! p := load_program self in
  let handle := default (-1) (_handles p !! name) in
  if bool_decide (handle < 0) then
    let! handle := gl_call_int (query (p_handle p) name) in
    update_program self
      (fun p => set_unset_variables (_unset_variables p ∖ {[ name ]}) p) ;;;
    update_program self (fun p => set_handles (<[ name := handle ]> (_handles p)) p) ;;;
    if bool_decide (handle < 0) then
      print warning ;;; ret None
    else ret (Some handle)
  else ret (Some handle).

Definition GlirProgram_set_uniform (self : nat) (name : string) (type value : pyval)
  : M unit :=
  let! resolved := resolve_handle self name glGetUniformLocation
                     (warn_not_active_uniform name) in
  match resolved with
  | None => ret tt
  | Some handle =>
      let! funcname := subscript UTYPEMAP type in
      use_this_program self ;;;
      if startswith "mat" type then
        let transpose := false in
        gl_call (glUniformMatrixv funcname handle 1 transpose value)
      else if startswith "sampler" type then
        let! found := get_object value in
        match found with
        | None =>
            let! shown := lift (format_i value) in
            raise (RuntimeError ("Could not find texture with id " ++ shown))
        | Some tex =>
            update_program self (fun p => set_samplers (dict_pop name (_samplers p)) p) ;;;
            let! p := load_program self in
            let! unit := _get_free_unit (map (fun s => s.2) (dict_values (_samplers p))) in
            update_program self
              (fun p => set_samplers (dict_set name (tex, unit) (_samplers p)) p) ;;;
            gl_call (glUniform1i handle unit)
        end
      else gl_call (glUniformv funcname handle 1 value)
  end.

Definition GlirProgram_set_attribute (self : nat) (name : string) (type value : pyval)
  : M unit :=
  let! resolved := resolve_handle self name glGetAttribLocation
                     (warn_not_active_attribute name) in
  match resolved with
  | None => ret tt
  | Some handle =>
      use_this_program self ;;;
      let! v0 := lift (py_index value 0) in
      if py_eqb v0 (PInt 0) then
        let! funcname := subscript ATYPEMAP type in
        gl_call (glDisableVertexAttribArray handle) ;;;
        let! items := lift (py_items value) in
        gl_call (glVertexAttrib funcname handle (drop 1 items)) ;;;
        update_program self (fun p => set_buffers (dict_pop name (_buffers p)) p)
      else
        let! v := lift (unpack3 value) in
        let! info := subscript ATYPEINFO type in
        let! found := get_object v.1.1 in
        match found with
        | None =>
            let! shown := lift (format_i v.1.1) in
            raise (RuntimeError ("Could not find VBO with id " ++ shown))
        | Some vbo =>
            activate (recursion_limit D) vbo ;;;
            gl_call (glEnableVertexAttribArray handle) ;;;
            gl_call (glVertexAttribPointer handle info.1 info.2 GL_FALSE v.1.2 v.2) ;;;
            update_program self (fun p => set_buffers (dict_set name vbo (_buffers p)) p)
        end
  end.

Definition GlirProgram_draw (self : nat) (mode selection : pyval) : M unit :=
  GlirProgram_activate (activate (recursion_limit D)) self ;;;
  gl_call_fallible (check_error "Check before draw") ;;;
  let! items := lift (py_items selection) in
  (if bool_decide (List.length items = 3%nat) then
     let! s := lift (unpack3 selection) in
     let! found := get_object s.1.1 in
     match found with
     | None => raise AttributeError
     | Some ibuf =>
         activate (recursion_limit D) ibuf ;;;
         gl_call (glDrawElements mode s.2 s.1.2) ;;;
         deactivate ibuf
     end
   else
     let! s := lift (unpack2 selection) in
     gl_call (glDrawArrays mode s.1 s.2)) ;;;
  gl_call_fallible (check_error "Check after draw") ;;;
  GlirProgram_deactivate self.

(** ** class GlirParser *)

Definition _classmap : gmap string klass :=
  list_to_map
    [("VERTEXBUFFER", GlirVertexBuffer); ("INDEXBUFFER", GlirIndexBuffer);
     ("PROGRAM", GlirProgramClass);
     ("Texture2D", GlirTexture2D); ("Texture3D", GlirTexture3D)].

(** [klass(self)] *)
Definition construct (k : klass) : M nat :=
  match k with
  | GlirVertexBuffer => let! b := GlirBuffer__init__ in alloc (VertexBuffer b)
  | GlirIndexBuffer => let! b := GlirBuffer__init__ in alloc (IndexBuffer b)
  | GlirProgramClass => let! p := GlirProgram__init__ in alloc (Program p)
  | GlirTexture2D => let! t := GlirTexture__init__ in alloc (Texture2D t)
  | GlirTexture3D => let! t := GlirTexture__init__ in alloc (Texture3D t)
  end.

(** [ob.set_size( *args )]: the method is looked up in the object's class,
    then the arguments are matched against its signature. *)
Definition call_set_size (ob : nat) (args : list pyval) : M unit :=
  let! o := load ob in
  match o, args with
  | Program _, _ => raise AttributeError
  | (VertexBuffer _ | IndexBuffer _), [nbytes] => GlirBuffer_set_size ob nbytes
  | Texture2D _, [shape; format] => GlirTexture2D_set_size ob shape format
  | Texture3D _, [shape; format] => GlirTexture3D_set_size ob shape format
  | _, _ => raise TypeError
  end.

Definition call_set_data (ob : nat) (args : list pyval) : M unit :=
  let! o := load ob in
  match o, args with
  | Program _, _ => raise AttributeError
  | (VertexBuffer _ | IndexBuffer _), [offset; data] => GlirBuffer_set_data ob offset data
  | Texture2D _, [offset; data] => GlirTexture2D_set_data ob offset data
  | Texture3D _, [offset; data] => GlirTexture3D_set_data ob offset data
  | _, _ => raise TypeError
  end.

Definition call_set_shaders (ob : nat) (args : list pyval) : M unit :=
  let! o := load ob in
  match o, args with
  | Program _, [vert; frag] => GlirProgram_set_shaders ob vert frag
  | Program _, _ => raise TypeError
  | _, _ => raise AttributeError
  end.

(** Variable names reach [gl] as strings; any other value is rejected. *)
Definition call_set_uniform (ob : nat) (args : list pyval) : M unit :=
  let! o := load ob in
  match o, args with
  | Program _, [PStr name; type; value] => GlirProgram_set_uniform ob name type value
  | Program _, _ => raise TypeError
  | _, _ => raise AttributeError
  end.

Definition call_set_attribute (ob : nat) (args : list pyval) : M unit :=
  let! o := load ob in
  match o, args with
  | Program _, [PStr name; type; value] => GlirProgram_set_attribute ob name type value
  | Program _, _ => raise TypeError
  | _, _ => raise AttributeError
  end.

Definition call_draw (ob : nat) (args : list pyval) : M unit :=
  let! o := load ob in
  match o, args with
  | Program _, [mode; selection] => GlirProgram_draw ob mode selection
  | Program _, _ => raise TypeError
  | _, _ => raise AttributeError
  end.

Definition call_set_wrapping (ob : nat) (args : list pyval) : M unit :=
  let! o := load ob in
  match o, args with
  | (Texture2D _ | Texture3D _), [wrapping] => GlirTexture_set_wrapping ob wrapping
  | (Texture2D _ | Texture3D _), _ => raise TypeError
  | _, _ => raise AttributeError
  end.

Definition call_set_interpolation (ob : nat) (args : list pyval) : M unit :=
  let! o := load ob in
  match o, args with
  | (Texture2D _ | Texture3D _), [interpolation] =>
      GlirTexture_set_interpolation ob interpolation
  | (Texture2D _ | Texture3D _), _ => raise TypeError
  | _, _ => raise AttributeError
  end.

(** [getattr(ob, 'set_'+args[0])( *args[1:] )] *)
Definition call_set (ob : nat) (args : list pyval) : M unit :=
  match args with
  | [] => raise IndexError
  | PStr what :: rest =>
      if bool_decide (what = "size") then call_set_size ob rest
      else if bool_decide (what = "data") then call_set_data ob rest
      else if bool_decide (what = "shaders") then call_set_shaders ob rest
      else if bool_decide (what = "uniform") then call_set_uniform ob rest
      else if bool_decide (what = "attribute") then call_set_attribute ob rest
      else if bool_decide (what = "wrapping") then call_set_wrapping ob rest
      else if bool_decide (what = "interpolation") then call_set_interpolation ob rest
      else raise AttributeError
  | _ :: _ => raise TypeError
  end.

(** The body of the loop of [GlirParser.parse]. *)
Definition parse_command (command : command) : M unit :=
  let cmd := cmd command in
  let id := id command in
  let args := args command in
  if bool_decide (cmd = "CREATE") then
    match args with
    | [] => raise IndexError
    | kind :: _ =>
        if negb (is_None kind) then
          let! klass := subscript _classmap kind in
          let! ob := construct klass in
          register id ob
        else add_invalid id
    end
  else if bool_decide (cmd = "DELETE") then
    let! w := get_world in
    match _objects w !! id with
    | Some ob => delete ob
    | None => ret tt
    end
  else
    let! w := get_world in
    match _objects w !! id with
    | None =>
        if bool_decide (id ∉ _invalid_objects w) then print (print_cannot cmd id)
        else ret tt
    | Some ob =>
        if bool_decide (cmd = "ACTIVATE") then activate (recursion_limit D) ob
        else if bool_decide (cmd = "DEACTIVATE") then deactivate ob
        else if bool_decide (cmd = "SIZE") then call_set_size ob args
        else if bool_decide (cmd = "DATA") then call_set_data ob args
        else if bool_decide (cmd = "SHADERS") then call_set_shaders ob args
        else if bool_decide (cmd = "UNIFORM") then call_set_uniform ob args
        else if bool_decide (cmd = "ATTRIBUTE") then call_set_attribute ob args
        else if bool_decide (cmd = "DRAW") then call_draw ob args
        else if bool_decide (cmd = "SET") then call_set ob args
        else print (print_invalid_command cmd)
    end.

(** [GlirParser.parse] *)
Definition parse (commands : list command) : M unit :=
  for_each commands parse_command.

End Interpreter.

(** ** A concrete driver, for running the interpreter

    Object creation hands out 1, 2, 3, ... (one more than the number of
    calls made so far is always fresh); every status query succeeds; every
    location query answers 0; no variable is active; nothing fails. *)
Definition plain_driver : driver :=
  {| gl_int := fun trace c =>
       match c with
       | glCreateProgram | glCreateBuffer | glCreateTexture | glCreateShader _ =>
           Z.of_nat (List.length trace) + 1
       | glGetProgramParameter _ pname =>
           if bool_decide (pname = GL_ACTIVE_UNIFORMS ∨ pname = GL_ACTIVE_ATTRIBUTES)
           then 0 else 1
       | glGetShaderParameter _ _ => 1
       | _ => 0
       end;
     gl_str := fun _ _ => "";
     gl_active := fun _ _ => ("", 0, 0);
     gl_fails := fun _ _ => false;
     ati_bug_platform := false;
     pyopengl_available := true;
     recursion_limit := 1000;
     set_pop := fun s => head (elements s) |}.

(** ** Vocabulary of the properties *)

(** A computation keeps an invariant of the state, however it ends. *)
Definition preserves {A} (I : world -> Prop) (m : M A) : Prop :=
  forall w, I w -> I (m w).2.

(** The texture units recorded in a program's sampler map. *)
Definition sampler_units (p : GlirProgram) : list Z :=
  map (fun s => s.2) (dict_values (_samplers p)).

(** In every program of the heap the recorded units are pairwise distinct. *)
Definition samplers_distinct (w : world) : Prop :=
  forall r p, heap w !! r = Some (Program p) -> NoDup (sampler_units p).

(** The names under which a program records samplers. *)
Definition sampler_names (p : GlirProgram) : list string :=
  map fst (_samplers p).

(** A program records each sampler name once, and the recorded units are
    exactly 1, ..., n, for n the number of its samplers. *)
Definition packed (p : GlirProgram) : Prop :=
  NoDup (sampler_names p) /\
  sampler_units p ≡ₚ seqZ 1 (Z.of_nat (List.length (_samplers p))).

(** Every program of the heap is packed. *)
Definition samplers_packed (w : world) : Prop :=
  forall r p, heap w !! r = Some (Program p) -> packed p.

(** The units a program records under the names other than [name]. *)
Definition other_units (name : string) (p : GlirProgram) : list Z :=
  map (fun kv => kv.2.2)
    (List.filter (fun kv => negb (bool_decide (kv.1 = name))) (_samplers p)).

(** An object as its constructor leaves it, as far as samplers go. *)
Definition fresh_object (o : GlirObject) : Prop :=
  match o with
  | Program p => _samplers p = []
  | _ => True
  end.

(** Handle [h] is marked invalid and no object is registered under it. *)
Definition invalid_only (h : Z) (w : world) : Prop :=
  h ∈ _invalid_objects w /\ _objects w !! h = None.

(** The object a constructor of class [k] builds around native handle [n]. *)
Definition new_object (k : klass) (n : Z) : GlirObject :=
  match k with
  | GlirVertexBuffer =>
      VertexBuffer {| b_handle := n; _buffer_size := PInt 0; _bufferSubDataOk := false |}
  | GlirIndexBuffer =>
      IndexBuffer {| b_handle := n; _buffer_size := PInt 0; _bufferSubDataOk := false |}
  | GlirProgramClass =>
      Program {| p_handle := n; _validated := false; _handles := ∅;
                 _unset_variables := ∅; _samplers := []; _buffers := [] |}
  | GlirTexture2D =>
      Texture2D {| t_handle := n; _shape_format := PInt 0; _format := None |}
  | GlirTexture3D =>
      Texture3D {| t_handle := n; _shape_format := PInt 0; _format := None |}
  end.

(** The [gl] entry point each constructor calls. *)
Definition creation_call (k : klass) : glcall :=
  match k with
  | GlirVertexBuffer | GlirIndexBuffer => glCreateBuffer
  | GlirProgramClass => glCreateProgram
  | GlirTexture2D | GlirTexture3D => glCreateTexture
  end.

(** The state once the constructor of class [k] has run, before the new
    object is put on the heap: a program constructor first resets
    [_current_program]. *)
Definition after_creation (k : klass) (w : world) : world :=
  record_call (creation_call k)
    match k with
    | GlirProgramClass => (set_current_program (CP_int 0) w).2
    | _ => w
    end.

(** The native call that releases an object's resource, and the one
    that unbinds it. *)
Definition deletion_call (o : GlirObject) : glcall :=
  match o with
  | VertexBuffer b | IndexBuffer b => glDeleteBuffer (b_handle b)
  | Program p => glDeleteProgram (p_handle p)
  | Texture2D t | Texture3D t => glDeleteTexture (t_handle t)
  end.
Definition deactivation_call (o : GlirObject) : glcall :=
  match o with
  | VertexBuffer _ => glBindBuffer GL_ARRAY_BUFFER 0
  | IndexBuffer _ => glBindBuffer GL_ELEMENT_ARRAY_BUFFER 0
  | Program _ => glBindBuffer GL_ARRAY_BUFFER 0
  | Texture2D _ => glBindTexture GL_TEXTURE_2D 0
  | Texture3D _ => glBindTexture GL_TEXTURE_3D 0
  end.

(** The buffer stored at a heap position, with the target of its class. *)
Definition buffer_at (w : world) (self : nat) : option (Z * GlirBuffer) :=
  match heap w !! self with
  | Some (VertexBuffer b) => Some (GL_ARRAY_BUFFER, b)
  | Some (IndexBuffer b) => Some (GL_ELEMENT_ARRAY_BUFFER, b)
  | _ => None
  end.




(** Every character of a string is of a class. *)
Fixpoint all_chars (p : ascii -> bool) (s : string) : bool :=
  match s with
  | EmptyString => true
  | String c s' => p c && all_chars p s'
  end.





(** The state after further calls into [gl]. *)
Definition extend_trace (calls : list glcall) (w : world) : world :=
  {| _objects := _objects w; _invalid_objects := _invalid_objects w;
     _current_program := _current_program w; heap := heap w;
     gl_trace := gl_trace w ++ calls; stdout := stdout w |}.


Definition CREATE (i : Z) (kind : pyval) : command :=
  {| cmd := "CREATE"; id := i; args := [kind] |}.
Definition DELETE (i : Z) : command :=
  {| cmd := "DELETE"; id := i; args := [] |}.
Definition ACTIVATE (i : Z) : command :=
  {| cmd := "ACTIVATE"; id := i; args := [] |}.
Definition SIZE (i : Z) (a : list pyval) : command :=
  {| cmd := "SIZE"; id := i; args := a |}.
Definition DATA (i : Z) (offset data : pyval) : command :=
  {| cmd := "DATA"; id := i; args := [offset; data] |}.
Definition SHADERS (i : Z) (vert frag : string) : command :=
  {| cmd := "SHADERS"; id := i; args := [PStr vert; PStr frag] |}.
Definition UNIFORM (i : Z) (name type : string) (value : pyval) : command :=
  {| cmd := "UNIFORM"; id := i; args := [PStr name; PStr type; value] |}.

(** Native calls of interest in a trace. *)
Definition is_glUseProgram (c : glcall) : bool :=
  match c with glUseProgram _ => true | _ => false end.
Definition is_allocation (c : glcall) : bool :=
  match c with
  | glBufferData _ _ _ | glTexImage2D _ _ _ _ _ _
  | glTexImage3D _ _ _ _ _ _ _ _ _ => true
  | _ => false
  end.
Definition is_texture_upload (c : glcall) : bool :=
  match c with
  | glTexSubImage2D _ _ _ _ _ _ _ | glTexSubImage3D _ _ _ _ _ _ _ _ _ _ _ => true
  | _ => false
  end.

(** What a run leaves behind, in a form that prints. *)
Definition registry (w : world) : list (Z * nat) := map_to_list (_objects w).
Definition invalid (w : world) : list Z := elements (_invalid_objects w).

(** ** class GlirQueue

    The queue in front of the parser.  A command is the tuple
    [(cmd, id, *args)]; its last element is the last argument, or the
    handle when there is no argument. *)
Record GlirQueue := {
  _commands : list command;
  queue_invalid_objects : gset Z
}.

Definition GlirQueue__init__ : GlirQueue :=
  {| _commands := []; queue_invalid_objects := ∅ |}.

(** [GlirQueue.command] *)
Definition GlirQueue_command (q : GlirQueue) (c : command) : GlirQueue :=
  {| _commands := _commands q ++ [c];
     queue_invalid_objects :=
       if bool_decide (cmd c = "CREATE")
          && is_None (default (PInt (id c)) (last (args c)))
       then {[ id c ]} ∪ queue_invalid_objects q
       else queue_invalid_objects q |}.

(** [GlirQueue.clear]: the commands queued so far, and the emptied queue. *)
Definition GlirQueue_clear (q : GlirQueue) : list command * GlirQueue :=
  (_commands q,
   {| _commands := []; queue_invalid_objects := queue_invalid_objects q |}).

(** [GlirQueue.parse]: the queue is emptied before its parser, whose
    state is the [world], interprets the commands. *)
Definition GlirQueue_parse (D : driver) (q : GlirQueue) (w : world)
  : result unit * GlirQueue * world :=
  let cleared := GlirQueue_clear q in
  let r := parse D cleared.1 w in
  (r.1, cleared.2, r.2).

(** ** [GlirBuffer.exec_commands]

    The method sorts the commands it is given into a local list and
    returns; nothing is executed.  A buffer command is a tuple whose first
    element is a name. *)
Fixpoint exec_commands_loop (commands : list (string * list pyval))
    (data_commands other_commands : list (string * list pyval))
  : list (string * list pyval) * list (string * list pyval) :=
  match commands with
  | [] => (data_commands, other_commands)
  | command :: rest =>
      let data_commands :=
        if bool_decide (command.1 = "resize") then [] else data_commands in
      if bool_decide (command.1 = "data")
      then exec_commands_loop rest (data_commands ++ [command]) other_commands
      else exec_commands_loop rest data_commands (other_commands ++ [command])
  end.

(** The value of the local [commands] when the method returns. *)
Definition exec_commands_order (commands : list (string * list pyval))
  : list (string * list pyval) :=
  let sorted := exec_commands_loop commands [] [] in
  sorted.2 ++ sorted.1.

Definition GlirBuffer_exec_commands (self : nat)
    (commands : list (string * list pyval)) : M unit :=
  let commands := exec_commands_order commands in
  ret tt.

(** ** More vocabulary *)

Definition is_glValidateProgram (c : glcall) : bool :=
  match c with glValidateProgram _ => true | _ => false end.
Definition is_glDeleteShader (c : glcall) : bool :=
  match c with glDeleteShader _ => true | _ => false end.
Definition is_glCreateShader (c : glcall) : bool :=
  match c with glCreateShader _ => true | _ => false end.
Definition is_uniform_call (c : glcall) : bool :=
  match c with
  | glUniformv _ _ _ _ | glUniformMatrixv _ _ _ _ _ | glUniform1i _ _ => true
  | _ => false
  end.

(** The state after further output. *)
Definition extend_stdout (outs : list output) (w : world) : world :=
  {| _objects := _objects w; _invalid_objects := _invalid_objects w;
     _current_program := _current_program w; heap := heap w;
     gl_trace := gl_trace w; stdout := stdout w ++ outs |}.

(** The diagnostic of a command that finds no object. *)
Definition cannot (c : command) : output := print_cannot (cmd c) (id c).

(** The eleven verbs the parser knows. *)
Definition known_verbs : list string :=
  ["CREATE"; "DELETE"; "ACTIVATE"; "DEACTIVATE"; "SIZE"; "DATA";
   "SHADERS"; "UNIFORM"; "ATTRIBUTE"; "DRAW"; "SET"].

(** The program stored at a heap position. *)
Definition program_at (w : world) (self : nat) : option GlirProgram :=
  match heap w !! self with
  | Some (Program p) => Some p
  | _ => None
  end.

(** The texture at a heap position, with its target. *)
Definition texture_at (w : world) (self : nat) : option (Z * GlirTexture) :=
  match heap w !! self with
  | Some (Texture2D t) => Some (GL_TEXTURE_2D, t)
  | Some (Texture3D t) => Some (GL_TEXTURE_3D, t)
  | _ => None
  end.

(** The names for which some class has a [set_] method. *)
Definition set_methods : list string :=
  ["size"; "data"; "shaders"; "uniform"; "attribute"; "wrapping"; "interpolation"].

Definition SET (i : Z) (what : string) (rest : list pyval) : command :=
  {| cmd := "SET"; id := i; args := PStr what :: rest |}.

(** The location [set_uniform] and [set_attribute] go on with: the cached
    one when there is one that is not negative, else the answer of the
    driver to [query]. *)
Definition location_of (D : driver) (w : world) (p : GlirProgram)
    (name : string) (query : Z -> string -> glcall) : Z :=
  match _handles p !! name with
  | Some location =>
      if bool_decide (0 <= location) then location
      else gl_int D (gl_trace w) (query (p_handle p) name)
  | None => gl_int D (gl_trace w) (query (p_handle p) name)
  end.

(** The program and the state once the location is known: a usable
    cached location changes nothing; otherwise the query is recorded, its
    answer cached and the name struck from the unset variables. *)
Definition located (D : driver) (w : world) (self : nat) (p : GlirProgram)
    (name : string) (query : Z -> string -> glcall) : GlirProgram * world :=
  if bool_decide (default (-1) (_handles p !! name) < 0) then
    let p' := set_handles
                (<[name := gl_int D (gl_trace w) (query (p_handle p) name)]>
                   (_handles p))
                (set_unset_variables (_unset_variables p ∖ {[name]}) p) in
    (p', set_heap (<[self := Program p']> (heap w))
           (record_call (query (p_handle p) name) w))
  else (p, w).

(** A driver that answers like [D] except for the texts [strs] gives. *)
Definition with_strs (D : driver) (strs : list glcall -> glcall -> option string)
  : driver :=
  {| gl_int := gl_int D;
     gl_str := fun trace c => default (gl_str D trace c) (strs trace c);
     gl_active := gl_active D;
     gl_fails := gl_fails D; ati_bug_platform := ati_bug_platform D;
     pyopengl_available := pyopengl_available D;
     recursion_limit := recursion_limit D; set_pop := set_pop D |}.

(** A driver that answers like [D] but whose calls fail as [fails] says. *)
Definition with_failures (D : driver) (fails : list glcall -> glcall -> bool)
  : driver :=
  {| gl_int := gl_int D; gl_str := gl_str D; gl_active := gl_active D;
     gl_fails := fails; ati_bug_platform := ati_bug_platform D;
     pyopengl_available := pyopengl_available D;
     recursion_limit := recursion_limit D; set_pop := set_pop D |}.

(** A driver that answers like [D] except for the integers [ints] gives. *)
Definition with_ints (D : driver) (ints : list glcall -> glcall -> option Z)
  : driver :=
  {| gl_int := fun trace c => default (gl_int D trace c) (ints trace c);
     gl_str := gl_str D; gl_active := gl_active D;
     gl_fails := gl_fails D; ati_bug_platform := ati_bug_platform D;
     pyopengl_available := pyopengl_available D;
     recursion_limit := recursion_limit D; set_pop := set_pop D |}.

(** * Properties *)

(** ** Texture units: [_get_free_unit] *)

Section FreeUnit.
Context (D : driver) (pop_ok : set_pop_ok D).

Lemma foldr_min_le (u : Z) (us : list Z) :
  ∀ x, x ∈ u :: us → foldr Z.min u us ≤ x.
Proof.
  induction us as [|v us IH]; intros x Hx; simpl.
  - apply list_elem_of_singleton in Hx. lia.
  - assert (foldr Z.min u us ≤ u) by (apply IH; left).
    apply elem_of_cons in Hx as [->|Hx]; [lia|].
    apply elem_of_cons in Hx as [->|Hx]; [lia|].
    assert (foldr Z.min u us ≤ x) by (apply IH; right; done). lia.
Qed.

Lemma foldr_max_ge (u : Z) (us : list Z) :
  ∀ x, x ∈ u :: us → x ≤ foldr Z.max u us.
Proof.
  induction us as [|v us IH]; intros x Hx; simpl.
  - apply list_elem_of_singleton in Hx. lia.
  - assert (u ≤ foldr Z.max u us) by (apply IH; left).
    apply elem_of_cons in Hx as [->|Hx]; [lia|].
    apply elem_of_cons in Hx as [->|Hx]; [lia|].
    assert (x ≤ foldr Z.max u us) by (apply IH; right; done). lia.
Qed.

Lemma foldr_min_elem (u : Z) (us : list Z) : foldr Z.min u us ∈ u :: us.
Proof.
  induction us as [|v us IH]; simpl; [left|].
  destruct (Z.min_spec v (foldr Z.min u us)) as [[_ ->]|[_ ->]].
  - right; left.
  - apply elem_of_cons in IH as [->|IH]; [left | right; right; done].
Qed.

Lemma foldr_max_elem (u : Z) (us : list Z) : foldr Z.max u us ∈ u :: us.
Proof.
  induction us as [|v us IH]; simpl; [left|].
  destruct (Z.max_spec v (foldr Z.max u us)) as [[_ ->]|[_ ->]].
  - apply elem_of_cons in IH as [->|IH]; [left | right; right; done].
  - right; left.
Qed.

(** Fewer entries than the width of the interval they span: some value
    strictly inside the interval is missing. *)
Lemma gap_exists (units : list Z) (lo hi : Z) :
  lo ∈ units → hi ∈ units →
  Z.of_nat (List.length units) < hi - lo + 1 →
  ∃ y, lo + 1 ≤ y < hi ∧ y ∉ units.
Proof.
  intros Hlo Hhi Hlen.
  destruct (decide (Forall (λ y, y ∈ units) (seqZ lo (hi - lo + 1)))) as [Hall|Hnot].
  - exfalso.
    assert (seqZ lo (hi - lo + 1) ⊆+ units) as Hsub.
    { apply NoDup_submseteq; [apply NoDup_seqZ|].
      intros x Hx. by eapply Forall_forall in Hall. }
    apply submseteq_length in Hsub. rewrite length_seqZ in Hsub. lia.
  - apply not_Forall_Exists in Hnot; [|intros; apply _].
    apply Exists_exists in Hnot as (y & Hy & Hny).
    apply elem_of_seqZ in Hy. exists y. split; [|done].
    assert (y ≠ lo) by (intros ->; done).
    assert (y ≠ hi) by (intros ->; done). lia.
Qed.

(** The unit handed out is never one of the occupied ones, and the call
    neither raises nor touches the state. *)
Lemma free_unit_fresh (units : list Z) (w : world) :
  ∃ u, _get_free_unit D units w = (Ok u, w) ∧ (u ∉ units) ∧
       (Forall (Z.le 1) units → 1 ≤ u).
Proof.
  destruct units as [|u us].
  { exists 1. split; [done|]. split; [apply not_elem_of_nil | lia]. }
  unfold _get_free_unit.
  pose proof (foldr_min_le u us) as Hmin.
  pose proof (foldr_max_ge u us) as Hmax.
  pose proof (foldr_min_elem u us) as Hmin_in.
  pose proof (foldr_max_elem u us) as Hmax_in.
  set (lo := foldr Z.min u us) in *. set (hi := foldr Z.max u us) in *.
  clearbody lo hi.
  case_bool_decide as Hlo.
  { exists (lo - 1). split; [done|]. split.
    - intros Hin. apply Hmin in Hin. lia.
    - lia. }
  case_bool_decide as Hlen.
  - destruct (gap_exists (u :: us) lo hi Hmin_in Hmax_in Hlen) as (y & Hy & Hny).
    pose proof (pop_ok (list_to_set (seqZ (lo + 1) (hi - (lo + 1))) ∖ list_to_set (u :: us)))
      as Hpop.
    destruct (set_pop D _) as [x|].
    + exists x. split; [done|].
      apply elem_of_difference in Hpop as [Hx Hnx].
      rewrite elem_of_list_to_set in Hx, Hnx. apply elem_of_seqZ in Hx.
      split; [done|]. intros Hall.
      assert (1 ≤ lo) by (by eapply Forall_forall in Hall). lia.
    + exfalso. assert (y ∈ (∅ : gset Z)) as Hy'; [|by apply not_elem_of_empty in Hy'].
      rewrite <- Hpop. apply elem_of_difference. rewrite !elem_of_list_to_set.
      split; [apply elem_of_seqZ; lia | done].
  - exists (hi + 1). split; [done|]. split.
    + intros Hin. apply Hmax in Hin. lia.
    + intros Hall. assert (1 ≤ hi) by (by eapply Forall_forall in Hall). lia.
Qed.

(** When the occupied units are 1..n with exactly [k] missing, the unit
    handed out is [k]: the lowest unused one. *)
Lemma free_unit_fills_hole (units : list Z) (n k : Z) (w : world) :
  1 ≤ k ≤ n → NoDup units →
  (∀ x, x ∈ units ↔ 1 ≤ x ≤ n ∧ x ≠ k) →
  _get_free_unit D units w = (Ok k, w).
Proof.
  intros Hk Hnd Hiff.
  assert (List.length units = Z.to_nat (n - 1)) as Hlen.
  { assert (k :: units ≡ₚ seqZ 1 n) as Hperm.
    { apply NoDup_Permutation.
      - constructor; [rewrite Hiff; lia | done].
      - apply NoDup_seqZ.
      - intros x. rewrite elem_of_cons, Hiff, elem_of_seqZ. lia. }
    apply Permutation_length in Hperm. rewrite length_seqZ in Hperm.
    simpl in Hperm. lia. }
  destruct units as [|u us].
  { simpl in Hlen. assert (n = 1) as -> by lia. by assert (k = 1) as -> by lia. }
  unfold _get_free_unit.
  pose proof (foldr_min_le u us) as Hmin.
  pose proof (foldr_max_ge u us) as Hmax.
  pose proof (foldr_min_elem u us) as Hmin_in.
  pose proof (foldr_max_elem u us) as Hmax_in.
  set (lo := foldr Z.min u us) in *. set (hi := foldr Z.max u us) in *.
  clearbody lo hi.
  assert (2 ≤ n) by (simpl in Hlen; lia).
  apply Hiff in Hmin_in as Hlo_range. apply Hiff in Hmax_in as Hhi_range.
  destruct (decide (k = 1)) as [->|Hk1].
  { assert (lo ≤ 2) by (apply Hmin, Hiff; lia).
    rewrite bool_decide_eq_true_2 by lia. by replace (lo - 1) with 1 by lia. }
  assert (lo = 1) as Hlo1.
  { assert (lo ≤ 1) by (apply Hmin, Hiff; lia). lia. }
  rewrite bool_decide_eq_false_2 by lia.
  destruct (decide (k = n)) as [->|Hkn].
  { assert (hi = n - 1) as Hhi.
    { assert (n - 1 ≤ hi) by (apply Hmax, Hiff; lia). lia. }
    rewrite bool_decide_eq_false_2 by lia. by replace (hi + 1) with n by lia. }
  assert (hi = n) as Hhi.
  { assert (n ≤ hi) by (apply Hmax, Hiff; lia). lia. }
  rewrite bool_decide_eq_true_2 by lia.
  pose proof (pop_ok (list_to_set (seqZ (lo + 1) (hi - (lo + 1))) ∖ list_to_set (u :: us)))
    as Hpop.
  destruct (set_pop D _) as [x|].
  - apply elem_of_difference in Hpop as [Hx Hnx].
    rewrite elem_of_list_to_set in Hx, Hnx. apply elem_of_seqZ in Hx.
    rewrite Hiff in Hnx.
    destruct (decide (x = k)) as [->|]; [done|]. exfalso. apply Hnx. lia.
  - exfalso. assert (k ∈ (∅ : gset Z)) as Hy'; [|by apply not_elem_of_empty in Hy'].
    rewrite <- Hpop. apply elem_of_difference. rewrite !elem_of_list_to_set.
    split; [apply elem_of_seqZ; lia | rewrite Hiff; lia].
Qed.

(** The minimum and the maximum of a list, however they are named. *)
Lemma foldr_min_is (u : Z) (us : list Z) (lo : Z) :
  lo ∈ u :: us → (∀ x, x ∈ u :: us → lo ≤ x) → foldr Z.min u us = lo.
Proof.
  intros Hin Hle.
  pose proof (foldr_min_le u us lo Hin).
  pose proof (Hle _ (foldr_min_elem u us)). lia.
Qed.

Lemma foldr_max_is (u : Z) (us : list Z) (hi : Z) :
  hi ∈ u :: us → (∀ x, x ∈ u :: us → x ≤ hi) → foldr Z.max u us = hi.
Proof.
  intros Hin Hle.
  pose proof (foldr_max_ge u us hi Hin).
  pose proof (Hle _ (foldr_max_elem u us)). lia.
Qed.

(** The three cases of a list that is not empty, by its lowest unit [lo]
    and its highest unit [hi]. *)
Lemma free_unit_cases (units : list Z) (lo hi : Z) (w : world) :
  lo ∈ units → hi ∈ units → (∀ x, x ∈ units → lo ≤ x ≤ hi) →
  (1 < lo → _get_free_unit D units w = (Ok (lo - 1), w)) ∧
  (lo ≤ 1 → Z.of_nat (List.length units) < hi - lo + 1 →
   ∃ x, _get_free_unit D units w = (Ok x, w) ∧ lo < x < hi ∧ x ∉ units) ∧
  (lo ≤ 1 → hi - lo + 1 ≤ Z.of_nat (List.length units) →
   _get_free_unit D units w = (Ok (hi + 1), w)).
Proof.
  intros Hlo Hhi Hall.
  destruct units as [|u us]; [by apply elem_of_nil in Hlo|].
  assert (foldr Z.min u us = lo) as Hmin
    by (apply foldr_min_is; [done|]; intros x Hx; by apply Hall).
  assert (foldr Z.max u us = hi) as Hmax
    by (apply foldr_max_is; [done|]; intros x Hx; by apply Hall).
  unfold _get_free_unit. rewrite Hmin, Hmax.
  split; [|split].
  - intros H1. by rewrite bool_decide_eq_true_2 by lia.
  - intros H1 Hlen.
    rewrite bool_decide_eq_false_2 by lia.
    rewrite bool_decide_eq_true_2 by done.
    destruct (gap_exists (u :: us) lo hi Hlo Hhi Hlen) as (y & Hy & Hny).
    pose proof (pop_ok (list_to_set (seqZ (lo + 1) (hi - (lo + 1))) ∖ list_to_set (u :: us)))
      as Hpop.
    destruct (set_pop D _) as [x|].
    + exists x. split; [done|].
      apply elem_of_difference in Hpop as [Hx Hnx].
      rewrite elem_of_list_to_set in Hx, Hnx. apply elem_of_seqZ in Hx.
      split; [lia | done].
    + exfalso. assert (y ∈ (∅ : gset Z)) as Hy'; [|by apply not_elem_of_empty in Hy'].
      rewrite <- Hpop. apply elem_of_difference. rewrite !elem_of_list_to_set.
      split; [apply elem_of_seqZ; lia | done].
  - intros H1 Hlen.
    rewrite bool_decide_eq_false_2 by lia.
    by rewrite bool_decide_eq_false_2 by lia.
Qed.

(** In a list without repetitions, fewer entries than the span from the
    lowest to the highest unit means that a unit between them is unused. *)
Lemma gap_iff (units : list Z) (lo hi : Z) :
  NoDup units → lo ∈ units → hi ∈ units → (∀ x, x ∈ units → lo ≤ x ≤ hi) →
  Z.of_nat (List.length units) < hi - lo + 1 ↔ ∃ y, lo < y < hi ∧ y ∉ units.
Proof.
  intros Hnd Hlo Hhi Hall. split.
  - intros Hlen. destruct (gap_exists units lo hi Hlo Hhi Hlen) as (y & Hy & Hny).
    exists y. split; [lia | done].
  - intros (y & Hy & Hny).
    assert (y :: units ⊆+ seqZ lo (hi - lo + 1)) as Hsub.
    { apply NoDup_submseteq; [by constructor|].
      intros x Hx. apply elem_of_seqZ.
      apply elem_of_cons in Hx as [->|Hx]; [lia|]. apply Hall in Hx. lia. }
    apply submseteq_length in Hsub. rewrite length_seqZ in Hsub.
    simpl in Hsub. lia.
Qed.

(** The unit handed out does not depend on the state. *)
Lemma free_unit_any_world (units : list Z) (w w' : world) (u : Z) :
  _get_free_unit D units w = (Ok u, w) → _get_free_unit D units w' = (Ok u, w').
Proof.
  unfold _get_free_unit. destruct units; [by intros [= <-]|].
  repeat case_bool_decide; try (by intros [= <-]).
  destruct (set_pop D _); [by intros [= <-] | done].
Qed.

End FreeUnit.

(** ** Invariants of the interpreter state *)

Lemma preserves_ret {A} (I : world → Prop) (a : A) : preserves I (ret a).
Proof. by intros w. Qed.

Lemma preserves_raise {A} (I : world → Prop) (e : exception) :
  preserves I (@raise A e).
Proof. by intros w. Qed.

Lemma preserves_lift {A} (I : world → Prop) (r : result A) : preserves I (lift r).
Proof. by intros w. Qed.

Lemma preserves_get_world (I : world → Prop) : preserves I get_world.
Proof. by intros w. Qed.

Lemma preserves_load (I : world → Prop) (r : nat) : preserves I (load r).
Proof. intros w HI. unfold load. by destruct (heap w !! r). Qed.

Lemma preserves_bind {A B} (I : world → Prop) (m : M A) (k : A → M B) :
  preserves I m → (∀ a, preserves I (k a)) → preserves I (bind m k).
Proof.
  intros Hm Hk w HI. unfold bind. specialize (Hm w HI).
  destruct (m w) as [[a|e] w']; simpl in *; [by apply Hk | done].
Qed.

Lemma preserves_for_each {A} (I : world → Prop) (xs : list A) (body : A → M unit) :
  (∀ x, preserves I (body x)) → preserves I (for_each xs body).
Proof.
  intros Hbody. induction xs as [|x xs IH]; simpl.
  - apply preserves_ret.
  - apply preserves_bind; [apply Hbody | intros _; apply IH].
Qed.

Lemma preserves_try_except {A} (I : world → Prop) (body : M A)
    (handler : exception → M A) :
  preserves I body → (∀ e, preserves I (handler e)) →
  preserves I (try_except body handler).
Proof.
  intros Hb Hh w HI. unfold try_except. specialize (Hb w HI).
  destruct (body w) as [[a|e] w']; simpl in *; [done | by apply Hh].
Qed.

Lemma get_free_unit_state (D : driver) (units : list Z) (w : world) :
  (_get_free_unit D units w).2 = w.
Proof.
  unfold _get_free_unit. destruct units; [done|].
  repeat case_bool_decide; try done. by destruct (set_pop D _).
Qed.

(** What a constructor does, in closed form. *)
Lemma construct_eq (D : driver) (k : klass) (w : world) :
  construct D k w =
    (Ok (List.length (heap w)),
     set_heap (heap w ++ [new_object k (gl_int D (gl_trace w) (creation_call k))])
       (after_creation k w)).
Proof. by destruct k. Qed.

(** One step of a proof that a method keeps an invariant: split the
    sequencing, decide the branch, or close the goal with what is known
    about the primitive or the method under the cursor. *)
Ltac preserves_step :=
  cbv beta zeta;
  match goal with
  | |- preserves _ _ => solve [eauto 3 with preserves]
  | |- preserves _ (bind _ _) => apply preserves_bind; [|intros ?]
  | |- preserves _ (ret _) => apply preserves_ret
  | |- preserves _ (raise _) => apply preserves_raise
  | |- preserves _ (lift _) => apply preserves_lift
  | |- preserves _ get_world => apply preserves_get_world
  | |- preserves _ (load _) => apply preserves_load
  | |- preserves _ (for_each _ _) => apply preserves_for_each; intros ?
  | |- preserves _ (try_except _ _) => apply preserves_try_except; [|intros ?]
  | |- preserves _ (match ?x with _ => _ end) => destruct x
  end.
Ltac preserves_auto := repeat preserves_step.

Create HintDb preserves.

(** Re-binding a sampler keeps what its steps keep: the old entry goes, a
    free unit is drawn, the new entry is recorded. *)
Lemma preserves_rebind_stepwise (D : driver) (I : world → Prop) (self : nat)
    (name : string) (tex : nat) (handle : Z) :
  (∀ c w, I w → I (record_call c w)) →
  preserves I (update_program self
                 (λ p, set_samplers (dict_pop name (_samplers p)) p)) →
  (∀ unit w p,
     I w → heap w !! self = Some (Program p) →
     (_get_free_unit D (sampler_units p) w).1 = Ok unit →
     I (update_program self
          (λ p, set_samplers (dict_set name (tex, unit) (_samplers p)) p) w).2) →
  preserves I
    (update_program self (λ p, set_samplers (dict_pop name (_samplers p)) p) ;;;
     let! p := load_program self in
     let! unit := _get_free_unit D (map (λ s, s.2) (dict_values (_samplers p))) in
     update_program self
       (λ p, set_samplers (dict_set name (tex, unit) (_samplers p)) p) ;;;
     gl_call (glUniform1i handle unit)).
Proof.
  intros I_record_call I_pop_sampler I_set_sampler.
  apply preserves_bind; [apply I_pop_sampler|]. intros _ w HI.
  unfold bind at 1. unfold load_program, bind at 1, load.
  destruct (heap w !! self) as [o|] eqn:Hself; [|done].
  destruct o as [b|b|p|t|t]; try done. simpl.
  unfold bind at 1.
  pose proof (get_free_unit_state D (sampler_units p) w) as Hstate.
  pose proof I_set_sampler as Hset.
  unfold sampler_units in *.
  destruct (_get_free_unit D _ w) as [[unit|e] w'] eqn:Hunit;
    simpl in Hstate; subst w'; [|done].
  specialize (Hset unit w p HI Hself). rewrite Hunit in Hset.
  specialize (Hset eq_refl).
  unfold bind.
  destruct (update_program self _ w) as [[[]|e] w'']; simpl in *; [|done].
  by apply I_record_call.
Qed.

Section Invariant.
Context (D : driver) (I : world → Prop).

Hypothesis I_record_call : ∀ c w, I w → I (record_call c w).
Hypothesis I_print : ∀ o, preserves I (print o).
Hypothesis I_set_current_program : ∀ c, preserves I (set_current_program c).
Hypothesis I_update_buffer : ∀ self f, preserves I (update_buffer self f).
Hypothesis I_update_texture : ∀ self f, preserves I (update_texture self f).
Hypothesis I_update_program : ∀ self f,
  (∀ p, _samplers (f p) = _samplers p) → preserves I (update_program self f).
Hypothesis I_rebind_sampler : ∀ self name tex handle,
  preserves I
    (update_program self (λ p, set_samplers (dict_pop name (_samplers p)) p) ;;;
     let! p := load_program self in
     let! unit := _get_free_unit D (map (λ s, s.2) (dict_values (_samplers p))) in
     update_program self
       (λ p, set_samplers (dict_set name (tex, unit) (_samplers p)) p) ;;;
     gl_call (glUniform1i handle unit)).
Hypothesis I_alloc : ∀ o, fresh_object o → preserves I (alloc o).
Hypothesis I_add_invalid : ∀ i, preserves I (add_invalid i).

Lemma preserves_gl_call c : preserves I (gl_call c).
Proof. intros w HI. by apply I_record_call. Qed.
Lemma preserves_gl_call_int c : preserves I (gl_call_int D c).
Proof. intros w HI. by apply I_record_call. Qed.
Lemma preserves_gl_call_str c : preserves I (gl_call_str D c).
Proof. intros w HI. by apply I_record_call. Qed.
Lemma preserves_gl_call_active c : preserves I (gl_call_active D c).
Proof. intros w HI. by apply I_record_call. Qed.
Lemma preserves_gl_call_fallible c : preserves I (gl_call_fallible D c).
Proof.
  intros w HI. unfold gl_call_fallible.
  destruct (gl_fails D _ _); by apply I_record_call.
Qed.

Lemma preserves_update_program_fields self f :
  (∀ p, _samplers (f p) = _samplers p) → preserves I (update_program self f).
Proof. apply I_update_program. Qed.

#[local] Hint Resolve I_print I_set_current_program I_update_buffer
  I_update_texture I_rebind_sampler I_add_invalid preserves_gl_call
  preserves_gl_call_int preserves_gl_call_str preserves_gl_call_active
  preserves_gl_call_fallible : preserves.
#[local] Hint Extern 1 (preserves _ (update_program _ _)) =>
  (apply preserves_update_program_fields; intros ?; reflexivity) : preserves.

Lemma preserves_load_buffer self : preserves I (load_buffer self).
Proof. unfold load_buffer. preserves_auto. Qed.
Lemma preserves_load_texture self : preserves I (load_texture self).
Proof. unfold load_texture. preserves_auto. Qed.
Lemma preserves_load_program self : preserves I (load_program self).
Proof. unfold load_program. preserves_auto. Qed.
#[local] Hint Resolve preserves_load_buffer preserves_load_texture
  preserves_load_program : preserves.

Lemma preserves_get_format self : preserves I (get_format self).
Proof. unfold get_format. preserves_auto. Qed.
Lemma preserves_get_object key : preserves I (get_object key).
Proof. unfold get_object. preserves_auto. Qed.
Lemma preserves_subscript {V} (table : gmap string V) key :
  preserves I (subscript table key).
Proof. unfold subscript. preserves_auto. Qed.
Lemma preserves_get_free_unit units : preserves I (_get_free_unit D units).
Proof. intros w HI. by rewrite get_free_unit_state. Qed.
#[local] Hint Resolve preserves_get_format preserves_get_object
  preserves_subscript preserves_get_free_unit : preserves.

Lemma preserves_buffer_methods self :
  preserves I (GlirBuffer_delete self) ∧
  preserves I (GlirBuffer_activate self) ∧
  preserves I (GlirBuffer_deactivate self) ∧
  (∀ nbytes, preserves I (GlirBuffer_set_size self nbytes)) ∧
  (∀ offset data, preserves I (GlirBuffer_set_data D self offset data)).
Proof.
  repeat split; intros;
    unfold GlirBuffer_delete, GlirBuffer_activate, GlirBuffer_deactivate,
      GlirBuffer_set_size, GlirBuffer_set_data; preserves_auto.
Qed.

Lemma preserves_texture_methods self :
  preserves I (GlirTexture_delete self) ∧
  preserves I (GlirTexture_activate self) ∧
  preserves I (GlirTexture_deactivate self) ∧
  (∀ v, preserves I (GlirTexture_set_wrapping self v)) ∧
  (∀ v, preserves I (GlirTexture_set_interpolation self v)) ∧
  (∀ shape format, preserves I (GlirTexture2D_set_size self shape format)) ∧
  (∀ offset data, preserves I (GlirTexture2D_set_data self offset data)) ∧
  (∀ shape format, preserves I (GlirTexture3D_set_size D self shape format)) ∧
  (∀ offset data, preserves I (GlirTexture3D_set_data D self offset data)).
Proof.
  repeat split; intros;
    unfold GlirTexture_delete, GlirTexture_set_wrapping,
      GlirTexture_set_interpolation, GlirTexture_activate,
      GlirTexture_deactivate, GlirTexture2D_set_size, GlirTexture2D_set_data,
      GlirTexture3D_set_size, GlirTexture3D_set_data, glTexImage3D_wrapper,
      glTexSubImage3D_wrapper, _check_pyopengl_3D, get_self_dtype;
    preserves_auto.
Qed.

#[local] Hint Resolve preserves_buffer_methods preserves_texture_methods : core.

Lemma preserves_use_this_program self : preserves I (use_this_program self).
Proof. unfold use_this_program, builtin_id_ne. preserves_auto. Qed.
#[local] Hint Resolve preserves_use_this_program : preserves.

Lemma preserves_GlirProgram_activate (callback : nat → M unit) self :
  (∀ r, preserves I (callback r)) →
  preserves I (GlirProgram_activate D callback self).
Proof. intros Hcb. unfold GlirProgram_activate. preserves_auto. Qed.

Lemma preserves_activate depth self : preserves I (activate D depth self).
Proof.
  revert self. induction depth as [|depth IH]; intros self; simpl.
  - apply preserves_raise.
  - preserves_auto; try apply preserves_buffer_methods;
      try apply preserves_texture_methods.
    by apply preserves_GlirProgram_activate.
Qed.

Lemma preserves_deactivate self : preserves I (deactivate self).
Proof.
  unfold deactivate, GlirProgram_deactivate.
  preserves_auto; try apply preserves_buffer_methods;
    apply preserves_texture_methods.
Qed.

Lemma preserves_delete self : preserves I (delete self).
Proof.
  unfold delete, GlirProgram_delete.
  preserves_auto; try apply preserves_buffer_methods;
    apply preserves_texture_methods.
Qed.
#[local] Hint Resolve preserves_activate preserves_deactivate preserves_delete
  : preserves.

Lemma preserves_collect_active func handle indices container :
  preserves I (collect_active D func handle indices container).
Proof.
  revert container. induction indices as [|i rest IH]; intros container; simpl.
  - apply preserves_ret.
  - preserves_auto.
Qed.
#[local] Hint Resolve preserves_collect_active : preserves.

Lemma preserves_set_shaders self vert frag :
  preserves I (GlirProgram_set_shaders D self vert frag).
Proof.
  unfold GlirProgram_set_shaders, compile_stage,
    _get_active_attributes_and_uniforms.
  preserves_auto.
Qed.

Lemma preserves_resolve_handle self name query warning :
  preserves I (resolve_handle D self name query warning).
Proof. unfold resolve_handle. preserves_auto. Qed.
#[local] Hint Resolve preserves_resolve_handle : preserves.

Lemma preserves_set_uniform self name type value :
  preserves I (GlirProgram_set_uniform D self name type value).
Proof. unfold GlirProgram_set_uniform. preserves_auto. Qed.

Lemma preserves_set_attribute self name type value :
  preserves I (GlirProgram_set_attribute D self name type value).
Proof. unfold GlirProgram_set_attribute. preserves_auto. Qed.

Lemma preserves_draw self mode selection :
  preserves I (GlirProgram_draw D self mode selection).
Proof.
  unfold GlirProgram_draw, GlirProgram_deactivate. preserves_auto.
  apply preserves_GlirProgram_activate. intros r. apply preserves_activate.
Qed.

(** Every method a command can reach keeps the invariant. *)
Lemma preserves_calls ob args :
  preserves I (call_set_size D ob args) ∧
  preserves I (call_set_data D ob args) ∧
  preserves I (call_set_shaders D ob args) ∧
  preserves I (call_set_uniform D ob args) ∧
  preserves I (call_set_attribute D ob args) ∧
  preserves I (call_draw D ob args) ∧
  preserves I (call_set_wrapping ob args) ∧
  preserves I (call_set_interpolation ob args).
Proof.
  pose proof preserves_set_shaders. pose proof preserves_set_uniform.
  pose proof preserves_set_attribute. pose proof preserves_draw.
  repeat split;
    unfold call_set_size, call_set_data, call_set_shaders, call_set_uniform,
      call_set_attribute, call_draw, call_set_wrapping, call_set_interpolation;
    preserves_auto; try done;
    try apply preserves_buffer_methods; apply preserves_texture_methods.
Qed.

Lemma preserves_call_set ob args : preserves I (call_set D ob args).
Proof.
  unfold call_set. preserves_auto; apply preserves_calls.
Qed.

Lemma preserves_construct k : preserves I (construct D k).
Proof.
  intros w HI. rewrite construct_eq. simpl.
  assert (I (after_creation k w)) as HI'.
  { apply I_record_call. destruct k; try done.
    by apply (I_set_current_program (CP_int 0)). }
  destruct k;
    match goal with
    | |- I (set_heap (_ ++ [?o]) ?w') =>
        change (I (alloc o w').2); by apply I_alloc
    end.
Qed.

(** A command keeps the invariant as soon as registering an object under
    its handle does. *)
Lemma preserves_parse_command c :
  (cmd c = "CREATE" → ∀ r, preserves I (register (id c) r)) →
  preserves I (parse_command D c).
Proof.
  intros Hreg. unfold parse_command.
  pose proof preserves_construct. pose proof preserves_call_set.
  case_bool_decide as Hcreate.
  { specialize (Hreg Hcreate). preserves_auto; done. }
  preserves_auto; try done; apply preserves_calls.
Qed.

Lemma preserves_parse cs :
  (∀ c, c ∈ cs → cmd c = "CREATE" → ∀ r, preserves I (register (id c) r)) →
  preserves I (parse D cs).
Proof.
  unfold parse. induction cs as [|c cs IH]; intros Hreg; simpl.
  - apply preserves_ret.
  - apply preserves_bind.
    + apply preserves_parse_command. apply Hreg. left.
    + intros _. apply IH. intros c' Hc'. apply Hreg. by right.
Qed.

End Invariant.

(** ** Sampler units stay pairwise distinct *)

Lemma samplers_distinct_heap (w w' : world) :
  heap w' = heap w → samplers_distinct w → samplers_distinct w'.
Proof. intros Hheap HI r p. rewrite Hheap. apply HI. Qed.

Lemma samplers_distinct_store (w : world) (self : nat) (o : GlirObject) :
  samplers_distinct w →
  (∀ p, o = Program p → NoDup (sampler_units p)) →
  samplers_distinct (set_heap (<[self := o]> (heap w)) w).
Proof.
  intros HI Ho r p Hr. simpl in Hr.
  apply list_lookup_insert_Some in Hr as [(_ & Heq & _)|(_ & Hr)].
  - by apply Ho.
  - by eapply HI.
Qed.

Lemma samplers_distinct_update_program (self : nat) (f : GlirProgram → GlirProgram) :
  (∀ p, NoDup (sampler_units p) → NoDup (sampler_units (f p))) →
  preserves samplers_distinct (update_program self f).
Proof.
  intros Hf w HI. unfold update_program, bind, load.
  destruct (heap w !! self) as [o|] eqn:Hself; [|done].
  destruct o; try done. simpl.
  apply samplers_distinct_store; [done|].
  intros p' [= <-]. apply Hf. by eapply HI.
Qed.

Lemma dict_pop_units (name : string) (d : list (string * (nat * Z))) :
  NoDup (map (λ s, s.2) (dict_values d)) →
  NoDup (map (λ s, s.2) (dict_values (dict_pop name d))).
Proof.
  intros Hnd. eapply sublist_NoDup; [exact Hnd|].
  unfold dict_values, dict_pop.
  apply (fmap_sublist (λ s : nat * Z, s.2)), (fmap_sublist snd), sublist_filter.
Qed.

Lemma dict_set_units_elem (name : string) (v : nat * Z) (d : list (string * (nat * Z))) :
  ∀ x, x ∈ map (λ s, s.2) (dict_values (dict_set name v d)) →
       x = v.2 ∨ x ∈ map (λ s, s.2) (dict_values d).
Proof.
  induction d as [|[k' v'] d IH]; intros x Hx; simpl in *.
  - apply list_elem_of_singleton in Hx. by left.
  - case_bool_decide; simpl in Hx; apply elem_of_cons in Hx as [->|Hx].
    + by left.
    + right; by right.
    + right; left.
    + destruct (IH x Hx); [by left | right; by right].
Qed.

Lemma dict_set_units (name : string) (v : nat * Z) (d : list (string * (nat * Z))) :
  NoDup (map (λ s, s.2) (dict_values d)) →
  v.2 ∉ map (λ s, s.2) (dict_values d) →
  NoDup (map (λ s, s.2) (dict_values (dict_set name v d))).
Proof.
  induction d as [|[k' v'] d IH]; intros Hnd Hfresh; simpl in *.
  - apply NoDup_singleton.
  - apply NoDup_cons in Hnd as [Hv' Hnd].
    apply not_elem_of_cons in Hfresh as [Hne Hfresh].
    case_bool_decide; simpl; apply NoDup_cons.
    + done.
    + split; [|by apply IH].
      intros Hin. apply dict_set_units_elem in Hin as [Heq|Hin]; [congruence|done].
Qed.

Section SamplersDistinct.
Context (D : driver) (pop_ok : set_pop_ok D).

Lemma samplers_distinct_parse (cs : list command) :
  preserves samplers_distinct (parse D cs).
Proof.
  apply preserves_parse.
  - intros c w. by apply samplers_distinct_heap.
  - intros o w. by apply samplers_distinct_heap.
  - intros c w. by apply samplers_distinct_heap.
  - intros self f w HI. unfold update_buffer, bind, load.
    destruct (heap w !! self) as [o|]; [|done].
    destruct o; try done; simpl; by apply samplers_distinct_store.
  - intros self f w HI. unfold update_texture, bind, load.
    destruct (heap w !! self) as [o|]; [|done].
    destruct o; try done; simpl; by apply samplers_distinct_store.
  - intros self f Hf. apply samplers_distinct_update_program.
    intros p. unfold sampler_units. by rewrite Hf.
  - intros self name tex handle. apply preserves_rebind_stepwise.
    + intros c w. by apply samplers_distinct_heap.
    + apply samplers_distinct_update_program.
      intros p. apply dict_pop_units.
    + intros unit w p HI Hself Hunit.
      destruct (free_unit_fresh D pop_ok (sampler_units p) w) as (u & Hu & Hfresh & _).
      rewrite Hu in Hunit. injection Hunit as ->.
      unfold update_program, bind, load. rewrite Hself. simpl.
      apply samplers_distinct_store; [done|].
      intros p' [= <-]. apply dict_set_units; [by eapply HI | done].
  - intros o Ho w HI r p Hr. simpl in Hr.
    apply lookup_snoc_Some in Hr as [[_ Hr]|[_ ->]]; [by eapply HI|].
    simpl in Ho. unfold sampler_units. rewrite Ho. constructor.
  - intros i w. by apply samplers_distinct_heap.
  - intros c _ _ r w. by apply samplers_distinct_heap.
Qed.

End SamplersDistinct.

(** ** Running the monad step by step *)

Lemma bind_ok {A B} (m : M A) (k : A → M B) (w w1 : world) (a : A) :
  m w = (Ok a, w1) → bind m k w = k a w1.
Proof. intros H. unfold bind. by rewrite H. Qed.

Lemma bind_raise {A B} (m : M A) (k : A → M B) (w w1 : world) (e : exception) :
  m w = (Raise e, w1) → bind m k w = (Raise e, w1).
Proof. intros H. unfold bind. by rewrite H. Qed.

Lemma load_program_eq (w : world) (self : nat) (p : GlirProgram) :
  heap w !! self = Some (Program p) → load_program self w = (Ok p, w).
Proof. intros H. unfold load_program, bind, load. by rewrite H. Qed.

Lemma update_program_eq (w : world) (self : nat) (p : GlirProgram)
    (f : GlirProgram → GlirProgram) :
  heap w !! self = Some (Program p) →
  update_program self f w =
    (Ok tt, set_heap (<[self := Program (f p)]> (heap w)) w).
Proof. intros H. unfold update_program, bind, load. by rewrite H. Qed.

Lemma lookup_stored (w : world) (self : nat) (o o' : GlirObject) :
  heap w !! self = Some o →
  heap (set_heap (<[self := o']> (heap w)) w) !! self = Some o'.
Proof.
  intros H. simpl. apply list_lookup_insert_eq. by eapply lookup_lt_Some.
Qed.

(** [use_this_program] touches the current-program slot and the trace only. *)
Lemma use_this_program_run (w : world) (self : nat) (p : GlirProgram) :
  heap w !! self = Some (Program p) → _current_program w ≠ CP_absent →
  ∃ w1, use_this_program self w = (Ok tt, w1) ∧ heap w1 = heap w ∧
        _objects w1 = _objects w ∧ _current_program w1 = CP_builtin_id ∧
        gl_trace w1 =
          (gl_trace w ++ if bool_decide (_current_program w = CP_builtin_id)
                         then [] else [glUseProgram (p_handle p)])%list.
Proof.
  intros Hself Hcp. unfold use_this_program, bind, get_world, builtin_id_ne.
  destruct (_current_program w) eqn:Hc; [done| |]; simpl.
  - unfold load_program, bind, load. simpl. rewrite Hself. simpl.
    eexists. split; [done|]. by simpl.
  - exists w. rewrite app_nil_r. by rewrite Hc.
Qed.

Lemma resolve_handle_cached (D : driver) (w : world) (self : nat) (p : GlirProgram)
    (name : string) (location : Z) query warning :
  heap w !! self = Some (Program p) →
  _handles p !! name = Some location → 0 ≤ location →
  resolve_handle D self name query warning w = (Ok (Some location), w).
Proof.
  intros Hself Hloc Hpos. unfold resolve_handle.
  erewrite bind_ok by by apply load_program_eq.
  cbv zeta. rewrite Hloc. simpl.
  by rewrite bool_decide_eq_false_2 by lia.
Qed.

(** The common prologue of [set_uniform] and [set_attribute] on a variable
    the program has: the location is the cached one, or the one the
    driver answers. *)
Lemma resolve_handle_active (D : driver) (w : world) (self : nat)
    (p : GlirProgram) (name : string) (query : Z → string → glcall)
    (warning : output) :
  heap w !! self = Some (Program p) →
  0 ≤ location_of D w p name query →
  resolve_handle D self name query warning w =
    (Ok (Some (location_of D w p name query)),
     (located D w self p name query).2).
Proof.
  intros Hself Hloc. unfold resolve_handle, location_of, located in *.
  erewrite bind_ok by by apply load_program_eq.
  cbv zeta.
  destruct (_handles p !! name) as [l|] eqn:Hcached; simpl.
  - case_bool_decide as Hl.
    + by rewrite !bool_decide_eq_false_2 by lia.
    + rewrite bool_decide_eq_true_2 by lia.
      unfold bind at 1, gl_call_int at 1.
      erewrite bind_ok by by apply update_program_eq.
      erewrite bind_ok by (apply update_program_eq; by eapply lookup_stored).
      rewrite bool_decide_eq_false_2 by lia.
      unfold ret. simpl. by rewrite list_insert_insert_eq.
  - unfold bind at 1, gl_call_int at 1.
    erewrite bind_ok by by apply update_program_eq.
    erewrite bind_ok by (apply update_program_eq; by eapply lookup_stored).
    rewrite bool_decide_eq_false_2 by lia.
    unfold ret. simpl. by rewrite list_insert_insert_eq.
Qed.

(** What finding the location leaves of the program and of the state. *)
Lemma located_facts (D : driver) (w : world) (self : nat) (p : GlirProgram)
    (name : string) (query : Z → string → glcall) :
  heap w !! self = Some (Program p) →
  let p' := (located D w self p name query).1 in
  let w1 := (located D w self p name query).2 in
  heap w1 = <[self := Program p']> (heap w) ∧
  heap w1 !! self = Some (Program p') ∧
  _samplers p' = _samplers p ∧ _buffers p' = _buffers p ∧
  _validated p' = _validated p ∧ p_handle p' = p_handle p ∧
  _objects w1 = _objects w ∧ _current_program w1 = _current_program w ∧
  stdout w1 = stdout w ∧
  (0 ≤ location_of D w p name query →
   _handles p' !! name = Some (location_of D w p name query)) ∧
  gl_trace w1 =
    (gl_trace w ++ if bool_decide (default (-1) (_handles p !! name) < 0)
                   then [query (p_handle p) name] else [])%list.
Proof.
  intros Hself. unfold located, location_of. case_bool_decide as Hc; simpl.
  - repeat split; try done.
    + apply list_lookup_insert_eq. by eapply lookup_lt_Some.
    + intros _. rewrite lookup_insert_eq.
      destruct (_handles p !! name) as [l|]; simpl in *; [|done].
      by rewrite bool_decide_eq_false_2 by lia.
  - repeat split; try done.
    + by rewrite list_insert_id.
    + intros _. destruct (_handles p !! name) as [l|]; simpl in *; [|lia].
      by rewrite bool_decide_eq_true_2 by lia.
    + by rewrite app_nil_r.
Qed.

(** ** Dictionaries kept as association lists *)

Lemma dict_get_set {V} (k : string) (v : V) (d : list (string * V)) :
  dict_get k (dict_set k v d) = Some v.
Proof.
  unfold dict_get. induction d as [|[k' v'] d IH]; simpl.
  - by rewrite bool_decide_eq_true_2.
  - case_bool_decide as Hk; simpl.
    + by rewrite bool_decide_eq_true_2.
    + by rewrite bool_decide_eq_false_2.
Qed.

Lemma dict_get_set_ne {V} (k k' : string) (v : V) (d : list (string * V)) :
  k ≠ k' → dict_get k' (dict_set k v d) = dict_get k' d.
Proof.
  intros Hne. unfold dict_get. induction d as [|[k0 v0] d IH]; simpl.
  - by rewrite bool_decide_eq_false_2.
  - case_bool_decide as Hk; simpl.
    + subst k0. by rewrite !bool_decide_eq_false_2.
    + case_bool_decide; [done|]. apply IH.
Qed.

Lemma dict_get_pop {V} (k : string) (d : list (string * V)) :
  dict_get k (dict_pop k d) = None.
Proof.
  unfold dict_get, dict_pop. induction d as [|[k' v'] d IH]; [done|].
  rewrite filter_cons. simpl. case_decide as Hk; simpl.
  - by rewrite bool_decide_eq_false_2.
  - done.
Qed.

Lemma dict_get_pop_ne {V} (k k' : string) (d : list (string * V)) :
  k ≠ k' → dict_get k' (dict_pop k d) = dict_get k' d.
Proof.
  intros Hne. unfold dict_get, dict_pop. induction d as [|[k0 v0] d IH]; [done|].
  rewrite filter_cons. simpl. case_decide as Hk; simpl.
  - case_bool_decide; [done|]. apply IH.
  - subst k0. by rewrite bool_decide_eq_false_2.
Qed.


(** ** Dictionaries with one entry per key *)

Lemma dict_get_None {V} (k : string) (d : list (string * V)) :
  dict_get k d = None ↔ k ∉ map fst d.
Proof.
  unfold dict_get. induction d as [|[k' v'] d IH]; simpl.
  - split; [intros _; apply not_elem_of_nil | done].
  - case_bool_decide as Hk; simpl.
    + split; [done|]. intros Hn. exfalso. apply Hn. subst. left.
    + rewrite IH, not_elem_of_cons. simpl in Hk. split; [by split | by intros [_ ?]].
Qed.

Lemma dict_get_elem {V} (k : string) (v : V) (d : list (string * V)) :
  dict_get k d = Some v → (k, v) ∈ d.
Proof.
  unfold dict_get. induction d as [|[k' v'] d IH]; simpl; [done|].
  case_bool_decide as Hk; simpl.
  - intros [= <-]. simpl in Hk. subst. left.
  - intros H. right. by apply IH.
Qed.

Lemma dict_pop_absent {V} (k : string) (d : list (string * V)) :
  k ∉ map fst d → dict_pop k d = d.
Proof.
  unfold dict_pop. induction d as [|[k' v'] d IH]; [done|]. simpl.
  intros [Hne Hd]%not_elem_of_cons.
  rewrite filter_cons. simpl. case_decide; [|congruence]. by rewrite IH.
Qed.

Lemma dict_pop_names {V} (k : string) (d : list (string * V)) :
  k ∉ map fst (dict_pop k d).
Proof.
  unfold dict_pop. intros Hin. apply list_elem_of_fmap in Hin as ([k' v'] & -> & Hin).
  apply list_elem_of_filter in Hin as [Hne _]. by simpl in Hne.
Qed.

Lemma dict_pop_sublist {V} (k : string) (d : list (string * V)) :
  map fst (dict_pop k d) `sublist_of` map fst d.
Proof. apply (fmap_sublist fst), sublist_filter. Qed.

Lemma dict_pop_perm {V} (k : string) (v : V) (d : list (string * V)) :
  NoDup (map fst d) → dict_get k d = Some v → d ≡ₚ (k, v) :: dict_pop k d.
Proof.
  unfold dict_get, dict_pop. induction d as [|[k' v'] d IH]; [done|].
  simpl. intros [Hk' Hnd]%NoDup_cons. rewrite filter_cons. simpl.
  case_bool_decide as Hk; simpl.
  - intros [= <-]. subst k'. case_decide; [done|].
    fold (dict_pop k d). by rewrite dict_pop_absent.
  - intros Hget. case_decide; [|congruence].
    rewrite (IH Hnd Hget) at 1. apply Permutation_swap.
Qed.

Lemma dict_set_absent {V} (k : string) (v : V) (d : list (string * V)) :
  k ∉ map fst d → dict_set k v d = (d ++ [(k, v)])%list.
Proof.
  induction d as [|[k' v'] d IH]; [done|]. simpl.
  intros [Hne Hd]%not_elem_of_cons.
  rewrite bool_decide_eq_false_2 by congruence. by rewrite IH.
Qed.

Lemma other_units_pop (name : string) (p : GlirProgram) :
  other_units name p =
    map (λ s : nat * Z, s.2) (dict_values (dict_pop name (_samplers p))).
Proof.
  unfold other_units, dict_values, dict_pop.
  induction (_samplers p) as [|[k v] d IH]; [done|].
  rewrite filter_cons. simpl. case_bool_decide as Hk; simpl.
  - case_decide; [congruence|]. apply IH.
  - case_decide; [|congruence]. simpl. by rewrite IH.
Qed.

(** ** Sampler units are exactly 1, ..., n *)

Lemma samplers_packed_heap (w w' : world) :
  heap w' = heap w → samplers_packed w → samplers_packed w'.
Proof. intros Hheap HI r p. rewrite Hheap. apply HI. Qed.

Lemma samplers_packed_store (w : world) (self : nat) (o : GlirObject) :
  samplers_packed w →
  (∀ p, o = Program p → packed p) →
  samplers_packed (set_heap (<[self := o]> (heap w)) w).
Proof.
  intros HI Ho r p Hr. simpl in Hr.
  apply list_lookup_insert_Some in Hr as [(_ & Heq & _)|(_ & Hr)].
  - by apply Ho.
  - by eapply HI.
Qed.

Lemma packed_distinct (w : world) : samplers_packed w → samplers_distinct w.
Proof.
  intros HI r p Hr. destruct (HI r p Hr) as [_ Hperm].
  rewrite Hperm. apply NoDup_seqZ.
Qed.

Section SamplersPacked.
Context (D : driver) (pop_ok : set_pop_ok D).

(** Taking the entry of [name] out of a packed map leaves the units
    1, ..., n with one unit missing: the unit of [name], or the one after
    the last when [name] had none. *)
Lemma pop_leaves_hole (d : list (string * (nat * Z))) (name : string) :
  NoDup (map fst d) →
  map (λ s : nat * Z, s.2) (dict_values d) ≡ₚ seqZ 1 (Z.of_nat (List.length d)) →
  let k := match dict_get name d with
           | Some old => old.2
           | None => Z.of_nat (List.length d) + 1
           end in
  let n := match dict_get name d with
           | Some _ => Z.of_nat (List.length d)
           | None => Z.of_nat (List.length d) + 1
           end in
  let units := map (λ s : nat * Z, s.2) (dict_values (dict_pop name d)) in
  1 ≤ k ≤ n ∧ NoDup units ∧ (∀ x, x ∈ units ↔ 1 ≤ x ≤ n ∧ x ≠ k) ∧
  (k :: units ≡ₚ seqZ 1 n).
Proof.
  intros Hnd Hperm. simpl.
  destruct (dict_get name d) as [[t0 k]|] eqn:Hget; simpl.
  - pose proof (dict_pop_perm name (t0, k) d Hnd Hget) as Hd.
    assert (k :: map (λ s : nat * Z, s.2) (dict_values (dict_pop name d))
            ≡ₚ seqZ 1 (Z.of_nat (List.length d))) as Hk.
    { rewrite <- Hperm. unfold dict_values. rewrite Hd at 2. by simpl. }
    assert (NoDup (k :: map (λ s : nat * Z, s.2) (dict_values (dict_pop name d))))
      as [Hfresh Hnd']%NoDup_cons by (rewrite Hk; apply NoDup_seqZ).
    assert (∀ x, x ∈ k :: map (λ s : nat * Z, s.2) (dict_values (dict_pop name d))
                 ↔ 1 ≤ x ≤ Z.of_nat (List.length d)) as Hmem.
    { intros x. rewrite Hk, elem_of_seqZ. lia. }
    split; [apply Hmem; left|]. split; [done|]. split; [|done].
    intros x. split.
    + intros Hx. split; [apply Hmem; by right|]. by intros ->.
    + intros [Hx Hne]. apply Hmem in Hx.
      apply elem_of_cons in Hx as [->|Hx]; done.
  - apply dict_get_None in Hget. rewrite (dict_pop_absent _ _ Hget).
    split; [lia|]. split; [rewrite Hperm; apply NoDup_seqZ|]. split.
    + intros x. rewrite Hperm, elem_of_seqZ. lia.
    + rewrite Hperm.
      replace (Z.of_nat (List.length d) + 1) with (Z.of_nat (List.length d) + 1)
        by done.
      rewrite (seqZ_app 1 (Z.of_nat (List.length d)) 1) by lia.
      change (seqZ (1 + Z.of_nat (List.length d)) 1)
        with [1 + Z.of_nat (List.length d)].
      rewrite <- Permutation_cons_append.
      by replace (1 + Z.of_nat (List.length d)) with (Z.of_nat (List.length d) + 1) by lia.
Qed.

(** Binding [name] anew in a packed map: the unit drawn is the one [name]
    had, or the one after the last; the map stays packed. *)
Lemma rebind_units (d : list (string * (nat * Z))) (name : string) (tex : nat)
    (w : world) :
  NoDup (map fst d) →
  map (λ s : nat * Z, s.2) (dict_values d) ≡ₚ seqZ 1 (Z.of_nat (List.length d)) →
  let unit := match dict_get name d with
              | Some old => old.2
              | None => Z.of_nat (List.length d) + 1
              end in
  let d' := dict_set name (tex, unit) (dict_pop name d) in
  _get_free_unit D (map (λ s : nat * Z, s.2) (dict_values (dict_pop name d))) w
    = (Ok unit, w) ∧
  NoDup (map fst d') ∧
  map (λ s : nat * Z, s.2) (dict_values d') ≡ₚ seqZ 1 (Z.of_nat (List.length d')).
Proof.
  intros Hnd Hperm.
  destruct (pop_leaves_hole d name Hnd Hperm) as (Hk & Hndu & Hmem & Hall).
  cbv zeta in *.
  set (k := match dict_get name d with
            | Some old => old.2
            | None => Z.of_nat (List.length d) + 1
            end) in *.
  set (n := match dict_get name d with
            | Some _ => Z.of_nat (List.length d)
            | None => Z.of_nat (List.length d) + 1
            end) in *.
  split; [by apply (free_unit_fills_hole D pop_ok _ n k)|].
  rewrite (dict_set_absent name (tex, k) (dict_pop name d))
    by apply dict_pop_names.
  split.
  - rewrite map_app. simpl. apply NoDup_app. split; [|split].
    + eapply sublist_NoDup; [exact Hnd | apply dict_pop_sublist].
    + intros x Hx Hx'. apply list_elem_of_singleton in Hx'. subst x.
      by apply dict_pop_names in Hx.
    + apply NoDup_singleton.
  - unfold dict_values. rewrite !map_app. simpl.
    rewrite <- Permutation_cons_append.
    fold (dict_values (dict_pop name d)). rewrite Hall.
    apply Permutation_length in Hall. simpl in Hall.
    rewrite length_seqZ, !length_map in Hall.
    unfold dict_values in Hall. rewrite length_map in Hall.
    rewrite length_app. simpl. clearbody n k.
    by replace (Z.of_nat (List.length (dict_pop name d) + 1)) with n by lia.
Qed.

(** Re-binding a sampler keeps every program packed. *)
Lemma rebind_packed (self : nat) (name : string) (tex : nat) (handle : Z) :
  preserves samplers_packed
    (update_program self (λ p, set_samplers (dict_pop name (_samplers p)) p) ;;;
     let! p := load_program self in
     let! unit := _get_free_unit D (map (λ s, s.2) (dict_values (_samplers p))) in
     update_program self
       (λ p, set_samplers (dict_set name (tex, unit) (_samplers p)) p) ;;;
     gl_call (glUniform1i handle unit)).
Proof.
  intros w HI.
  destruct (heap w !! self) as [o|] eqn:Hself;
    [|unfold bind at 1, update_program, bind, load; by rewrite Hself].
  destruct o as [b|b|p|t|t];
    try (unfold bind at 1, update_program, bind, load; by rewrite Hself).
  destruct (HI self p Hself) as [Hnd Hperm].
  erewrite bind_ok by by apply update_program_eq.
  erewrite bind_ok by (apply load_program_eq; by eapply lookup_stored).
  simpl _samplers.
  destruct (rebind_units (_samplers p) name tex
              (set_heap (<[self := Program
                                     (set_samplers (dict_pop name (_samplers p)) p)]>
                           (heap w)) w) Hnd Hperm)
    as (Hunit & Hnd' & Hperm').
  erewrite bind_ok by exact Hunit.
  erewrite bind_ok by (apply update_program_eq; by eapply lookup_stored).
  unfold gl_call. simpl. rewrite list_insert_insert_eq.
  intros r p' Hr. simpl in Hr.
  apply list_lookup_insert_Some in Hr as [(_ & [= <-] & _)|(_ & Hr)].
  - by split.
  - by eapply HI.
Qed.

Lemma samplers_packed_parse (cs : list command) :
  preserves samplers_packed (parse D cs).
Proof.
  apply preserves_parse.
  - intros c w. by apply samplers_packed_heap.
  - intros o w. by apply samplers_packed_heap.
  - intros c w. by apply samplers_packed_heap.
  - intros self f w HI. unfold update_buffer, bind, load.
    destruct (heap w !! self) as [o|]; [|done].
    destruct o; try done; simpl; by apply samplers_packed_store.
  - intros self f w HI. unfold update_texture, bind, load.
    destruct (heap w !! self) as [o|]; [|done].
    destruct o; try done; simpl; by apply samplers_packed_store.
  - intros self f Hf w HI. unfold update_program, bind, load.
    destruct (heap w !! self) as [o|] eqn:Hself; [|done].
    destruct o; try done. simpl.
    apply samplers_packed_store; [done|].
    intros p' [= <-]. unfold packed, sampler_names, sampler_units.
    rewrite Hf. by eapply HI.
  - apply rebind_packed.
  - intros o Ho w HI r p Hr. simpl in Hr.
    apply lookup_snoc_Some in Hr as [[_ Hr]|[_ ->]]; [by eapply HI|].
    simpl in Ho. unfold packed, sampler_names, sampler_units.
    rewrite Ho. split; [constructor | done].
  - intros i w. by apply samplers_packed_heap.
  - intros c _ _ r w. by apply samplers_packed_heap.
Qed.

(** Setting a sampler uniform the program has: the entry of that name is
    removed, a unit is drawn for the units of the other names, and the
    name is recorded with the texture and that unit, which is also what
    reaches [gl]. *)
Lemma set_uniform_sampler (w : world) (self : nat) (p : GlirProgram)
    (name type : string) (i : Z) (tex : nat) :
  heap w !! self = Some (Program p) →
  0 ≤ location_of D w p name glGetUniformLocation →
  type = "sampler2D" ∨ type = "sampler3D" →
  _objects w !! i = Some tex →
  _current_program w ≠ CP_absent →
  ∃ unit w',
    GlirProgram_set_uniform D self name (PStr type) (PInt i) w = (Ok tt, w') ∧
    _get_free_unit D (other_units name p) w = (Ok unit, w) ∧
    (unit ∉ other_units name p) ∧
    heap w' =
      <[self := Program
                  (set_samplers
                     (dict_set name (tex, unit) (dict_pop name (_samplers p)))
                     (located D w self p name glGetUniformLocation).1)]> (heap w) ∧
    last (gl_trace w') =
      Some (glUniform1i (location_of D w p name glGetUniformLocation) unit).
Proof.
  intros Hself Hloc Htype Hobj Hcp.
  destruct (located_facts D w self p name glGetUniformLocation Hself)
    as (Hheap0 & Hself0 & Hsam0 & _ & _ & _ & Hobj0 & Hcp0 & _ & _ & _).
  set (p0 := (located D w self p name glGetUniformLocation).1) in *.
  set (w0 := (located D w self p name glGetUniformLocation).2) in *.
  assert (_current_program w0 ≠ CP_absent) as Hcp' by by rewrite Hcp0.
  destruct (use_this_program_run w0 self p0 Hself0 Hcp')
    as (w1 & Huse & Hheap1 & Hobj1 & _ & _).
  set (p1 := set_samplers (dict_pop name (_samplers p0)) p0).
  set (w2 := set_heap (<[self := Program p1]> (heap w1)) w1).
  assert (heap w1 !! self = Some (Program p0)) as Hself1 by by rewrite Hheap1.
  assert (heap w2 !! self = Some (Program p1)) as Hself2
    by by eapply lookup_stored.
  destruct (free_unit_fresh D pop_ok (map (λ s, s.2) (dict_values (_samplers p1))) w2)
    as (unit & Hunit & Hfresh & _).
  assert (map (λ s : nat * Z, s.2) (dict_values (_samplers p1)) = other_units name p)
    as Hothers by (rewrite other_units_pop; simpl; by rewrite Hsam0).
  exists unit. eexists. split; [|split; [|split; [|split]]].
  - assert (subscript UTYPEMAP (PStr type) w0 = (Ok "glUniform1i", w0)) as Hsub
      by by destruct Htype as [-> | ->].
    assert (startswith "mat" (PStr type) = false) as Hmat
      by by destruct Htype as [-> | ->].
    assert (startswith "sampler" (PStr type) = true) as Hsampler
      by by destruct Htype as [-> | ->].
    assert (get_object (PInt i) w1 = (Ok (Some tex), w1)) as Hget
      by (unfold get_object, bind, get_world; by rewrite Hobj1, Hobj0, Hobj).
    unfold GlirProgram_set_uniform.
    erewrite bind_ok by by apply resolve_handle_active.
    cbv beta iota. fold w0. erewrite bind_ok by exact Hsub.
    erewrite bind_ok by exact Huse.
    rewrite Hmat, Hsampler.
    erewrite bind_ok by exact Hget.
    cbv beta iota. erewrite bind_ok by by apply update_program_eq.
    erewrite bind_ok by by apply load_program_eq.
    erewrite bind_ok by exact Hunit.
    erewrite bind_ok by by apply update_program_eq.
    reflexivity.
  - rewrite <- Hothers. by eapply free_unit_any_world.
  - by rewrite <- Hothers.
  - simpl. rewrite list_insert_insert_eq, Hheap1, Hheap0, list_insert_insert_eq.
    by rewrite Hsam0.
  - simpl. by rewrite last_snoc.
Qed.

End SamplersPacked.

Lemma plain_driver_pop_ok : set_pop_ok plain_driver.
Proof.
  intros s. simpl. destruct (elements s) as [|x l] eqn:E; simpl.
  - by apply elements_empty_inv in E; apply leibniz_equiv in E.
  - apply elem_of_elements. rewrite E. left.
Defined.

(** C8: the texture units recorded in a program's sampler map are pairwise
    distinct at every point: they are in the initial state and every
    command list keeps them so however it ends.  More is kept: each
    sampler name is recorded once and the units are exactly 1, ..., n.
    [set_uniform] on a sampler name the program has, be its location
    cached or asked of the driver, records the texture under that name
    alone and leaves the other names as they were; the unit it records is
    the one [_get_free_unit] draws for the units of the other names, the
    name's own previous unit being released first: no other sampler of
    the program holds it, and in a packed map it is the unit the name had
    before, or the one after the last for a new name.  That unit is what
    the uniform is set to. *)
Theorem sampler_units_pairwise_distinct (D : driver) (pop_ok : set_pop_ok D) :
  samplers_distinct initial_world ∧
  (∀ cs w, samplers_distinct w → samplers_distinct (parse D cs w).2) ∧
  samplers_packed initial_world ∧
  (∀ cs w, samplers_packed w → samplers_packed (parse D cs w).2) ∧
  (∀ w, samplers_packed w → samplers_distinct w) ∧
  (∀ w self p name type i tex,
     heap w !! self = Some (Program p) →
     0 ≤ location_of D w p name glGetUniformLocation →
     type = "sampler2D" ∨ type = "sampler3D" →
     _objects w !! i = Some tex →
     _current_program w ≠ CP_absent →
     ∃ unit w' p',
       GlirProgram_set_uniform D self name (PStr type) (PInt i) w = (Ok tt, w') ∧
       heap w' = <[self := Program p']> (heap w) ∧
       dict_get name (_samplers p') = Some (tex, unit) ∧
       (∀ other, other ≠ name →
                 dict_get other (_samplers p') = dict_get other (_samplers p)) ∧
       _get_free_unit D (other_units name p) w = (Ok unit, w) ∧
       (unit ∉ other_units name p) ∧
       (packed p →
        unit = match dict_get name (_samplers p) with
               | Some old => old.2
               | None => Z.of_nat (List.length (_samplers p)) + 1
               end) ∧
       last (gl_trace w') =
         Some (glUniform1i (location_of D w p name glGetUniformLocation) unit)).
Proof.
  split; [|split; [|split; [|split; [|split]]]].
  - intros r p Hr. by destruct r.
  - intros cs w. by apply samplers_distinct_parse.
  - intros r p Hr. by destruct r.
  - intros cs w. by apply samplers_packed_parse.
  - apply packed_distinct.
  - intros w self p name type i tex Hself Hloc Htype Hobj Hcp.
    destruct (set_uniform_sampler D pop_ok w self p name type i tex
                Hself Hloc Htype Hobj Hcp)
      as (unit & w' & Hrun & Hunit & Hfresh & Hheap & Hlast).
    exists unit, w'. eexists. split; [exact Hrun|]. split; [exact Hheap|].
    split; [apply dict_get_set|]. split.
    { intros other Hne. simpl.
      by rewrite dict_get_set_ne, dict_get_pop_ne by done. }
    split; [done|]. split; [done|]. split; [|done].
    intros [Hnd Hperm].
    destruct (rebind_units D pop_ok (_samplers p) name tex w Hnd Hperm)
      as (Hunit' & _).
    rewrite <- other_units_pop, Hunit in Hunit'. by injection Hunit' as ->.
Qed.

Lemma sampler_units_pairwise_distinct_witness :
  let w := (parse plain_driver
              [CREATE 1 (PStr "PROGRAM"); CREATE 2 (PStr "Texture2D");
               CREATE 3 (PStr "Texture2D"); SHADERS 1 "v" "f";
               UNIFORM 1 "a" "sampler2D" (PInt 2); UNIFORM 1 "b" "sampler2D" (PInt 3)]
              initial_world).2 in
  samplers_distinct w ∧ samplers_packed w ∧
  (∃ w' p',
     GlirProgram_set_uniform plain_driver 0 "a" (PStr "sampler2D") (PInt 3) w
       = (Ok tt, w') ∧
     heap w' !! 0%nat = Some (Program p') ∧
     dict_get "a" (_samplers p') = Some (2%nat, 1) ∧
     dict_get "b" (_samplers p') = Some (2%nat, 2)) ∧
  (∃ w' p',
     GlirProgram_set_uniform plain_driver 0 "c" (PStr "sampler3D") (PInt 2) w
       = (Ok tt, w') ∧
     heap w' !! 0%nat = Some (Program p') ∧
     dict_get "c" (_samplers p') = Some (1%nat, 3) ∧
     dict_get "a" (_samplers p') = Some (1%nat, 1)).
Proof.
  intros w.
  destruct (sampler_units_pairwise_distinct plain_driver plain_driver_pop_ok)
    as (Hd0 & Hd & Hp0 & Hp & Hpd & Hset).
  assert (samplers_packed w) as Hpacked by apply Hp, Hp0.
  split; [apply Hd, Hd0|]. split; [exact Hpacked|].
  set (p := {| p_handle := 1; _validated := false;
               _handles := {[ "a" := 0; "b" := 0 ]};
               _unset_variables := ∅;
               _samplers := [("a", (1%nat, 1)); ("b", (2%nat, 2))];
               _buffers := [] |}).
  assert (heap w !! 0%nat = Some (Program p)) as Hself
    by (vm_compute; reflexivity).
  assert (_current_program w ≠ CP_absent) as Hcp by (vm_compute; discriminate).
  split.
  - destruct (Hset w 0%nat p "a" "sampler2D" 3 2%nat)
      as (unit & w' & p' & Hrun & Hheap & Ha & Hb & _ & _ & Hunit & _);
      [exact Hself | vm_compute; discriminate | by left
      | vm_compute; reflexivity | exact Hcp |].
    exists w', p'. split; [exact Hrun|]. split.
    { rewrite Hheap. apply list_lookup_insert_eq. by eapply lookup_lt_Some. }
    rewrite (Hunit (Hpacked 0%nat p Hself)) in Ha. split; [exact Ha|].
    rewrite (Hb "b"); [reflexivity | discriminate].
  - destruct (Hset w 0%nat p "c" "sampler3D" 2 1%nat)
      as (unit & w' & p' & Hrun & Hheap & Hc & Hb & _ & _ & Hunit & _);
      [exact Hself | vm_compute; discriminate | by right
      | vm_compute; reflexivity | exact Hcp |].
    exists w', p'. split; [exact Hrun|]. split.
    { rewrite Hheap. apply list_lookup_insert_eq. by eapply lookup_lt_Some. }
    rewrite (Hunit (Hpacked 0%nat p Hself)) in Hc. split; [exact Hc|].
    rewrite (Hb "a"); [reflexivity | discriminate].
Defined.

(** C9, as the code has it.  The call never fails and hands out a unit
    that is not occupied (and at least 1 when the occupied ones are): 1
    for the empty list; for a list with lowest unit [lo] and highest unit
    [hi], [lo - 1] when [lo] is above 1; otherwise, when the list has
    fewer entries than the span from [lo] to [hi] (for a list without
    repetitions: when some unit between them is unused), an unused unit
    strictly between them; otherwise [hi + 1].  When the occupied units
    are 1, ..., n with a single unit [k] missing, it is [k], the lowest
    unused unit from 1 on; the units [set_uniform] passes are of this kind
    in every state the parser reaches from its initial state.  The three
    documented examples hold. *)
Theorem get_free_unit_spec (D : driver) (pop_ok : set_pop_ok D) (w : world) :
  (∀ units, ∃ u, _get_free_unit D units w = (Ok u, w) ∧ (u ∉ units) ∧
                 (Forall (Z.le 1) units → 1 ≤ u)) ∧
  _get_free_unit D [] w = (Ok 1, w) ∧
  (∀ units lo hi,
     lo ∈ units → hi ∈ units → (∀ x, x ∈ units → lo ≤ x ≤ hi) →
     (1 < lo → _get_free_unit D units w = (Ok (lo - 1), w)) ∧
     (lo ≤ 1 → Z.of_nat (List.length units) < hi - lo + 1 →
      ∃ x, _get_free_unit D units w = (Ok x, w) ∧ lo < x < hi ∧ x ∉ units) ∧
     (lo ≤ 1 → hi - lo + 1 ≤ Z.of_nat (List.length units) →
      _get_free_unit D units w = (Ok (hi + 1), w)) ∧
     (NoDup units →
      (Z.of_nat (List.length units) < hi - lo + 1 ↔
       ∃ y, lo < y < hi ∧ y ∉ units))) ∧
  (∀ units n k, 1 ≤ k ≤ n → NoDup units →
                (∀ x, x ∈ units ↔ 1 ≤ x ≤ n ∧ x ≠ k) →
                _get_free_unit D units w = (Ok k, w) ∧
                (∀ y, 1 ≤ y → y ∉ units → k ≤ y)) ∧
  (∀ cs self p name,
     heap (parse D cs initial_world).2 !! self = Some (Program p) →
     ∃ n k, 1 ≤ k ≤ n ∧ NoDup (other_units name p) ∧
            (∀ x, x ∈ other_units name p ↔ 1 ≤ x ≤ n ∧ x ≠ k)) ∧
  _get_free_unit D [1; 2; 4] w = (Ok 3, w) ∧
  _get_free_unit D [2; 3] w = (Ok 1, w).
Proof.
  split; [intros; by apply free_unit_fresh|].
  split; [done|].
  split.
  { intros units lo hi Hlo Hhi Hall.
    destruct (free_unit_cases D pop_ok units lo hi w Hlo Hhi Hall)
      as (H1 & H2 & H3).
    split; [done|]. split; [done|]. split; [done|].
    intros Hnd. by apply gap_iff. }
  split.
  { intros units n k Hk Hnd Hiff.
    split; [by eapply free_unit_fills_hole|].
    intros y Hy Hny. destruct (decide (y ≤ n)) as [Hle|]; [|lia].
    destruct (decide (y = k)) as [->|Hne]; [lia|].
    exfalso. apply Hny, Hiff. lia. }
  split.
  { intros cs self p name Hself.
    assert (samplers_packed (parse D cs initial_world).2) as Hpacked.
    { apply samplers_packed_parse; [done|]. intros r q Hr. by destruct r. }
    destruct (Hpacked self p Hself) as [Hnd Hperm].
    destruct (pop_leaves_hole (_samplers p) name Hnd Hperm)
      as (Hk & Hndu & Hmem & _).
    rewrite other_units_pop. eauto. }
  split.
  - apply (free_unit_fills_hole D pop_ok _ 4 3); [lia| |].
    + by apply (bool_decide_unpack _).
    + intros x. rewrite !elem_of_cons, elem_of_nil. lia.
  - apply (free_unit_fills_hole D pop_ok _ 3 1); [lia| |].
    + by apply (bool_decide_unpack _).
    + intros x. rewrite !elem_of_cons, elem_of_nil. lia.
Qed.

Lemma get_free_unit_spec_witness :
  _get_free_unit plain_driver [1; 2; 4] initial_world = (Ok 3, initial_world) ∧
  (∃ x, _get_free_unit plain_driver [1; 5] initial_world = (Ok x, initial_world) ∧
        1 < x < 5) ∧
  _get_free_unit plain_driver [1; 1; 3] initial_world = (Ok 4, initial_world).
Proof.
  destruct (get_free_unit_spec plain_driver plain_driver_pop_ok initial_world)
    as (_ & _ & Hcases & _ & _ & Hex & _).
  split; [exact Hex|].
  assert (∀ x, x ∈ [1; 5] → 1 ≤ x ≤ 5) as H15
    by (intros x; rewrite !elem_of_cons, elem_of_nil; lia).
  assert (∀ x, x ∈ [1; 1; 3] → 1 ≤ x ≤ 3) as H113
    by (intros x; rewrite !elem_of_cons, elem_of_nil; lia).
  split.
  - destruct (Hcases [1; 5] 1 5) as (_ & Hgap & _);
      [left | right; left | exact H15 |].
    destruct Hgap as (x & Hx & Hrange & _); [lia | simpl; lia |].
    exists x. by split.
  - destruct (Hcases [1; 1; 3] 1 3) as (_ & _ & Hfull & _);
      [left | right; right; left | exact H113 |].
    apply Hfull; [lia | simpl; lia].
Defined.

(** C9 as stated fails: with unit 3 alone occupied the code hands out 2,
    although unit 1 is unused and lower. *)
Lemma get_free_unit_not_lowest :
  (_get_free_unit plain_driver [3] initial_world).1 = Ok 2 ∧
  (1 ∉ [3]) ∧ 1 ≤ 1 < 2.
Proof.
  split; [reflexivity|]. split; [|lia].
  rewrite list_elem_of_singleton. lia.
Qed.

(** ** Handles marked invalid *)

(** Only CREATE writes the registry and the invalid set: a property of
    these two that survives marking a handle invalid is kept by every
    command that is not a CREATE, and by a CREATE as soon as registering
    under its handle keeps it. *)
Lemma registry_invariant (D : driver) (I : world → Prop) (c : command) :
  (∀ w w', _objects w' = _objects w →
           _invalid_objects w' = _invalid_objects w → I w → I w') →
  (∀ i, preserves I (add_invalid i)) →
  (cmd c = "CREATE" → ∀ r, preserves I (register (id c) r)) →
  preserves I (parse_command D c).
Proof.
  intros Hfields Hinvalid Hreg.
  assert (∀ A (m : M A),
            (∀ w, _objects (m w).2 = _objects w ∧
                  _invalid_objects (m w).2 = _invalid_objects w) →
            preserves I m) as Hkeep.
  { intros A m Hm w HI. destruct (Hm w) as [Hobj Hinv]. by apply (Hfields w). }
  apply preserves_parse_command; try done.
  - intros ? w. by apply (Hfields w).
  - intros o. by apply Hkeep.
  - intros o. by apply Hkeep.
  - intros self f. apply Hkeep. intros w.
    unfold update_buffer, bind, load.
    destruct (heap w !! self) as [[]|]; done.
  - intros self f. apply Hkeep. intros w.
    unfold update_texture, bind, load.
    destruct (heap w !! self) as [[]|]; done.
  - intros self f _. apply Hkeep. intros w.
    unfold update_program, bind, load.
    destruct (heap w !! self) as [[]|]; done.
  - intros self name tex handle. apply preserves_rebind_stepwise.
    + intros ? w. by apply (Hfields w).
    + apply Hkeep. intros w.
      unfold update_program, bind, load.
      destruct (heap w !! self) as [[]|]; done.
    + intros unit w p HI Hself _.
      rewrite (update_program_eq w self p) by done.
      by apply (Hfields w).
  - intros o _. by apply Hkeep.
Qed.

Lemma invalid_only_parse_command (D : driver) (h : Z) (c : command) :
  (cmd c = "CREATE" → id c ≠ h) →
  preserves (invalid_only h) (parse_command D c).
Proof.
  intros Hc. apply registry_invariant.
  - intros w w' Hobj Hinv [Hin Hnone]. split; [by rewrite Hinv | by rewrite Hobj].
  - intros i w [Hin Hnone]. split; [simpl; set_solver | done].
  - intros Hcreate r w [Hin Hnone]. split; [done|]. simpl.
    rewrite lookup_insert_ne; [done|]. by apply Hc.
Qed.

(** A registered handle stays registered, whatever commands follow. *)
Lemma registered_forever (D : driver) (h : Z) (cs : list command) :
  preserves (λ w, is_Some (_objects w !! h)) (parse D cs).
Proof.
  unfold parse. induction cs as [|c cs IH]; simpl.
  - apply preserves_ret.
  - apply preserves_bind; [|intros _; apply IH].
    apply registry_invariant.
    + intros w w' Hobj _. by rewrite Hobj.
    + by intros i w.
    + intros _ r w HI. simpl. rewrite lookup_insert.
      case_decide; [by eexists | done].
Qed.

(** A command on an invalid, unregistered handle that is not a CREATE
    leaves no trace at all. *)
Lemma dropped_command (D : driver) (h : Z) (w : world) (c : command) :
  invalid_only h w → id c = h → cmd c ≠ "CREATE" →
  parse_command D c w = (Ok tt, w).
Proof.
  intros [Hin Hnone] Hid Hcmd. unfold parse_command.
  rewrite bool_decide_eq_false_2 by done. rewrite Hid.
  case_bool_decide.
  - unfold bind, get_world. by rewrite Hnone.
  - unfold bind, get_world. rewrite Hnone.
    by rewrite bool_decide_eq_false_2 by (intros Hnot; by apply Hnot).
Qed.

(** CREATE with a kind of the class map builds the object, puts it on the
    heap and registers it, whatever the state. *)
Lemma create_known_kind (D : driver) (h : Z) (w : world) (kind : string)
    (k : klass) (rest : list pyval) :
  _classmap !! kind = Some k →
  ∃ w', parse_command D {| cmd := "CREATE"; id := h; args := PStr kind :: rest |} w
          = (Ok tt, w') ∧
        _objects w' = <[h := List.length (heap w)]> (_objects w) ∧
        heap w' =
          (heap w ++ [new_object k (gl_int D (gl_trace w) (creation_call k))])%list ∧
        gl_trace w' = (gl_trace w ++ [creation_call k])%list ∧
        _invalid_objects w' = _invalid_objects w ∧ stdout w' = stdout w.
Proof.
  intros Hk. unfold parse_command. simpl.
  unfold subscript. rewrite Hk.
  unfold bind at 1. unfold ret at 1.
  erewrite bind_ok by apply construct_eq.
  eexists. split; [reflexivity|]. by destruct k.
Qed.

Lemma create_unknown_kind (D : driver) (h : Z) (w : world) (kind : string)
    (rest : list pyval) :
  _classmap !! kind = None →
  parse_command D {| cmd := "CREATE"; id := h; args := PStr kind :: rest |} w
    = (Raise KeyError, w).
Proof.
  intros Hk. unfold parse_command. simpl. unfold subscript. by rewrite Hk.
Qed.

Lemma classmap_keys (kind : string) :
  _classmap !! kind = None ↔
  kind ∉ ["VERTEXBUFFER"; "INDEXBUFFER"; "PROGRAM"; "Texture2D"; "Texture3D"].
Proof.
  unfold _classmap. simpl.
  rewrite !not_elem_of_cons, !lookup_insert.
  repeat case_decide; subst; rewrite ?lookup_empty;
    split; try done; try (intros; repeat split; try done; apply not_elem_of_nil);
    intros (? & ? & ? & ? & ? & _); done.
Qed.

Lemma invalid_commands_dropped (D : driver) (h : Z) (cs : list command) :
  Forall (λ c, id c = h → cmd c ≠ "CREATE") cs →
  ∀ w, invalid_only h w →
       parse D cs w = parse D (filter (λ c, id c ≠ h) cs) w ∧
       invalid_only h (parse D cs w).2.
Proof.
  unfold parse. induction 1 as [|c cs Hc Hcs IH]; intros w HI; [done|].
  rewrite filter_cons. simpl. destruct (decide (id c ≠ h)) as [Hne|Heq].
  - simpl. unfold bind.
    pose proof (invalid_only_parse_command D h c (λ _, Hne) w HI) as HI'.
    destruct (parse_command D c w) as [[[]|e] w1]; simpl in HI'; [|done].
    by apply IH.
  - apply dec_stable in Heq.
    erewrite bind_ok by (apply (dropped_command D h); [done..|by apply Hc]).
    by apply IH.
Qed.

(** C2, as the code has it: CREATE with kind None marks the handle
    invalid; while no object is registered under such a handle, every
    command on it other than CREATE is dropped without a diagnostic, a
    native call or any other change of state, also in the middle of
    commands on other handles; but a later CREATE with a kind of the class
    map does construct and register an object under it. *)
Theorem invalid_handle_commands (D : driver) (h : Z) (w : world) :
  invalid_only h w →
  (∀ w0 rest,
     parse_command D {| cmd := "CREATE"; id := h; args := PNone :: rest |} w0
       = (Ok tt, (add_invalid h w0).2) ∧
     h ∈ _invalid_objects (add_invalid h w0).2) ∧
  (∀ c, id c = h → cmd c ≠ "CREATE" → parse_command D c w = (Ok tt, w)) ∧
  (∀ cs, Forall (λ c, id c = h → cmd c ≠ "CREATE") cs →
         parse D cs w = parse D (filter (λ c, id c ≠ h) cs) w ∧
         invalid_only h (parse D cs w).2) ∧
  (∀ kind k rest, _classmap !! kind = Some k →
     ∃ w', parse_command D {| cmd := "CREATE"; id := h; args := PStr kind :: rest |} w
             = (Ok tt, w') ∧
           _objects w' !! h = Some (List.length (heap w)) ∧
           heap w' !! List.length (heap w) =
             Some (new_object k (gl_int D (gl_trace w) (creation_call k))) ∧
           gl_trace w' = (gl_trace w ++ [creation_call k])%list).
Proof.
  intros HI. split; [|split; [|split]].
  - intros w0 rest. split; [done|]. simpl. set_solver.
  - intros. by apply (dropped_command D h).
  - intros cs Hcs. by apply invalid_commands_dropped.
  - intros kind k rest Hk.
    destruct (create_known_kind D h w kind k rest Hk)
      as (w' & Hrun & Hobj & Hheap & Htrace & _).
    exists w'. split; [done|]. rewrite Hobj, Hheap.
    split; [apply lookup_insert_eq|]. split; [|done].
    apply lookup_snoc_Some. by right.
Qed.

Lemma invalid_handle_commands_witness :
  parse_command plain_driver (ACTIVATE 1)
    (parse plain_driver [CREATE 1 PNone] initial_world).2
  = (Ok tt, (parse plain_driver [CREATE 1 PNone] initial_world).2).
Proof.
  apply (invalid_handle_commands plain_driver 1
           (parse plain_driver [CREATE 1 PNone] initial_world).2);
    [|done|done].
  split; [simpl; set_solver | done].
Defined.

(** C2 as stated fails: handle 1 is marked invalid by a CREATE with kind
    None, yet the CREATE that follows constructs a program (one native
    call) and registers it under handle 1. *)
Lemma invalid_handle_created :
  let r := parse plain_driver [CREATE 1 PNone; CREATE 1 (PStr "PROGRAM")]
             initial_world in
  r.1 = Ok tt ∧ invalid r.2 = [1] ∧ registry r.2 = [(1, 0%nat)] ∧
  heap r.2 = [new_object GlirProgramClass 1] ∧ gl_trace r.2 = [glCreateProgram].
Proof. vm_compute. done. Qed.

(** ** CREATE and the class map *)

(** C3, as the code has it: the class map is keyed by VERTEXBUFFER,
    INDEXBUFFER, PROGRAM, Texture2D and Texture3D.  For each of these five
    kinds CREATE finds the constructor, builds a managed object of the
    corresponding class and registers it under the handle; for every
    other string the lookup raises KeyError and nothing changes. *)
Theorem create_dispatches_on_classmap (D : driver) (h : Z) (w : world)
    (kind : string) (rest : list pyval) :
  let c := {| cmd := "CREATE"; id := h; args := PStr kind :: rest |} in
  (_classmap !! "VERTEXBUFFER" = Some GlirVertexBuffer ∧
   _classmap !! "INDEXBUFFER" = Some GlirIndexBuffer ∧
   _classmap !! "PROGRAM" = Some GlirProgramClass ∧
   _classmap !! "Texture2D" = Some GlirTexture2D ∧
   _classmap !! "Texture3D" = Some GlirTexture3D) ∧
  (_classmap !! kind = None ↔
   kind ∉ ["VERTEXBUFFER"; "INDEXBUFFER"; "PROGRAM"; "Texture2D"; "Texture3D"]) ∧
  match _classmap !! kind with
  | Some k =>
      ∃ w', parse_command D c w = (Ok tt, w') ∧
            _objects w' = <[h := List.length (heap w)]> (_objects w) ∧
            heap w' =
              (heap w ++ [new_object k (gl_int D (gl_trace w) (creation_call k))])%list ∧
            gl_trace w' = (gl_trace w ++ [creation_call k])%list
  | None => parse_command D c w = (Raise KeyError, w)
  end.
Proof.
  split; [done|]. split; [apply classmap_keys|].
  destruct (_classmap !! kind) as [k|] eqn:Hk.
  - destruct (create_known_kind D h w kind k rest Hk)
      as (w' & Hrun & Hobj & Hheap & Htrace & _).
    by exists w'.
  - by apply create_unknown_kind.
Qed.

(** C3 as stated fails: the documented tags TEXTURE2D and TEXTURE3D are
    not keys of the class map; CREATE with either raises KeyError and
    registers nothing. *)
Lemma create_TEXTURE2D_raises :
  let r2 := parse plain_driver [CREATE 1 (PStr "TEXTURE2D")] initial_world in
  let r3 := parse plain_driver [CREATE 1 (PStr "TEXTURE3D")] initial_world in
  r2 = (Raise KeyError, initial_world) ∧ r3 = (Raise KeyError, initial_world).
Proof. split; reflexivity. Qed.

(** ** DELETE *)

(** DELETE never touches the registry. *)
Lemma delete_keeps_registry (D : driver) (c : command) (w : world) :
  cmd c = "DELETE" →
  _objects (parse_command D c w).2 = _objects w ∧
  _invalid_objects (parse_command D c w).2 = _invalid_objects w.
Proof.
  intros Hc. unfold parse_command. rewrite Hc. simpl.
  unfold bind, get_world.
  destruct (_objects w !! id c) as [ob|]; [|done].
  unfold delete, bind, load.
  destruct (heap w !! ob) as [o|]; [|done].
  destruct o; unfold GlirBuffer_delete, GlirTexture_delete, GlirProgram_delete,
    load_buffer, load_texture, load_program, bind, load;
    destruct (heap w !! ob) as [[]|]; done.
Qed.

(** C1, as the code has it: DELETE on a live handle releases the object's
    native resource with one native call and changes nothing else; the
    registry is left as it is, and no later command unregisters the
    handle, so a later verb on it (DEACTIVATE here) is dispatched to the
    object: no unknown-handle diagnostic is printed and the
    invalid-handle path is not taken.  DELETE on a handle without an
    object does nothing. *)
Theorem delete_releases_keeps_mapping (D : driver) (w : world) (h : Z)
    (ob : nat) (o : GlirObject) (rest : list pyval) :
  _objects w !! h = Some ob → heap w !! ob = Some o →
  let w' := record_call (deletion_call o) w in
  parse_command D {| cmd := "DELETE"; id := h; args := rest |} w = (Ok tt, w') ∧
  _objects w' = _objects w ∧ heap w' = heap w ∧
  parse_command D {| cmd := "DEACTIVATE"; id := h; args := rest |} w'
    = (Ok tt, record_call (deactivation_call o) w') ∧
  (∀ cs, is_Some (_objects (parse D cs w').2 !! h)) ∧
  (∀ w0 h0, _objects w0 !! h0 = None →
            parse_command D {| cmd := "DELETE"; id := h0; args := rest |} w0
              = (Ok tt, w0)).
Proof.
  intros Hh Hob. simpl. repeat split.
  - unfold parse_command, bind, get_world. simpl. rewrite Hh.
    unfold delete, bind, load. rewrite Hob.
    destruct o; unfold GlirBuffer_delete, GlirTexture_delete, GlirProgram_delete,
      load_buffer, load_texture, load_program, bind, load; by rewrite Hob.
  - unfold parse_command, bind, get_world. simpl. rewrite Hh.
    unfold deactivate, bind, load. simpl. rewrite Hob.
    destruct o; unfold GlirBuffer_deactivate, GlirTexture_deactivate,
      GlirProgram_deactivate, load_buffer, load_texture, bind, load; simpl;
      by rewrite ?Hob.
  - intros cs. apply registered_forever. simpl. by rewrite Hh.
  - intros w0 h0 Hnone. unfold parse_command, bind, get_world. simpl.
    by rewrite Hnone.
Qed.

Lemma delete_releases_keeps_mapping_witness :
  let w := (parse plain_driver [CREATE 1 (PStr "VERTEXBUFFER")] initial_world).2 in
  parse_command plain_driver (DELETE 1) w = (Ok tt, record_call (glDeleteBuffer 1) w).
Proof.
  intros w.
  apply (delete_releases_keeps_mapping plain_driver w 1 0
           (VertexBuffer {| b_handle := 1; _buffer_size := PInt 0;
                            _bufferSubDataOk := false |}) []);
    reflexivity.
Defined.

(** C1 as stated fails: after CREATE and DELETE of handle 1 the registry
    still maps 1 to the buffer whose native resource was released, so the
    ACTIVATE that follows is dispatched to it (the released native handle
    is bound) and nothing is printed, where ACTIVATE on a handle that was
    never created prints the unknown-handle diagnostic. *)
Lemma delete_leaves_handle_registered :
  let r := parse plain_driver
             [CREATE 1 (PStr "VERTEXBUFFER"); DELETE 1; ACTIVATE 1]
             initial_world in
  r.1 = Ok tt ∧ registry r.2 = [(1, 0%nat)] ∧
  gl_trace r.2 = [glCreateBuffer; glDeleteBuffer 1; glBindBuffer GL_ARRAY_BUFFER 1] ∧
  stdout r.2 = [] ∧
  (parse plain_driver [ACTIVATE 1] initial_world).2
    = (print (print_cannot "ACTIVATE" 1) initial_world).2.
Proof. vm_compute. done. Qed.

(** ** The current program *)

(** Once any program has been made current, [use_this_program] issues no
    native call for any program, whichever its handle. *)
Lemma use_this_program_skips (w : world) (self : nat) :
  _current_program w = CP_builtin_id → use_this_program self w = (Ok tt, w).
Proof.
  intros Hc. unfold use_this_program, bind, get_world. by rewrite Hc.
Qed.

(** C4 on the code: two programs are created and activated in turn; the
    native use-program call is issued for the first only, so after
    ACTIVATE of program 2 (native handle 2) the native pipeline's current
    program is still program 1.  The tracked value is the builtin [id],
    not a program. *)
Theorem activate_second_program_not_current :
  let r := parse plain_driver
             [CREATE 1 (PStr "PROGRAM"); CREATE 2 (PStr "PROGRAM");
              ACTIVATE 1; ACTIVATE 2]
             initial_world in
  r.1 = Ok tt ∧
  heap r.2 !! 1%nat = Some (Program {| p_handle := 2; _validated := true;
                                       _handles := ∅; _unset_variables := ∅;
                                       _samplers := []; _buffers := [] |}) ∧
  List.filter is_glUseProgram (gl_trace r.2) = [glUseProgram 1] ∧
  _current_program r.2 = CP_builtin_id.
Proof. vm_compute. done. Qed.

(** ** Buffers *)

Lemma py_eqb_PInt (n : Z) (v : pyval) :
  py_eqb (PInt n) v = bool_decide (v = PInt n).
Proof.
  destruct v; simpl; try done.
  apply bool_decide_ext. split; [by intros -> | by intros [= ->]].
Qed.

(** C7, as the code has it: two calls of [set_size] in a row with the same
    byte size trigger one native reallocation when that size differs from
    the size the buffer had before the first call, and none when it is the
    size the buffer already had (a fresh buffer has size 0); the second
    call performs no native call and changes nothing; the size recorded
    afterwards is the one asked for. *)
Theorem buffer_set_size_twice (w : world) (self : nat) (target : Z)
    (b : GlirBuffer) (nbytes : Z) :
  buffer_at w self = Some (target, b) →
  let r1 := GlirBuffer_set_size self (PInt nbytes) w in
  let r2 := GlirBuffer_set_size self (PInt nbytes) r1.2 in
  r1.1 = Ok tt ∧ r2 = (Ok tt, r1.2) ∧
  gl_trace r1.2 =
    (gl_trace w ++
     if bool_decide (_buffer_size b = PInt nbytes) then []
     else [glBindBuffer target (b_handle b);
           glBufferData target (PInt nbytes) GL_DYNAMIC_DRAW])%list ∧
  buffer_at r1.2 self = Some (target, set_buffer_size (PInt nbytes) b).
Proof.
  intros Hb. unfold buffer_at in Hb.
  assert (∀ w' b', buffer_at w' self = Some (target, b') →
                   _buffer_size b' = PInt nbytes →
                   GlirBuffer_set_size self (PInt nbytes) w' = (Ok tt, w')) as Hsame.
  { intros w' b' Hb' Hsize. unfold buffer_at in Hb'.
    unfold GlirBuffer_set_size, load_buffer, bind, load.
    destruct (heap w' !! self) as [[b0|b0| | |]|]; try done;
      injection Hb' as <- <-; cbn -[py_eqb]; rewrite py_eqb_PInt;
      by rewrite bool_decide_eq_true_2. }
  destruct (decide (_buffer_size b = PInt nbytes)) as [Heq|Hne].
  - simpl. rewrite (Hsame w b) by done. simpl. rewrite (Hsame w b) by done.
    rewrite bool_decide_eq_true_2, app_nil_r by done.
    repeat split; try done. unfold buffer_at.
    destruct (heap w !! self) as [[b0|b0| | |]|]; try done;
      injection Hb as <- <-; destruct b0; simpl in *; by subst.
  - assert (∃ w1, GlirBuffer_set_size self (PInt nbytes) w = (Ok tt, w1) ∧
                  gl_trace w1 = (gl_trace w ++
                                   [glBindBuffer target (b_handle b);
                                    glBufferData target (PInt nbytes) GL_DYNAMIC_DRAW])%list ∧
                  buffer_at w1 self = Some (target, set_buffer_size (PInt nbytes) b))
      as (w1 & Hrun & Htrace & Hb1).
    { unfold GlirBuffer_set_size, load_buffer, update_buffer, bind, load,
        gl_call, buffer_at.
      destruct (heap w !! self) as [[b0|b0| | |]|] eqn:Hself; try done;
        injection Hb as <- <-; cbn -[py_eqb]; rewrite py_eqb_PInt;
        rewrite bool_decide_eq_false_2 by done; simpl; rewrite Hself;
        (eexists; split; [reflexivity|]); simpl;
        rewrite <- app_assoc;
        (split; [done|]);
        rewrite list_lookup_insert_eq by (by eapply lookup_lt_Some); done. }
    simpl. rewrite Hrun. simpl. rewrite (Hsame w1 _ Hb1) by done.
    by rewrite bool_decide_eq_false_2.
Qed.

Lemma buffer_set_size_twice_witness :
  gl_trace
    (GlirBuffer_set_size 0 (PInt 8)
       (GlirBuffer_set_size 0 (PInt 8)
          (parse plain_driver [CREATE 1 (PStr "VERTEXBUFFER")] initial_world).2).2).2
  = [glCreateBuffer; glBindBuffer GL_ARRAY_BUFFER 1;
     glBufferData GL_ARRAY_BUFFER (PInt 8) GL_DYNAMIC_DRAW].
Proof.
  pose proof (buffer_set_size_twice
                (parse plain_driver [CREATE 1 (PStr "VERTEXBUFFER")] initial_world).2
                0 GL_ARRAY_BUFFER
                {| b_handle := 1; _buffer_size := PInt 0; _bufferSubDataOk := false |}
                8 eq_refl) as (_ & H2 & H3 & _).
  rewrite H2. exact H3.
Defined.

(** C7 as stated fails: on a buffer as constructed (size 0) two calls of
    [set_size] with 0 trigger no native reallocation at all. *)
Lemma buffer_set_size_zero_no_allocation :
  let r := parse plain_driver
             [CREATE 1 (PStr "VERTEXBUFFER"); SIZE 1 [PInt 0]; SIZE 1 [PInt 0]]
             initial_world in
  r.1 = Ok tt ∧ gl_trace r.2 = [glCreateBuffer].
Proof. vm_compute. done. Qed.

(** ** Textures *)

(** [_shape_format] is written by the constructor only; as long as it holds
    the constructor's 0, [set_size] on a 2D texture allocates whatever it
    is asked, and leaves the 0 in place. *)
Lemma texture2D_set_size_allocates (w : world) (self : nat) (t : GlirTexture)
    (shape : list pyval) (format : pyval) :
  heap w !! self = Some (Texture2D t) → _shape_format t = PInt 0 →
  ∃ w', GlirTexture2D_set_size self (PTuple shape) format w = (Ok tt, w') ∧
        gl_trace w' =
          (gl_trace w ++
           [glTexImage2D GL_TEXTURE_2D 0 format format GL_BYTE
              (PTuple (take 2 shape))])%list ∧
        heap w' !! self =
          Some (Texture2D {| t_handle := t_handle t; _shape_format := PInt 0;
                             _format := Some format |}).
Proof.
  intros Hself Hsf.
  unfold GlirTexture2D_set_size, load_texture, update_texture, get_format,
    load_texture, bind, load.
  rewrite Hself. simpl. rewrite Hsf. simpl. rewrite Hself. simpl.
  rewrite list_lookup_insert_eq by (by eapply lookup_lt_Some). simpl.
  eexists. split; [reflexivity|]. simpl. split; [done|].
  rewrite list_lookup_insert_eq by (by eapply lookup_lt_Some).
  by rewrite <- Hsf.
Qed.

(** C6 on the code: the same (shape, format) is set twice on a 2D and on a
    3D texture; each call reallocates the storage, since the cached value
    [_shape_format] is never updated and stays the constructor's 0. *)
Theorem texture_set_size_allocates_again :
  let shape2 := PTuple [PInt 2; PInt 2] in
  let shape3 := PTuple [PInt 2; PInt 2; PInt 2] in
  let format := PInt 6408 in
  let r2 := parse plain_driver
              [CREATE 1 (PStr "Texture2D");
               SIZE 1 [shape2; format]; SIZE 1 [shape2; format]]
              initial_world in
  let r3 := parse plain_driver
              [CREATE 1 (PStr "Texture3D");
               SIZE 1 [shape3; format]; SIZE 1 [shape3; format]]
              initial_world in
  r2.1 = Ok tt ∧
  List.filter is_allocation (gl_trace r2.2) =
    [glTexImage2D GL_TEXTURE_2D 0 format format GL_BYTE shape2;
     glTexImage2D GL_TEXTURE_2D 0 format format GL_BYTE shape2] ∧
  heap r2.2 = [Texture2D {| t_handle := 1; _shape_format := PInt 0;
                            _format := Some format |}] ∧
  r3.1 = Ok tt ∧
  List.filter is_allocation (gl_trace r3.2) =
    [glTexImage3D GL_TEXTURE_3D 0 format (PInt 2) (PInt 2) (PInt 2) 0 format GL_BYTE;
     glTexImage3D GL_TEXTURE_3D 0 format (PInt 2) (PInt 2) (PInt 2) 0 format GL_BYTE] ∧
  heap r3.2 = [Texture3D {| t_handle := 1; _shape_format := PInt 0;
                            _format := Some format |}].
Proof. vm_compute. done. Qed.

(** [set_data] on a 3D texture reads [self.dtype], which no texture has:
    it raises whatever the payload, before any native call. *)
Lemma texture3D_set_data_raises (D : driver) (self : nat) (offset data : pyval)
    (w : world) :
  ∃ e, GlirTexture3D_set_data D self offset data w = (Raise e, w).
Proof.
  unfold GlirTexture3D_set_data, bind, lift.
  destruct (unpack3 offset) as [zyx|e]; eauto.
Qed.

(** On a sized 2D texture the type table decides: an element type of the
    table is translated and the sub-region uploaded, any other raises
    ValueError before any native call. *)
Lemma texture2D_set_data_by_type (w : world) (self : nat) (t : GlirTexture)
    (format x y : pyval) (a : ndarray) (rows cols : Z) (outer : list Z) :
  heap w !! self = Some (Texture2D t) → _format t = Some format →
  arr_shape a = (outer ++ [rows; cols])%list →
  match _types (arr_dtype a) with
  | Some gtype =>
      ∃ w', GlirTexture2D_set_data self (PTuple [y; x]) (PArray a) w = (Ok tt, w') ∧
            List.filter is_texture_upload (gl_trace w') =
              (List.filter is_texture_upload (gl_trace w) ++
               [glTexSubImage2D GL_TEXTURE_2D 0 x y format gtype a])%list
  | None =>
      ∃ msg w', GlirTexture2D_set_data self (PTuple [y; x]) (PArray a) w
                  = (Raise (ValueError msg), w') ∧
                gl_trace w' = gl_trace w
  end.
Proof.
  intros Hself Hfmt Hshape.
  assert (shape_from_end a 2 = Ok rows ∧ shape_from_end a 1 = Ok cols) as [H2 H1].
  { unfold shape_from_end. rewrite Hshape, rev_app_distr. by simpl. }
  unfold GlirTexture2D_set_data, get_format, load_texture, bind, load, lift.
  simpl. rewrite Hself. simpl. rewrite Hfmt. simpl.
  destruct (_types (arr_dtype a)) as [gtype|]; [|by eauto].
  rewrite H2, H1.
  case_bool_decide;
    repeat (first [rewrite Hself | rewrite Hfmt | progress simpl]);
    eexists; (split; [reflexivity|]); simpl;
    rewrite !List.filter_app; simpl; by rewrite ?app_nil_r.
Qed.

(** C10 on the code: a 3D texture is created and sized, then float32 data
    (an element type of the table) is sent to it; the command raises
    AttributeError and no sub-region upload reaches [gl], where the same
    payload on a 2D texture is uploaded. *)
Theorem texture3D_set_data_never_uploads :
  let format := PInt 6408 in
  let pixels := {| arr_dtype := float32; arr_shape := [1; 1; 1]; arr_data := [0] |} in
  let r3 := parse plain_driver
              [CREATE 1 (PStr "Texture3D");
               SIZE 1 [PTuple [PInt 1; PInt 1; PInt 1]; format];
               DATA 1 (PTuple [PInt 0; PInt 0; PInt 0]) (PArray pixels)]
              initial_world in
  let r2 := parse plain_driver
              [CREATE 1 (PStr "Texture2D");
               SIZE 1 [PTuple [PInt 1; PInt 1]; format];
               DATA 1 (PTuple [PInt 0; PInt 0]) (PArray pixels)]
              initial_world in
  _types (arr_dtype pixels) = Some GL_FLOAT ∧
  r3.1 = Raise AttributeError ∧
  List.filter is_texture_upload (gl_trace r3.2) = [] ∧
  r2.1 = Ok tt ∧
  List.filter is_texture_upload (gl_trace r2.2) =
    [glTexSubImage2D GL_TEXTURE_2D 0 (PInt 0) (PInt 0) format GL_FLOAT pixels].
Proof. vm_compute. done. Qed.

(** ** Relinking a program *)

Lemma extend_trace_nil (w : world) : extend_trace [] w = w.
Proof. destruct w. unfold extend_trace. simpl. by rewrite app_nil_r. Qed.

Lemma extend_trace_record (c : glcall) (calls : list glcall) (w : world) :
  extend_trace calls (record_call c w) = extend_trace (c :: calls) w.
Proof. unfold extend_trace. simpl. by rewrite <- app_assoc. Qed.

(** The expansion of reported names. *)
Lemma append_nil_r (s : string) : (s ++ "")%string = s.
Proof.
  induction s as [|c s IH]; [done|].
  change (String c s ++ "")%string with (String c (s ++ "")). by rewrite IH.
Qed.

Lemma string_app_assoc (a b c : string) :
  ((a ++ b) ++ c)%string = (a ++ (b ++ c))%string.
Proof.
  induction a as [|x a IH]; [done|].
  change ((String x a ++ b) ++ c)%string with (String x ((a ++ b) ++ c)).
  change (String x a ++ b ++ c)%string with (String x (a ++ b ++ c)).
  by rewrite IH.
Qed.

Lemma span_app (p : ascii → bool) (s r : string) :
  all_chars p s = true →
  span p (s ++ r) = ((s ++ (span p r).1)%string, (span p r).2).
Proof.
  induction s as [|c s IH]; simpl.
  - intros _. change ("" ++ r)%string with r.
    change ("" ++ (span p r).1)%string with (span p r).1.
    by destruct (span p r).
  - intros [Hc Hs]%andb_prop.
    change (String c s ++ r)%string with (String c (s ++ r)).
    simpl. by rewrite Hc, (IH Hs).
Qed.

Lemma span_stop (p : ascii → bool) (c : ascii) (r : string) :
  p c = false → span p (String c r) = (EmptyString, String c r).
Proof. intros H. simpl. by rewrite H. Qed.













(** X28: a variable the driver reports under a plain identifier is
    tracked under its own name, once, whatever its size. *)
Lemma expand_active_identifier (name : string) (size gtype : Z) :
  all_chars is_word name = true →
  expand_active name size gtype = [(name, gtype)].
Proof.
  intros Hw. unfold expand_active, regex_match_name.
  pose proof (span_app is_word name "" Hw) as Hspan.
  rewrite append_nil_r in Hspan. rewrite Hspan. simpl.
  by case_bool_decide.
Qed.

(** X29: an array the driver reports as [name[digits]] with [size]
    elements is tracked as [name[0]] ... [name[size-1]], whatever the
    digits reported. *)
Lemma expand_active_array (name digits : string) (size gtype : Z) :
  name ≠ "" → all_chars is_word name = true →
  digits ≠ "" → all_chars is_digit digits = true →
  expand_active (name ++ "[" ++ digits ++ "]") size gtype =
    map (λ i, ((name ++ "[" ++ pretty i ++ "]")%string, gtype)) (seqZ 0 size).
Proof.
  intros Hne Hw Hdne Hd. unfold expand_active, regex_match_name.
  change ("[" ++ digits ++ "]")%string with (String "["%char (digits ++ "]")).
  rewrite (span_app is_word name _ Hw).
  rewrite (span_stop is_word "[" _ eq_refl). simpl.
  rewrite append_nil_r.
  rewrite bool_decide_eq_false_2 by done.
  rewrite (span_app is_digit digits _ Hd). simpl.
  rewrite append_nil_r.
  by rewrite bool_decide_eq_false_2 by done.
Qed.

(** * Further properties of the interpreter *)

(** ** The dispatch loop *)

Lemma parse_concat (D : driver) (cs1 cs2 : list command) (w : world) :
  parse D (cs1 ++ cs2) w =
    match parse D cs1 w with
    | (Ok _, w1) => parse D cs2 w1
    | (Raise e, w1) => (Raise e, w1)
    end.
Proof.
  unfold parse. revert w. induction cs1 as [|c cs1 IH]; intros w; [done|].
  simpl. unfold bind.
  destruct (parse_command D c w) as [[[]|e] w1]; [apply IH | done].
Qed.

(** X3: a batch is interpreted command by command: interpreting two
    lists one after the other is interpreting their concatenation, and a
    command that raises ends the batch with the state reached so far, the
    commands after it being lost. *)
Theorem parse_app (D : driver) (cs1 cs2 : list command) (w : world) :
  parse D (cs1 ++ cs2) w =
    match parse D cs1 w with
    | (Ok _, w1) => parse D cs2 w1
    | (Raise e, w1) => (Raise e, w1)
    end.
Proof. apply parse_concat. Qed.

Lemma extend_stdout_nil (w : world) : extend_stdout [] w = w.
Proof. destruct w. unfold extend_stdout. simpl. by rewrite app_nil_r. Qed.

Lemma extend_stdout_print (o : output) (outs : list output) (w : world) :
  extend_stdout outs (print o w).2 = extend_stdout (o :: outs) w.
Proof. unfold extend_stdout. simpl. by rewrite <- app_assoc. Qed.

(** A command other than CREATE and DELETE on a handle that is neither
    registered nor invalid prints the diagnostic and does nothing else. *)
Lemma unknown_handle_command (D : driver) (c : command) (w : world) :
  cmd c ≠ "CREATE" → cmd c ≠ "DELETE" →
  _objects w !! id c = None → id c ∉ _invalid_objects w →
  parse_command D c w = (Ok tt, (print (cannot c) w).2).
Proof.
  intros Hcreate Hdelete Hnone Hvalid. unfold parse_command.
  rewrite !bool_decide_eq_false_2 by done.
  unfold bind, get_world. rewrite Hnone.
  by rewrite bool_decide_eq_true_2.
Qed.

(** X1: as long as nothing has been created, no command crashes: a batch
    without CREATE, run on a parser with no object and no invalid handle,
    succeeds without a single native call and prints one diagnostic for
    each command that is not a DELETE, in order; DELETE is silent. *)
Theorem commands_before_create (D : driver) (cs : list command) (w : world) :
  _objects w = ∅ → _invalid_objects w = ∅ →
  Forall (λ c, cmd c ≠ "CREATE") cs →
  parse D cs w =
    (Ok tt,
     extend_stdout
       (map cannot (List.filter (λ c, negb (bool_decide (cmd c = "DELETE"))) cs)) w).
Proof.
  intros Hobj Hinv Hcs. unfold parse. revert w Hobj Hinv.
  induction Hcs as [|c cs Hc Hcs IH]; intros w Hobj Hinv.
  - simpl. by rewrite extend_stdout_nil.
  - simpl. case_bool_decide as Hdel; simpl.
    + erewrite bind_ok; [by apply IH|].
      unfold parse_command. rewrite bool_decide_eq_false_2 by done.
      rewrite bool_decide_eq_true_2 by done.
      unfold bind, get_world. by rewrite Hobj, lookup_empty.
    + erewrite bind_ok.
      2:{ apply unknown_handle_command; try done.
          - by rewrite Hobj, lookup_empty.
          - rewrite Hinv. apply not_elem_of_empty. }
      rewrite IH by done. by rewrite extend_stdout_print.
Qed.

Lemma commands_before_create_witness :
  parse plain_driver [ACTIVATE 3; DELETE 3; SIZE 4 [PInt 8]] initial_world =
    (Ok tt, extend_stdout [print_cannot "ACTIVATE" 3; print_cannot "SIZE" 4]
              initial_world).
Proof.
  apply (commands_before_create plain_driver
           [ACTIVATE 3; DELETE 3; SIZE 4 [PInt 8]] initial_world);
    [reflexivity | reflexivity |].
  repeat constructor; discriminate.
Defined.

(** X2: a verb the parser does not know, sent to a registered handle, is
    reported and skipped: one diagnostic, no native call, no change of
    any object, and the batch goes on. *)
Theorem unknown_verb_reported (D : driver) (c : command) (ob : nat)
    (cs : list command) (w : world) :
  _objects w !! id c = Some ob → cmd c ∉ known_verbs →
  parse_command D c w = (Ok tt, (print (print_invalid_command (cmd c)) w).2) ∧
  parse D (c :: cs) w = parse D cs (print (print_invalid_command (cmd c)) w).2.
Proof.
  intros Hob Hverb.
  assert (parse_command D c w
          = (Ok tt, (print (print_invalid_command (cmd c)) w).2)) as Hrun.
  { unfold known_verbs in Hverb. rewrite !not_elem_of_cons in Hverb.
    destruct Hverb as (? & ? & ? & ? & ? & ? & ? & ? & ? & ? & ? & _).
    unfold parse_command. rewrite !bool_decide_eq_false_2 by done.
    unfold bind, get_world. by rewrite Hob. }
  split; [done|]. unfold parse. simpl. by erewrite bind_ok.
Qed.

Lemma unknown_verb_reported_witness :
  let w := (parse plain_driver [CREATE 1 (PStr "VERTEXBUFFER")] initial_world).2 in
  parse_command plain_driver {| cmd := "RESIZE"; id := 1; args := [PInt 8] |} w
    = (Ok tt, (print (print_invalid_command "RESIZE") w).2).
Proof.
  intros w.
  apply (unknown_verb_reported plain_driver
           {| cmd := "RESIZE"; id := 1; args := [PInt 8] |} 0 [] w).
  - reflexivity.
  - unfold known_verbs. rewrite !not_elem_of_cons.
    repeat split; try discriminate. apply not_elem_of_nil.
Defined.

(** ** Textures, continued *)

(** X4: the unpack alignment chosen for a row of [width] bytes is never
    absent and never 8: it is the largest of 4, 2 and 1 that divides
    [width]; 8 is listed after 4 and is shadowed by it. *)
Theorem get_alignment_spec (width : Z) :
  ∃ a, _get_alignment width = Some a ∧ (a = 4 ∨ a = 2 ∨ a = 1) ∧
       width `mod` a = 0 ∧
       (∀ b, b = 8 ∨ b = 4 ∨ b = 2 ∨ b = 1 → width `mod` b = 0 →
             b = 8 ∨ b ≤ a) ∧
       (width `mod` 8 = 0 → a = 4).
Proof.
  assert (width `mod` 8 = 0 → width `mod` 4 = 0) as H84.
  { intros H8. apply Z.mod_divide in H8 as [k ->]; [|lia].
    replace (k * 8) with ((k * 2) * 4) by lia. apply Z.mod_mul. lia. }
  unfold _get_alignment. simpl.
  destruct (decide (width `mod` 4 = 0)) as [H4|H4].
  { rewrite bool_decide_eq_true_2 by done. exists 4.
    split; [done|]. split; [lia|]. split; [done|]. split; [|done].
    intros b Hb _. lia. }
  rewrite (bool_decide_eq_false_2 _ H4).
  rewrite bool_decide_eq_false_2 by (intros H8; by apply H4, H84).
  destruct (decide (width `mod` 2 = 0)) as [H2|H2].
  { rewrite bool_decide_eq_true_2 by done. exists 2.
    split; [done|]. split; [lia|]. split; [done|].
    split; [|intros H8; by apply H84 in H8].
    intros b Hb Hmod. destruct Hb as [Hb|[Hb|Hb]]; subst; [lia|done|lia]. }
  rewrite (bool_decide_eq_false_2 _ H2).
  rewrite bool_decide_eq_true_2 by apply Z.mod_1_r. exists 1.
  split; [done|]. split; [lia|]. split; [apply Z.mod_1_r|].
  split; [|intros H8; by apply H84 in H8].
  intros b Hb Hmod. destruct Hb as [Hb|[Hb|[Hb|Hb]]]; subst; [lia|done|done|lia].
Qed.

(** X5: [set_data] on a sized 2D texture.  An element type of the type
    table is translated and the payload uploaded at (x, y) with the
    texture's format; the upload is bracketed by two unpack-alignment
    calls exactly when the product of the last two dimensions of the
    payload is not a multiple of 4, and the default 4 is restored after.
    Any other element type raises ValueError without a native call,
    with a message that names the element type as [repr] shows it.  In
    both cases the looked-up type and the format are printed first. *)
Theorem texture2D_set_data_spec (w : world) (self : nat) (t : GlirTexture)
    (format x y : pyval) (a : ndarray) (rows cols : Z) (outer : list Z) :
  heap w !! self = Some (Texture2D t) → _format t = Some format →
  arr_shape a = (outer ++ [rows; cols])%list →
  GlirTexture2D_set_data self (PTuple [y; x]) (PArray a) w =
    match _types (arr_dtype a) with
    | Some gtype =>
        let upload := glTexSubImage2D GL_TEXTURE_2D 0 x y format gtype a in
        (Ok tt,
         extend_trace
           (if bool_decide ((rows * cols) `mod` 4 = 0) then [upload]
            else [glPixelStorei GL_UNPACK_ALIGNMENT
                    (if bool_decide ((rows * cols) `mod` 2 = 0) then 2 else 1);
                  upload;
                  glPixelStorei GL_UNPACK_ALIGNMENT 4])
           (extend_stdout [print_gtype_format (Some gtype) format] w))
    | None =>
        (Raise (ValueError ("Type dtype('" ++ dtype_name (arr_dtype a)
                            ++ "') not allowed for texture")),
         extend_stdout [print_gtype_format None format] w)
    end.
Proof.
  intros Hself Hfmt Hshape.
  assert (shape_from_end a 2 = Ok rows ∧ shape_from_end a 1 = Ok cols) as [H2 H1].
  { unfold shape_from_end. rewrite Hshape, rev_app_distr. by simpl. }
  unfold GlirTexture2D_set_data, get_format, load_texture, bind, load, lift.
  simpl. rewrite Hself. simpl. rewrite Hfmt. simpl.
  destruct (_types (arr_dtype a)) as [gtype|] eqn:Hty;
    [|destruct (arr_dtype a); first [discriminate Hty | reflexivity]].
  rewrite H2, H1.
  destruct (get_alignment_spec (rows * cols)) as (al & Hal & Hcases & Hdiv & Hmax & _).
  rewrite Hal.
  destruct (decide ((rows * cols) `mod` 4 = 0)) as [H4|H4].
  - assert (al = 4) as Hfour.
    { specialize (Hmax 4 ltac:(lia) H4). lia. }
    subst al.
    rewrite (bool_decide_eq_true_2 (Some 4 = Some 4)) by done.
    rewrite (bool_decide_eq_true_2 _ H4).
    repeat (first [rewrite Hself | rewrite Hfmt | progress simpl]).
    done.
  - assert (al ≠ 4) as Hne by (intros ->; done).
    rewrite (bool_decide_eq_false_2 (Some al = Some 4)) by congruence.
    rewrite (bool_decide_eq_false_2 _ H4).
    assert (al = if bool_decide ((rows * cols) `mod` 2 = 0) then 2 else 1) as Hal2.
    { case_bool_decide as H2'.
      - specialize (Hmax 2 ltac:(lia) H2'). lia.
      - destruct Hcases as [-> | [-> | ->]]; done. }
    repeat (first [rewrite Hself | rewrite Hfmt | progress simpl]).
    unfold extend_trace, extend_stdout, gl_call, record_call. simpl.
    by rewrite <- Hal2, <- !app_assoc.
Qed.

Lemma texture2D_set_data_spec_witness :
  let pixels := {| arr_dtype := uint8; arr_shape := [3; 3]; arr_data := [] |} in
  let w := (parse plain_driver
              [CREATE 1 (PStr "Texture2D");
               SIZE 1 [PTuple [PInt 3; PInt 3]; PInt 6409]] initial_world).2 in
  GlirTexture2D_set_data 0 (PTuple [PInt 0; PInt 0]) (PArray pixels) w =
    (Ok tt,
     extend_trace
       [glPixelStorei GL_UNPACK_ALIGNMENT 1;
        glTexSubImage2D GL_TEXTURE_2D 0 (PInt 0) (PInt 0) (PInt 6409)
          GL_UNSIGNED_BYTE pixels;
        glPixelStorei GL_UNPACK_ALIGNMENT 4]
       (extend_stdout [print_gtype_format (Some GL_UNSIGNED_BYTE) (PInt 6409)] w)).
Proof.
  intros pixels w.
  exact (texture2D_set_data_spec w 0
           {| t_handle := 1; _shape_format := PInt 0; _format := Some (PInt 6409) |}
           (PInt 6409) (PInt 0) (PInt 0) pixels 3 3 [] eq_refl eq_refl eq_refl).
Defined.

(** X6: a 2D texture that has never been sized has no format: [set_data]
    on it raises, whatever the offset and the payload, and nothing is
    printed, called or changed. *)
Theorem texture2D_set_data_unsized (w : world) (self : nat) (t : GlirTexture)
    (offset data : pyval) :
  heap w !! self = Some (Texture2D t) → _format t = None →
  ∃ e, GlirTexture2D_set_data self offset data w = (Raise e, w).
Proof.
  intros Hself Hfmt.
  unfold GlirTexture2D_set_data, get_format, load_texture, bind, load, lift.
  destruct (unpack2 offset) as [yx|e]; [|by eauto].
  destruct data; simpl; eauto.
  rewrite Hself. simpl. rewrite Hfmt. by eauto.
Qed.

Lemma texture2D_set_data_unsized_witness :
  ∃ e, GlirTexture2D_set_data 0 (PTuple [PInt 0; PInt 0])
         (PArray {| arr_dtype := float32; arr_shape := [1; 1]; arr_data := [0] |})
         (parse plain_driver [CREATE 1 (PStr "Texture2D")] initial_world).2
       = (Raise e, (parse plain_driver [CREATE 1 (PStr "Texture2D")] initial_world).2).
Proof.
  apply (texture2D_set_data_unsized _ 0
           {| t_handle := 1; _shape_format := PInt 0; _format := None |});
    reflexivity.
Defined.

(** X7: [set_size] on a 3D texture takes the shape as (depth, height,
    width) and hands the native call width, height, depth; the format is
    recorded before the call, so it stays recorded when PyOpenGL is
    missing and the call is replaced by ImportError. *)
Theorem texture3D_set_size_spec (D : driver) (w : world) (self : nat)
    (t : GlirTexture) (depth height width format : pyval) :
  heap w !! self = Some (Texture3D t) → _shape_format t = PInt 0 →
  let sized := set_heap (<[self := Texture3D (set_format format t)]> (heap w)) w in
  GlirTexture3D_set_size D self (PTuple [depth; height; width]) format w =
    if pyopengl_available D
    then (Ok tt,
          record_call (glTexImage3D GL_TEXTURE_3D 0 format width height depth 0
                         format GL_BYTE) sized)
    else (Raise ImportError, sized).
Proof.
  intros Hself Hsf.
  unfold GlirTexture3D_set_size, load_texture, update_texture, get_format,
    load_texture, glTexImage3D_wrapper, _check_pyopengl_3D, bind, load.
  rewrite Hself. simpl. rewrite Hsf. simpl. rewrite Hself. simpl.
  rewrite list_lookup_insert_eq by (by eapply lookup_lt_Some). simpl.
  by destruct (pyopengl_available D).
Qed.

Lemma texture3D_set_size_spec_witness :
  let w := (parse plain_driver [CREATE 1 (PStr "Texture3D")] initial_world).2 in
  gl_trace (GlirTexture3D_set_size plain_driver 0
              (PTuple [PInt 2; PInt 3; PInt 4]) (PInt 6408) w).2 =
    [glCreateTexture;
     glTexImage3D GL_TEXTURE_3D 0 (PInt 6408) (PInt 4) (PInt 3) (PInt 2) 0
       (PInt 6408) GL_BYTE].
Proof.
  intros w.
  rewrite (texture3D_set_size_spec plain_driver w 0
             {| t_handle := 1; _shape_format := PInt 0; _format := None |}
             (PInt 2) (PInt 3) (PInt 4) (PInt 6408) eq_refl eq_refl).
  reflexivity.
Defined.

(** ** Buffers, continued *)

Lemma py_eqb_PInt_r (v : pyval) (n : Z) :
  py_eqb v (PInt n) = bool_decide (v = PInt n).
Proof.
  destruct v; simpl; try done.
  apply bool_decide_ext. split; [by intros -> | by intros [= ->]].
Qed.

(** X8: [set_data] on a buffer, where the error checks of the ATI
    work-around are not due.  The buffer is bound and the sub-region
    upload tried.  If it works, the buffer is marked as able.  If it
    fails and the payload covers the whole buffer from offset 0, the data
    is sent again with a full glBufferData and the failure is swallowed;
    otherwise the failure is raised again.  A failure is not remembered:
    the buffer is left unmarked and its size is never touched. *)
Theorem buffer_set_data_spec (D : driver) (w : world) (self : nat) (target : Z)
    (b : GlirBuffer) (offset : pyval) (a : ndarray) :
  buffer_at w self = Some (target, b) →
  negb (_bufferSubDataOk b) && ati_bug_platform D = false →
  let binding := glBindBuffer target (b_handle b) in
  let upload := glBufferSubData target offset (PArray a) in
  let r := GlirBuffer_set_data D self offset (PArray a) w in
  if gl_fails D (gl_trace w ++ [binding]) upload then
    if bool_decide (offset = PInt 0)
       && bool_decide (_buffer_size b = PInt (arr_nbytes a))
    then r.1 = Ok tt ∧
         gl_trace r.2 =
           (gl_trace w ++
            [binding; upload; glBufferData target (PArray a) GL_DYNAMIC_DRAW])%list ∧
         stdout r.2 = (stdout w ++ [debug_using_glBufferData])%list ∧
         buffer_at r.2 self = Some (target, b)
    else r.1 = Raise (GLError "gl") ∧
         gl_trace r.2 = (gl_trace w ++ [binding; upload])%list ∧
         stdout r.2 = stdout w ∧
         buffer_at r.2 self = Some (target, b)
  else r.1 = Ok tt ∧
       gl_trace r.2 = (gl_trace w ++ [binding; upload])%list ∧
       stdout r.2 = stdout w ∧
       buffer_at r.2 self = Some (target, set_bufferSubDataOk true b).
Proof.
  intros Hb Hcheck. unfold buffer_at in Hb. simpl.
  unfold GlirBuffer_set_data, load_buffer, update_buffer, try_except, bind,
    load, gl_call, gl_call_fallible, buffer_at.
  destruct (heap w !! self) as [[b0|b0| | |]|] eqn:Hself; try done;
    injection Hb as <- <-; cbn -[py_eqb]; rewrite Hcheck; cbn -[py_eqb];
    (destruct (gl_fails D _ _); cbn -[py_eqb]; rewrite Hself; cbn -[py_eqb];
     [rewrite py_eqb_PInt_r, py_eqb_PInt;
      destruct (bool_decide (offset = PInt 0)
                && bool_decide (_buffer_size b0 = PInt (arr_nbytes a)));
      cbn; rewrite <- ?app_assoc; rewrite ?Hself; done
     |rewrite <- ?app_assoc;
      rewrite list_lookup_insert_eq by (by eapply lookup_lt_Some); done]).
Qed.

Lemma buffer_set_data_spec_witness :
  let D := with_failures plain_driver
             (λ _ c, match c with glBufferSubData _ _ _ => true | _ => false end) in
  let a := {| arr_dtype := float32; arr_shape := [1]; arr_data := [7] |} in
  let w := (parse D [CREATE 1 (PStr "VERTEXBUFFER"); SIZE 1 [PInt 4]]
              initial_world).2 in
  let r := GlirBuffer_set_data D 0 (PInt 0) (PArray a) w in
  r.1 = Ok tt ∧
  gl_trace r.2 =
    (gl_trace w ++
     [glBindBuffer GL_ARRAY_BUFFER 1;
      glBufferSubData GL_ARRAY_BUFFER (PInt 0) (PArray a);
      glBufferData GL_ARRAY_BUFFER (PArray a) GL_DYNAMIC_DRAW])%list ∧
  stdout r.2 = (stdout w ++ [debug_using_glBufferData])%list ∧
  buffer_at r.2 0 =
    Some (GL_ARRAY_BUFFER,
          {| b_handle := 1; _buffer_size := PInt 4; _bufferSubDataOk := false |}).
Proof.
  intros D a w.
  exact (buffer_set_data_spec D w 0 GL_ARRAY_BUFFER
           {| b_handle := 1; _buffer_size := PInt 4; _bufferSubDataOk := false |}
           (PInt 0) a eq_refl eq_refl).
Defined.

(** ** Programs, continued *)

Lemma program_at_Some (w : world) (self : nat) (p : GlirProgram) :
  program_at w self = Some p ↔ heap w !! self = Some (Program p).
Proof.
  unfold program_at. destruct (heap w !! self) as [[]|]; split; congruence.
Qed.

(** X9: validation happens on the first activation only, and the program
    counts as validated from the moment validation starts: for a program
    with no sampler and no attribute buffer bound, [activate] leaves it
    marked validated whatever the outcome, calls glValidateProgram once
    if it was not marked and never if it was, and raises RuntimeError
    exactly when that one validation reports status 0. *)
Theorem activate_validates_once (D : driver) (callback : nat → M unit)
    (w : world) (self : nat) (p : GlirProgram) :
  heap w !! self = Some (Program p) →
  _samplers p = [] → _buffers p = [] →
  _current_program w ≠ CP_absent →
  let r := GlirProgram_activate D callback self w in
  let used := (gl_trace w ++
               if bool_decide (_current_program w = CP_builtin_id) then []
               else [glUseProgram (p_handle p)])%list in
  let status := gl_int D (used ++ [glValidateProgram (p_handle p)])
                  (glGetProgramParameter (p_handle p) GL_VALIDATE_STATUS) in
  program_at r.2 self = Some (set_validated true p) ∧
  _current_program r.2 = CP_builtin_id ∧
  List.filter is_glValidateProgram (gl_trace r.2) =
    (List.filter is_glValidateProgram (gl_trace w) ++
     if _validated p then [] else [glValidateProgram (p_handle p)])%list ∧
  r.1 = if negb (_validated p) && bool_decide (status = 0)
        then Raise (RuntimeError "Program validation error")
        else Ok tt.
Proof.
  intros Hself Hsam Hbuf Hcp. simpl.
  destruct (use_this_program_run w self p Hself Hcp)
    as (w1 & Huse & Hheap1 & _ & Hcp1 & Htrace1).
  assert (heap w1 !! self = Some (Program p)) as Hself1 by by rewrite Hheap1.
  assert (List.filter is_glValidateProgram (gl_trace w1)
          = List.filter is_glValidateProgram (gl_trace w)) as Hf1.
  { rewrite Htrace1, List.filter_app. case_bool_decide; simpl; by rewrite app_nil_r. }
  unfold GlirProgram_activate.
  erewrite bind_ok by exact Huse.
  erewrite bind_ok by by apply load_program_eq.
  rewrite Hsam. simpl for_each. erewrite bind_ok by reflexivity.
  erewrite bind_ok by by apply load_program_eq.
  rewrite Hbuf. simpl for_each. erewrite bind_ok by reflexivity.
  erewrite bind_ok by by apply load_program_eq.
  destruct (_validated p) eqn:Hval.
  - change (negb true) with false. cbv iota. unfold ret. simpl. rewrite app_nil_r.
    split; [|done]. apply program_at_Some. rewrite Hself1.
    destruct p; simpl in *; by subst.
  - change (negb false) with true. cbv iota.
    erewrite bind_ok by by apply update_program_eq.
    erewrite bind_ok by (apply load_program_eq; by eapply lookup_stored).
    rewrite <- Htrace1. simpl.
    assert (∀ w2, heap w2 = <[self := Program (set_validated true p)]> (heap w1) →
                  program_at w2 self = Some (set_validated true p)) as Hprog.
    { intros w2 Hw2. apply program_at_Some. rewrite Hw2.
      apply list_lookup_insert_eq. by eapply lookup_lt_Some. }
    unfold bind, print, gl_call, gl_call_int, gl_call_str, ret, raise.
    repeat case_bool_decide; simpl;
      rewrite ?List.filter_app, ?Hf1; simpl; rewrite ?app_nil_r;
      (split; [by apply Hprog|done]).
Qed.

Lemma activate_validates_once_witness :
  let D := with_ints plain_driver
             (λ _ c, match c with
                     | glGetProgramParameter _ pname =>
                         if bool_decide (pname = GL_VALIDATE_STATUS) then Some 0
                         else None
                     | _ => None
                     end) in
  let w := (parse D [CREATE 1 (PStr "PROGRAM")] initial_world).2 in
  let r := GlirProgram_activate D (activate D 1000) 0 w in
  r.1 = Raise (RuntimeError "Program validation error") ∧
  program_at r.2 0 =
    Some {| p_handle := 1; _validated := true; _handles := ∅;
            _unset_variables := ∅; _samplers := []; _buffers := [] |}.
Proof.
  intros D w r.
  pose proof (activate_validates_once D (activate D 1000) w 0
                {| p_handle := 1; _validated := false; _handles := ∅;
                   _unset_variables := ∅; _samplers := []; _buffers := [] |}
                eq_refl eq_refl eq_refl ltac:(discriminate)) as (H1 & _ & _ & H4).
  split; [exact H4 | exact H1].
Defined.

(** The prologue of [set_uniform] and [set_attribute] on a variable the
    driver does not know. *)
Lemma resolve_handle_inactive (D : driver) (w : world) (self : nat)
    (p : GlirProgram) (name : string) (query : Z → string → glcall)
    (warning : output) :
  heap w !! self = Some (Program p) →
  default (-1) (_handles p !! name) < 0 →
  gl_int D (gl_trace w) (query (p_handle p) name) < 0 →
  resolve_handle D self name query warning w =
    (Ok None,
     extend_stdout [warning]
       (set_heap
          (<[self := Program
                       (set_handles
                          (<[name := gl_int D (gl_trace w) (query (p_handle p) name)]>
                             (_handles p))
                          (set_unset_variables (_unset_variables p ∖ {[name]}) p))]>
             (heap w))
          (record_call (query (p_handle p) name) w))).
Proof.
  intros Hself Hcached Hloc. unfold resolve_handle.
  erewrite bind_ok by by apply load_program_eq.
  cbv zeta. rewrite bool_decide_eq_true_2 by done.
  unfold bind at 1, gl_call_int at 1.
  erewrite bind_ok by by apply update_program_eq.
  erewrite bind_ok by (apply update_program_eq; by eapply lookup_stored).
  rewrite bool_decide_eq_true_2 by done.
  unfold bind, print, ret, extend_stdout. simpl.
  by rewrite list_insert_insert_eq.
Qed.

(** X10: a uniform the linked program does not have.  When no usable
    location is cached and the driver answers a negative one, [set_uniform]
    warns and returns: no uniform is set, whatever the type and the value
    (an unknown type is not even noticed).  The name is nevertheless
    struck from the unset variables, and the negative location is cached
    as unusable, so the next call asks the driver and warns again. *)
Theorem set_uniform_inactive (D : driver) (w : world) (self : nat)
    (p : GlirProgram) (name : string) (type value : pyval) :
  heap w !! self = Some (Program p) →
  default (-1) (_handles p !! name) < 0 →
  let query := glGetUniformLocation (p_handle p) name in
  let location := gl_int D (gl_trace w) query in
  location < 0 →
  let p' := set_handles (<[name := location]> (_handles p))
              (set_unset_variables (_unset_variables p ∖ {[name]}) p) in
  GlirProgram_set_uniform D self name type value w =
    (Ok tt,
     extend_stdout [warn_not_active_uniform name]
       (set_heap (<[self := Program p']> (heap w)) (record_call query w))) ∧
  default (-1) (_handles p' !! name) < 0.
Proof.
  intros Hself Hcached query location Hloc p'. split.
  - unfold GlirProgram_set_uniform.
    by erewrite bind_ok by by apply resolve_handle_inactive.
  - unfold p'. simpl. by rewrite lookup_insert_eq.
Qed.

Lemma set_uniform_inactive_witness :
  let D := with_ints plain_driver
             (λ _ c, match c with glGetUniformLocation _ _ => Some (-1) | _ => None end) in
  let w := (parse D [CREATE 1 (PStr "PROGRAM")] initial_world).2 in
  (GlirProgram_set_uniform D 0 "color" (PStr "no such type") PNone w).1 = Ok tt ∧
  stdout (GlirProgram_set_uniform D 0 "color" (PStr "no such type") PNone w).2
    = [warn_not_active_uniform "color"].
Proof.
  intros D w.
  destruct (set_uniform_inactive D w 0
              {| p_handle := 1; _validated := false; _handles := ∅;
                 _unset_variables := ∅; _samplers := []; _buffers := [] |}
              "color" (PStr "no such type") PNone eq_refl eq_refl eq_refl) as [-> _].
  split; reflexivity.
Defined.

(** X11: a sampler uniform the program has, set to a value that is not
    the handle of a registered object.  An integer raises RuntimeError
    with a message that shows it; None or a string raises TypeError,
    because the message cannot be formatted.  Either way the sampler map
    is not touched: the previous binding of that name, if any, stays, and
    nothing is sent to the uniform. *)
Theorem set_uniform_missing_texture (D : driver) (w : world) (self : nat)
    (p : GlirProgram) (name type : string) (value : pyval) :
  heap w !! self = Some (Program p) →
  0 ≤ location_of D w p name glGetUniformLocation →
  type = "sampler2D" ∨ type = "sampler3D" →
  match value with
  | PInt i => _objects w !! i = None
  | PNone | PStr _ => True
  | _ => False
  end →
  _current_program w ≠ CP_absent →
  let r := GlirProgram_set_uniform D self name (PStr type) value w in
  r.1 = match value with
        | PInt i => Raise (RuntimeError ("Could not find texture with id " ++ pretty i))
        | _ => Raise TypeError
        end ∧
  (∃ p', heap r.2 = <[self := Program p']> (heap w) ∧
         _samplers p' = _samplers p ∧ _buffers p' = _buffers p) ∧
  List.filter is_uniform_call (gl_trace r.2) = List.filter is_uniform_call (gl_trace w).
Proof.
  intros Hself Hloc Htype Hvalue Hcp.
  destruct (located_facts D w self p name glGetUniformLocation Hself)
    as (Hheap0 & Hself0 & Hsam0 & Hbuf0 & _ & _ & Hobj0 & Hcp0 & _ & _ & Htrace0).
  set (p0 := (located D w self p name glGetUniformLocation).1) in *.
  set (w0 := (located D w self p name glGetUniformLocation).2) in *.
  assert (_current_program w0 ≠ CP_absent) as Hcp' by by rewrite Hcp0.
  destruct (use_this_program_run w0 self p0 Hself0 Hcp')
    as (w1 & Huse & Hheap1 & Hobj1 & _ & Htrace1).
  assert (subscript UTYPEMAP (PStr type) w0 = (Ok "glUniform1i", w0)) as Hsub
    by by destruct Htype as [-> | ->].
  assert (startswith "mat" (PStr type) = false) as Hmat
    by by destruct Htype as [-> | ->].
  assert (startswith "sampler" (PStr type) = true) as Hsampler
    by by destruct Htype as [-> | ->].
  assert (get_object value w1 = (Ok None, w1)) as Hget.
  { unfold get_object, bind, get_world.
    destruct value; try done. by rewrite Hobj1, Hobj0, Hvalue. }
  simpl. unfold GlirProgram_set_uniform.
  erewrite bind_ok by by apply resolve_handle_active.
  cbv beta iota. fold w0. erewrite bind_ok by exact Hsub.
  erewrite bind_ok by exact Huse.
  rewrite Hmat, Hsampler.
  erewrite bind_ok by exact Hget.
  cbv beta iota. unfold bind, lift, raise.
  assert (List.filter is_uniform_call (gl_trace w1)
          = List.filter is_uniform_call (gl_trace w)) as Hfilter.
  { rewrite Htrace1, Htrace0, !List.filter_app.
    repeat case_bool_decide; simpl; by rewrite ?app_nil_r. }
  destruct value; try done; simpl;
    (split; [done|]; split; [|done]; exists p0; by rewrite Hheap1).
Qed.

Lemma set_uniform_missing_texture_witness :
  let w := (parse plain_driver
              [CREATE 1 (PStr "PROGRAM"); CREATE 2 (PStr "Texture2D");
               UNIFORM 1 "tex" "sampler2D" (PInt 2)] initial_world).2 in
  (GlirProgram_set_uniform plain_driver 0 "tex" (PStr "sampler2D") (PInt 9) w).1
    = Raise (RuntimeError "Could not find texture with id 9") ∧
  (GlirProgram_set_uniform plain_driver 0 "other" (PStr "sampler2D") PNone w).1
    = Raise TypeError.
Proof.
  intros w.
  set (p := {| p_handle := 1; _validated := false; _handles := {[ "tex" := 0 ]};
               _unset_variables := ∅; _samplers := [("tex", (1%nat, 1))];
               _buffers := [] |}).
  assert (heap w !! 0%nat = Some (Program p)) as Hself by (vm_compute; reflexivity).
  assert (_current_program w ≠ CP_absent) as Hcp by (vm_compute; discriminate).
  split.
  - destruct (set_uniform_missing_texture plain_driver w 0 p "tex" "sampler2D" (PInt 9))
      as (H1 & _); [exact Hself | vm_compute; discriminate | by left
                   | vm_compute; reflexivity | exact Hcp |].
    exact H1.
  - destruct (set_uniform_missing_texture plain_driver w 0 p "other" "sampler2D" PNone)
      as (H1 & _); [exact Hself | vm_compute; discriminate | by left
                   | exact I | exact Hcp |].
    exact H1.
Defined.

(** [activate] on a buffer object binds it. *)
Lemma activate_buffer (D : driver) (w : world) (vbo : nat) (target : Z)
    (b : GlirBuffer) :
  recursion_limit D ≠ 0%nat → buffer_at w vbo = Some (target, b) →
  activate D (recursion_limit D) vbo w
    = (Ok tt, record_call (glBindBuffer target (b_handle b)) w).
Proof.
  intros Hlimit Hb. destruct (recursion_limit D) as [|depth]; [done|].
  unfold buffer_at in Hb. simpl.
  unfold bind, load, GlirBuffer_activate, load_buffer, bind, load.
  destruct (heap w !! vbo) as [[b0|b0| | |]|] eqn:Hvbo; try done;
    injection Hb as <- <-; simpl; by rewrite Hvbo.
Qed.

(** X12: an attribute backed by a buffer.  With the location known, a
    value (id, stride, offset) whose id is a registered buffer other than
    0 binds that buffer, enables the array, sets the pointer with the
    component count of the type, and records the buffer under the name,
    replacing what the name had and leaving the other names alone. *)
Theorem set_attribute_binds_buffer (D : driver) (w : world) (self vbo : nat)
    (p : GlirProgram) (name type : string) (location vbo_id size gtype target : Z)
    (b : GlirBuffer) (stride offset : pyval) :
  heap w !! self = Some (Program p) →
  _handles p !! name = Some location → 0 ≤ location →
  _current_program w ≠ CP_absent → recursion_limit D ≠ 0%nat →
  ATYPEINFO !! type = Some (size, gtype) →
  vbo_id ≠ 0 → _objects w !! vbo_id = Some vbo →
  buffer_at w vbo = Some (target, b) →
  ∃ w1 w',
    use_this_program self w = (Ok tt, w1) ∧
    GlirProgram_set_attribute D self name (PStr type)
      (PTuple [PInt vbo_id; stride; offset]) w = (Ok tt, w') ∧
    gl_trace w' =
      (gl_trace w1 ++
       [glBindBuffer target (b_handle b);
        glEnableVertexAttribArray location;
        glVertexAttribPointer location size gtype GL_FALSE stride offset])%list ∧
    (∃ p', program_at w' self = Some p' ∧
           dict_get name (_buffers p') = Some vbo ∧
           (∀ other, other ≠ name →
                     dict_get other (_buffers p') = dict_get other (_buffers p)) ∧
           _samplers p' = _samplers p).
Proof.
  intros Hself Hloc Hpos Hcp Hlimit Hinfo Hid Hobj Hb.
  destruct (use_this_program_run w self p Hself Hcp)
    as (w1 & Huse & Hheap1 & Hobj1 & _ & _).
  assert (buffer_at w1 vbo = Some (target, b)) as Hb1
    by (unfold buffer_at in *; by rewrite Hheap1).
  exists w1. eexists. split; [done|]. split.
  - unfold GlirProgram_set_attribute.
    erewrite bind_ok by by eapply resolve_handle_cached.
    cbv beta iota. erewrite bind_ok by exact Huse.
    erewrite bind_ok by reflexivity.
    rewrite py_eqb_PInt, bool_decide_eq_false_2 by (intros [= ?]; done).
    erewrite bind_ok by reflexivity.
    erewrite bind_ok by (unfold subscript; by rewrite Hinfo).
    erewrite bind_ok
      by (unfold get_object, bind, get_world; simpl; by rewrite Hobj1, Hobj).
    cbv beta iota. erewrite bind_ok by by apply activate_buffer.
    unfold bind at 1, gl_call at 1. unfold bind at 1, gl_call at 1.
    erewrite update_program_eq by (simpl; by rewrite Hheap1).
    reflexivity.
  - simpl. rewrite <- !app_assoc. split; [done|].
    eexists. split.
    + apply program_at_Some. simpl. rewrite Hheap1.
      apply list_lookup_insert_eq. by eapply lookup_lt_Some.
    + simpl. split; [apply dict_get_set|]. split; [|done].
      intros other Hne. by apply dict_get_set_ne.
Qed.

Lemma set_attribute_binds_buffer_witness :
  let w := (parse plain_driver
              [CREATE 1 (PStr "PROGRAM"); CREATE 2 (PStr "VERTEXBUFFER");
               {| cmd := "ATTRIBUTE"; id := 1;
                  args := [PStr "pos"; PStr "vec3";
                           PTuple [PInt 0; PInt 1; PInt 2; PInt 3]] |}]
              initial_world).2 in
  ∃ w', GlirProgram_set_attribute plain_driver 0 "pos" (PStr "vec3")
          (PTuple [PInt 2; PInt 12; PInt 0]) w = (Ok tt, w') ∧
        ∃ p', program_at w' 0 = Some p' ∧ dict_get "pos" (_buffers p') = Some 1%nat.
Proof.
  intros w.
  destruct (set_attribute_binds_buffer plain_driver w 0 1
              {| p_handle := 1; _validated := false; _handles := {[ "pos" := 0 ]};
                 _unset_variables := ∅; _samplers := []; _buffers := [] |}
              "pos" "vec3" 0 2 3 GL_FLOAT GL_ARRAY_BUFFER
              {| b_handle := 2; _buffer_size := PInt 0; _bufferSubDataOk := false |}
              (PInt 12) (PInt 0))
    as (w1 & w' & _ & Hrun & _ & p' & Hp' & Hget & _).
  - vm_compute. reflexivity.
  - vm_compute. reflexivity.
  - lia.
  - discriminate.
  - discriminate.
  - vm_compute. reflexivity.
  - lia.
  - vm_compute. reflexivity.
  - vm_compute. reflexivity.
  - exists w'. split; [exact Hrun|]. exists p'. by split.
Defined.

(** X13: an attribute set to a constant.  With the location known, a
    value whose first element is 0 disables the array, hands the
    remaining elements to the setter of the type, however many they are,
    and forgets the buffer the name was backed by; the other names keep
    theirs.  A value (0, stride, offset) is read this way too: the buffer
    registered under handle 0 cannot back an attribute. *)
Theorem set_attribute_constant_unbinds (D : driver) (w : world) (self : nat)
    (p : GlirProgram) (name type funcname : string) (location : Z)
    (constants : list pyval) :
  heap w !! self = Some (Program p) →
  _handles p !! name = Some location → 0 ≤ location →
  _current_program w ≠ CP_absent →
  ATYPEMAP !! type = Some funcname →
  ∃ w1 w',
    use_this_program self w = (Ok tt, w1) ∧
    GlirProgram_set_attribute D self name (PStr type)
      (PTuple (PInt 0 :: constants)) w = (Ok tt, w') ∧
    gl_trace w' =
      (gl_trace w1 ++
       [glDisableVertexAttribArray location;
        glVertexAttrib funcname location constants])%list ∧
    (∃ p', program_at w' self = Some p' ∧
           dict_get name (_buffers p') = None ∧
           (∀ other, other ≠ name →
                     dict_get other (_buffers p') = dict_get other (_buffers p)) ∧
           _samplers p' = _samplers p).
Proof.
  intros Hself Hloc Hpos Hcp Hmap.
  destruct (use_this_program_run w self p Hself Hcp)
    as (w1 & Huse & Hheap1 & Hobj1 & _ & _).
  exists w1. eexists. split; [done|]. split.
  - unfold GlirProgram_set_attribute.
    erewrite bind_ok by by eapply resolve_handle_cached.
    cbv beta iota. erewrite bind_ok by exact Huse.
    erewrite bind_ok by reflexivity.
    rewrite py_eqb_PInt, bool_decide_eq_true_2 by done.
    erewrite bind_ok by (unfold subscript; by rewrite Hmap).
    unfold bind at 1, gl_call at 1.
    erewrite bind_ok by reflexivity.
    unfold bind at 1, gl_call at 1.
    erewrite update_program_eq by (simpl; by rewrite Hheap1).
    reflexivity.
  - simpl. rewrite <- !app_assoc. split; [done|].
    eexists. split.
    + apply program_at_Some. simpl. rewrite Hheap1.
      apply list_lookup_insert_eq. by eapply lookup_lt_Some.
    + simpl. split; [apply dict_get_pop|]. split; [|done].
      intros other Hne. by apply dict_get_pop_ne.
Qed.

Lemma set_attribute_constant_unbinds_witness :
  let w := (parse plain_driver
              [CREATE 1 (PStr "PROGRAM"); CREATE 2 (PStr "VERTEXBUFFER");
               {| cmd := "ATTRIBUTE"; id := 1;
                  args := [PStr "pos"; PStr "vec3";
                           PTuple [PInt 2; PInt 12; PInt 0]] |}]
              initial_world).2 in
  ∃ w', GlirProgram_set_attribute plain_driver 0 "pos" (PStr "vec3")
          (PTuple [PInt 0; PInt 1; PInt 2; PInt 3]) w = (Ok tt, w') ∧
        ∃ p', program_at w' 0 = Some p' ∧ dict_get "pos" (_buffers p') = None.
Proof.
  intros w.
  destruct (set_attribute_constant_unbinds plain_driver w 0
              {| p_handle := 1; _validated := false; _handles := {[ "pos" := 0 ]};
                 _unset_variables := ∅; _samplers := [];
                 _buffers := [("pos", 1%nat)] |}
              "pos" "vec3" "glVertexAttrib3f" 0 [PInt 1; PInt 2; PInt 3])
    as (w1 & w' & _ & Hrun & _ & p' & Hp' & Hget & _).
  - vm_compute. reflexivity.
  - vm_compute. reflexivity.
  - lia.
  - discriminate.
  - vm_compute. reflexivity.
  - exists w'. split; [exact Hrun|]. exists p'. by split.
Defined.

(** [deactivate] on a buffer object unbinds its target. *)
Lemma deactivate_buffer (w : world) (vbo : nat) (target : Z) (b : GlirBuffer) :
  buffer_at w vbo = Some (target, b) →
  deactivate vbo w = (Ok tt, record_call (glBindBuffer target 0) w).
Proof.
  intros Hb. unfold buffer_at in Hb.
  unfold deactivate, GlirBuffer_deactivate, load_buffer, bind, load.
  destruct (heap w !! vbo) as [[b0|b0| | |]|] eqn:Hvbo; try done;
    injection Hb as <- <-; simpl; by rewrite Hvbo.
Qed.

(** [activate] on a validated program without bindings only makes it
    current. *)
Lemma activate_validated (D : driver) (callback : nat → M unit) (w w1 : world)
    (self : nat) (p : GlirProgram) :
  heap w !! self = Some (Program p) →
  _samplers p = [] → _buffers p = [] → _validated p = true →
  use_this_program self w = (Ok tt, w1) → heap w1 = heap w →
  GlirProgram_activate D callback self w = (Ok tt, w1).
Proof.
  intros Hself Hsam Hbuf Hval Huse Hheap1.
  assert (heap w1 !! self = Some (Program p)) as Hself1 by by rewrite Hheap1.
  unfold GlirProgram_activate.
  erewrite bind_ok by exact Huse.
  erewrite bind_ok by by apply load_program_eq.
  rewrite Hsam. simpl for_each. erewrite bind_ok by reflexivity.
  erewrite bind_ok by by apply load_program_eq.
  rewrite Hbuf. simpl for_each. erewrite bind_ok by reflexivity.
  erewrite bind_ok by by apply load_program_eq.
  by rewrite Hval.
Qed.

(** X14: [draw] on a validated program without bindings, with a driver
    that reports no error.  A selection of three elements (id, type,
    count) binds the index buffer registered under id, issues one indexed
    draw and unbinds that buffer; a selection of two elements (first,
    count) issues one array draw and touches no index buffer.  Either is
    framed by the two error checks and followed by the unbinding of the
    array buffer. *)
Theorem draw_indexed_or_arrays (D : driver) (w : world) (self ibuf : nat)
    (p : GlirProgram) (mode gtype count first : pyval) (i target : Z)
    (b : GlirBuffer) :
  heap w !! self = Some (Program p) →
  _samplers p = [] → _buffers p = [] → _validated p = true →
  _current_program w ≠ CP_absent → recursion_limit D ≠ 0%nat →
  (∀ trace c, gl_fails D trace c = false) →
  _objects w !! i = Some ibuf → buffer_at w ibuf = Some (target, b) →
  ∃ w1,
    use_this_program self w = (Ok tt, w1) ∧
    GlirProgram_draw D self mode (PTuple [PInt i; gtype; count]) w =
      (Ok tt,
       extend_trace
         [check_error "Check before draw";
          glBindBuffer target (b_handle b);
          glDrawElements mode count gtype;
          glBindBuffer target 0;
          check_error "Check after draw";
          glBindBuffer GL_ARRAY_BUFFER 0] w1) ∧
    GlirProgram_draw D self mode (PTuple [first; count]) w =
      (Ok tt,
       extend_trace
         [check_error "Check before draw";
          glDrawArrays mode first count;
          check_error "Check after draw";
          glBindBuffer GL_ARRAY_BUFFER 0] w1).
Proof.
  intros Hself Hsam Hbuf Hval Hcp Hlimit Hfails Hobj Hb.
  destruct (use_this_program_run w self p Hself Hcp)
    as (w1 & Huse & Hheap1 & Hobj1 & _ & _).
  assert (∀ c w0, gl_call_fallible D c w0 = (Ok tt, record_call c w0)) as Hcall.
  { intros c w0. unfold gl_call_fallible. by rewrite Hfails. }
  exists w1. split; [done|]. split.
  - unfold GlirProgram_draw.
    erewrite bind_ok by by eapply activate_validated.
    erewrite bind_ok by apply Hcall.
    erewrite bind_ok by reflexivity.
    rewrite bool_decide_eq_true_2 by done.
    erewrite bind_ok.
    2:{ erewrite bind_ok by reflexivity.
        erewrite bind_ok
          by (unfold get_object, bind, get_world; simpl; by rewrite Hobj1, Hobj).
        cbv beta iota.
        erewrite bind_ok
          by (apply activate_buffer; [done|];
              unfold buffer_at in *; simpl; by rewrite Hheap1).
        unfold bind at 1, gl_call at 1.
        apply (deactivate_buffer _ _ target b).
        unfold buffer_at in *. simpl. by rewrite Hheap1. }
    erewrite bind_ok by apply Hcall.
    unfold GlirProgram_deactivate, gl_call, extend_trace, record_call. simpl.
    by rewrite <- !app_assoc.
  - unfold GlirProgram_draw.
    erewrite bind_ok by by eapply activate_validated.
    erewrite bind_ok by apply Hcall.
    erewrite bind_ok by reflexivity.
    rewrite bool_decide_eq_false_2 by done.
    erewrite bind_ok by (erewrite bind_ok by reflexivity; reflexivity).
    erewrite bind_ok by apply Hcall.
    unfold GlirProgram_deactivate, gl_call, extend_trace, record_call. simpl.
    by rewrite <- !app_assoc.
Qed.

Lemma draw_indexed_or_arrays_witness :
  let w := (parse plain_driver
              [CREATE 1 (PStr "PROGRAM"); CREATE 2 (PStr "INDEXBUFFER");
               ACTIVATE 1] initial_world).2 in
  ∃ w1, GlirProgram_draw plain_driver 0 (PInt 4)
          (PTuple [PInt 2; PInt 5123; PInt 6]) w =
        (Ok tt,
         extend_trace
           [check_error "Check before draw";
            glBindBuffer GL_ELEMENT_ARRAY_BUFFER 2;
            glDrawElements (PInt 4) (PInt 6) (PInt 5123);
            glBindBuffer GL_ELEMENT_ARRAY_BUFFER 0;
            check_error "Check after draw";
            glBindBuffer GL_ARRAY_BUFFER 0] w1).
Proof.
  intros w.
  destruct (draw_indexed_or_arrays plain_driver w 0 1
              {| p_handle := 1; _validated := true; _handles := ∅;
                 _unset_variables := ∅; _samplers := []; _buffers := [] |}
              (PInt 4) (PInt 5123) (PInt 6) (PInt 0) 2 GL_ELEMENT_ARRAY_BUFFER
              {| b_handle := 2; _buffer_size := PInt 0; _bufferSubDataOk := false |})
    as (w1 & _ & Hdraw & _).
  - vm_compute. reflexivity.
  - reflexivity.
  - reflexivity.
  - reflexivity.
  - discriminate.
  - discriminate.
  - reflexivity.
  - vm_compute. reflexivity.
  - vm_compute. reflexivity.
  - exists w1. exact Hdraw.
Defined.

(** One stage of [set_shaders], in closed form. *)
Lemma compile_stage_cases (D : driver) (code : pyval) (handle : Z) (type : string)
    (w : world) :
  let calls := [glShaderSource handle code; glCompileShader handle;
                glGetShaderParameter handle GL_COMPILE_STATUS] in
  let errors := gl_str D (gl_trace w ++ calls) (glGetShaderInfoLog handle) in
  compile_stage D code handle type w = (Ok tt, extend_trace calls w) ∨
  compile_stage D code handle type w =
    (Raise match _get_error code errors 4 with
           | Ok errormsg =>
               RuntimeError ("Shader compilation error in " ++ type ++ " shader:"
                             ++ String newline errormsg)
           | Raise e => e
           end,
     extend_trace (calls ++ [glGetShaderInfoLog handle]) w).
Proof.
  simpl. unfold compile_stage, bind, gl_call, gl_call_int, gl_call_str, lift,
    raise, extend_trace, record_call. simpl.
  case_bool_decide.
  - right. rewrite <- !app_assoc. simpl.
    destruct (_get_error code _ 4); rewrite <- ?app_assoc; [|done].
    rewrite string_app_assoc. reflexivity.
  - left. by rewrite <- !app_assoc.
Qed.

Lemma collect_active_ok (D : driver) (func : Z → Z → glcall) (h : Z)
    (indices : list Z) :
  ∀ container w, ∃ names calls,
    collect_active D func h indices container w = (Ok names, extend_trace calls w).
Proof.
  induction indices as [|i rest IH]; intros container w; simpl.
  - exists container, []. by rewrite extend_trace_nil.
  - unfold bind at 1, gl_call_active at 1.
    edestruct IH as (names & calls & ->).
    exists names. eexists. by rewrite extend_trace_record.
Qed.

Lemma get_active_ok (D : driver) (w : world) (self : nat) (p : GlirProgram) :
  heap w !! self = Some (Program p) →
  ∃ names calls,
    _get_active_attributes_and_uniforms D self w = (Ok names, extend_trace calls w).
Proof.
  intros Hself. unfold _get_active_attributes_and_uniforms.
  erewrite bind_ok by by apply load_program_eq.
  unfold bind at 1, gl_call_int at 1. unfold bind at 1, gl_call_int at 1.
  edestruct (collect_active_ok D glGetActiveAttrib) as (attrs & calls1 & Hattrs).
  erewrite bind_ok by exact Hattrs.
  edestruct (collect_active_ok D glGetActiveUniform) as (unifs & calls2 & Hunifs).
  erewrite bind_ok by exact Hunifs.
  eexists. eexists. unfold ret. f_equal.
  unfold extend_trace, record_call. simpl. by rewrite <- !app_assoc.
Qed.

(** X15: when [set_shaders] fails, by a compile error of either stage or
    by a link error, the program object is exactly what it was (location
    cache, unset variables and bindings included) and so is every other
    object; the two shader objects created for the attempt are not
    deleted.  A link error raises RuntimeError with a fixed message.  A
    compile error is raised right after the log of the stage has been
    read: RuntimeError with the stage named and the text [_get_error]
    makes of the source and that log, or what [_get_error] raises. *)
Theorem set_shaders_failure (D : driver) (w w' : world) (self : nat)
    (p : GlirProgram) (vert frag : pyval) (e : exception) :
  heap w !! self = Some (Program p) →
  GlirProgram_set_shaders D self vert frag w = (Raise e, w') →
  heap w' = heap w ∧ _objects w' = _objects w ∧
  List.filter is_glCreateShader (gl_trace w') =
    (List.filter is_glCreateShader (gl_trace w) ++
     [glCreateShader GL_VERTEX_SHADER; glCreateShader GL_FRAGMENT_SHADER])%list ∧
  List.filter is_glDeleteShader (gl_trace w') =
    List.filter is_glDeleteShader (gl_trace w) ∧
  (e = RuntimeError "Program linking error" ∨
   ∃ stage code trace shader,
     (stage = "vertex" ∧ code = vert ∨ stage = "fragment" ∧ code = frag) ∧
     gl_trace w' = (trace ++ [glGetShaderInfoLog shader])%list ∧
     match _get_error code (gl_str D trace (glGetShaderInfoLog shader)) 4 with
     | Ok errormsg =>
         e = RuntimeError ("Shader compilation error in " ++ stage ++ " shader:"
                           ++ String newline errormsg)
     | Raise e' => e = e'
     end).
Proof.
  intros Hself Hrun.
  unfold GlirProgram_set_shaders in Hrun.
  unfold bind at 1, gl_call_int at 1 in Hrun.
  unfold bind at 1, gl_call_int at 1 in Hrun.
  match type of Hrun with
  | bind (compile_stage D ?c ?h ?t) _ ?w0 = _ =>
      destruct (compile_stage_cases D c h t w0) as [Hc|Hc]
  end.
  2:{ erewrite bind_raise in Hrun by exact Hc. injection Hrun as <- <-.
      simpl. rewrite !List.filter_app. simpl. rewrite !app_nil_r.
      repeat split; try done; try (by rewrite <- !app_assoc).
      right. exists "vertex", vert.
      match goal with
      | |- ∃ _ _, _ ∧ ((?X ++ [?a; ?b; ?c; glGetShaderInfoLog ?h])%list = _) ∧ _ =>
          exists (X ++ [a; b; c])%list, h
      end.
      split; [by left|]. split; [by rewrite <- !app_assoc|].
      by destruct (_get_error vert _ 4). }
  erewrite bind_ok in Hrun by exact Hc.
  match type of Hrun with
  | bind (compile_stage D ?c ?h ?t) _ ?w0 = _ =>
      destruct (compile_stage_cases D c h t w0) as [Hc2|Hc2]
  end.
  2:{ erewrite bind_raise in Hrun by exact Hc2. injection Hrun as <- <-.
      simpl. rewrite !List.filter_app. simpl. rewrite !app_nil_r.
      repeat split; try done; try (by rewrite <- !app_assoc).
      right. exists "fragment", frag.
      match goal with
      | |- ∃ _ _, _ ∧ ((?X ++ [?a; ?b; ?c; glGetShaderInfoLog ?h])%list = _) ∧ _ =>
          exists (X ++ [a; b; c])%list, h
      end.
      split; [by right|]. split; [by rewrite <- !app_assoc|].
      by destruct (_get_error frag _ 4). }
  erewrite bind_ok in Hrun by exact Hc2.
  erewrite bind_ok in Hrun by by apply load_program_eq.
  do 3 (unfold bind at 1, gl_call at 1 in Hrun).
  unfold bind at 1, gl_call_int at 1 in Hrun.
  case_bool_decide as Hlink.
  - unfold bind, gl_call_str, print, raise in Hrun. injection Hrun as <- <-.
    simpl. rewrite !List.filter_app. simpl. rewrite !app_nil_r.
    repeat split; try done; try (by rewrite <- !app_assoc). by left.
  - exfalso. unfold bind at 1, ret at 1 in Hrun.
    do 4 (unfold bind at 1, gl_call at 1 in Hrun).
    match type of Hrun with
    | bind _ _ ?w4 = _ =>
        destruct (get_active_ok D w4 self p) as (names & calls & Hnames); [done|]
    end.
    erewrite bind_ok in Hrun by exact Hnames.
    erewrite bind_ok in Hrun by by apply update_program_eq.
    erewrite update_program_eq in Hrun by by eapply lookup_stored.
    done.
Qed.

Lemma raise_result {A} (r : result A * world) (e : exception) :
  r.1 = Raise e → r = (Raise e, r.2).
Proof. destruct r as [r w]. simpl. by intros ->. Qed.

Lemma set_shaders_failure_witness :
  let D := with_strs
             (with_ints plain_driver
                (λ _ c, match c with glGetShaderParameter _ _ => Some 0 | _ => None end))
             (λ _ c, match c with
                     | glGetShaderInfoLog _ =>
                         Some ("0(2) : error C1008: undefined variable"
                               ++ String newline "")
                     | _ => None
                     end) in
  let w := (parse D [CREATE 1 (PStr "PROGRAM")] initial_world).2 in
  let code := PStr ("void main() {" ++ String newline
                    ("  gl_Position = MV;" ++ String newline "}")) in
  let r := GlirProgram_set_shaders D 0 code code w in
  r.1 = Raise (RuntimeError
                 ("Shader compilation error in vertex shader:" ++ String newline
                  ("    on line 2: error C1008: undefined variable" ++ String newline
                   "      gl_Position = MV;"))) ∧
  heap r.2 = heap w ∧
  List.filter is_glDeleteShader (gl_trace r.2) = List.filter is_glDeleteShader (gl_trace w).
Proof.
  intros D w code r.
  assert (r.1 = Raise (RuntimeError
                 ("Shader compilation error in vertex shader:" ++ String newline
                  ("    on line 2: error C1008: undefined variable" ++ String newline
                   "      gl_Position = MV;")))) as Hr
    by (vm_compute; reflexivity).
  split; [exact Hr|].
  destruct (set_shaders_failure D w r.2 0
              {| p_handle := 1; _validated := false; _handles := ∅;
                 _unset_variables := ∅; _samplers := []; _buffers := [] |}
              code code _ eq_refl (raise_result _ _ Hr))
    as (H1 & _ & _ & H2 & _).
  by split.
Defined.

(** X16: on the platform of the ATI work-around, as long as the buffer's
    sub-region upload has not yet worked, [set_data] first checks for a
    pending error of the context; one that is pending makes it raise
    after the binding, before any upload, and outside the fallback. *)
Theorem buffer_set_data_pending_error (D : driver) (w : world) (self : nat)
    (target : Z) (b : GlirBuffer) (offset : pyval) (a : ndarray) :
  buffer_at w self = Some (target, b) →
  _bufferSubDataOk b = false → ati_bug_platform D = true →
  gl_fails D (gl_trace w ++ [glBindBuffer target (b_handle b)])
    (check_error "periodic check") = true →
  GlirBuffer_set_data D self offset (PArray a) w =
    (Raise (GLError "gl"),
     extend_trace [glBindBuffer target (b_handle b); check_error "periodic check"] w).
Proof.
  intros Hb Hok Hati Hfail. unfold buffer_at in Hb.
  unfold GlirBuffer_set_data, load_buffer, bind, load, gl_call,
    gl_call_fallible, extend_trace, record_call.
  destruct (heap w !! self) as [[b0|b0| | |]|] eqn:Hself; try done;
    injection Hb as <- <-; simpl; rewrite Hok, Hati; simpl; rewrite Hfail;
    by rewrite <- !app_assoc.
Qed.

Lemma buffer_set_data_pending_error_witness :
  let D := {| gl_int := gl_int plain_driver; gl_str := gl_str plain_driver;
              gl_active := gl_active plain_driver;
              gl_fails := λ _ c, match c with check_error _ => true | _ => false end;
              ati_bug_platform := true; pyopengl_available := true;
              recursion_limit := 1000; set_pop := set_pop plain_driver |} in
  let a := {| arr_dtype := float32; arr_shape := [1]; arr_data := [7] |} in
  let w := (parse D [CREATE 1 (PStr "VERTEXBUFFER")] initial_world).2 in
  (GlirBuffer_set_data D 0 (PInt 0) (PArray a) w).1 = Raise (GLError "gl").
Proof.
  intros D a w.
  by rewrite (buffer_set_data_pending_error D w 0 GL_ARRAY_BUFFER
                {| b_handle := 1; _buffer_size := PInt 0; _bufferSubDataOk := false |}
                (PInt 0) a eq_refl eq_refl eq_refl eq_refl).
Defined.

Lemma expand_active_identifier_witness :
  expand_active "mat" 1 35676 = [("mat", 35676)].
Proof. apply (expand_active_identifier "mat" 1 35676). reflexivity. Defined.

Lemma expand_active_array_witness :
  expand_active "weights[0]" 3 5126 =
    [("weights[0]", 5126); ("weights[1]", 5126); ("weights[2]", 5126)].
Proof.
  apply (expand_active_array "weights" "0" 3 5126); [discriminate | reflexivity
                                                    | discriminate | reflexivity].
Defined.

(** ** The queue *)

Lemma queue_commands (q : GlirQueue) (cs : list command) :
  _commands (foldl GlirQueue_command q cs) = (_commands q ++ cs)%list.
Proof.
  revert q. induction cs as [|c cs IH]; intros q; simpl.
  - by rewrite app_nil_r.
  - rewrite IH. simpl. by rewrite <- app_assoc.
Qed.

(** X17: commands sent to the queue are delivered once, in the order
    sent.  A flush interprets what was queued since the previous flush
    and leaves the queue empty whatever the outcome; so two flushes that
    succeed amount to interpreting all the commands in one batch, and
    when the first flush raises, the commands after the one that raised
    are lost, not retried by the next flush. *)
Theorem queue_flush_cycles (D : driver) (cs1 cs2 : list command) (w : world) :
  let q1 := foldl GlirQueue_command GlirQueue__init__ cs1 in
  let r1 := GlirQueue_parse D q1 w in
  let q2 := foldl GlirQueue_command r1.1.2 cs2 in
  let r2 := GlirQueue_parse D q2 r1.2 in
  (r1.1.1, r1.2) = parse D cs1 w ∧ _commands r1.1.2 = [] ∧
  (r2.1.1, r2.2) = parse D cs2 r1.2 ∧ _commands r2.1.2 = [] ∧
  (r1.1.1 = Ok tt → (r2.1.1, r2.2) = parse D (cs1 ++ cs2) w) ∧
  (GlirQueue_clear r2.1.2).1 = [].
Proof.
  simpl. unfold GlirQueue_parse, GlirQueue_clear. simpl.
  rewrite !queue_commands. simpl.
  destruct (parse D cs1 w) as [r1 w1] eqn:H1. simpl.
  destruct (parse D cs2 w1) as [r2 w2] eqn:H2. simpl.
  repeat split. intros ->. by rewrite parse_concat, H1, H2.
Qed.

Lemma queue_invalid_iff (q : GlirQueue) (cs : list command) (h : Z) :
  h ∈ queue_invalid_objects (foldl GlirQueue_command q cs) ↔
  h ∈ queue_invalid_objects q ∨
  ∃ c, c ∈ cs ∧ cmd c = "CREATE" ∧ id c = h ∧ last (args c) = Some PNone.
Proof.
  revert q. induction cs as [|c cs IH]; intros q; simpl.
  - split; [by left|]. intros [H|(c & Hc & _)]; [done|]. by apply elem_of_nil in Hc.
  - rewrite IH. simpl.
    assert (bool_decide (cmd c = "CREATE")
            && is_None (default (PInt (id c)) (last (args c))) = true
            ↔ cmd c = "CREATE" ∧ last (args c) = Some PNone) as Hmark.
    { rewrite andb_true_iff, bool_decide_eq_true.
      destruct (last (args c)) as [[]|]; simpl; intuition (try congruence; try done). }
    destruct (bool_decide (cmd c = "CREATE")
              && is_None (default (PInt (id c)) (last (args c)))) eqn:Hb.
    + destruct Hmark as [Hm _]. destruct (Hm eq_refl) as [Hcmd Hlast]. rewrite elem_of_union, elem_of_singleton.
      split.
      * intros [[->|Hq]|(c' & Hc' & H)]; [right|by left|right].
        -- exists c. split; [left|done].
        -- exists c'. split; [by right|done].
      * intros [Hq|(c' & Hc' & Hcmd' & Hid' & Hlast')]; [left; by right|].
        apply elem_of_cons in Hc' as [->|Hc']; [left; by left|].
        right. by exists c'.
    + split.
      * intros [Hq|(c' & Hc' & H)]; [by left|right].
        exists c'. split; [by right|done].
      * intros [Hq|(c' & Hc' & Hcmd' & Hid' & Hlast')]; [by left|].
        apply elem_of_cons in Hc' as [->|Hc'].
        -- exfalso. assert (false = true) by (by apply Hmark). done.
        -- right. by exists c'.
Qed.

(** X18: the handles the queue holds invalid are exactly the handles of
    the CREATE commands sent whose last argument is None; emptying the
    queue does not forget them. *)
Theorem queue_invalid_handles (cs : list command) (h : Z) :
  let q := foldl GlirQueue_command GlirQueue__init__ cs in
  (h ∈ queue_invalid_objects q ↔
   ∃ c, c ∈ cs ∧ cmd c = "CREATE" ∧ id c = h ∧ last (args c) = Some PNone) ∧
  queue_invalid_objects (GlirQueue_clear q).2 = queue_invalid_objects q.
Proof.
  simpl. split; [|done]. rewrite queue_invalid_iff. simpl.
  split; [intros [H|H]; [by apply not_elem_of_empty in H | done] | by right].
Qed.

(** ** The messages of the GLSL compilers *)

Lemma span_end (p : ascii → bool) (s : string) (c : ascii) (r : string) :
  all_chars p s = true → p c = false →
  span p (s ++ String c r) = (s, String c r).
Proof.
  intros Hs Hc. by rewrite (span_app p s _ Hs), (span_stop p c r Hc), append_nil_r.
Qed.

Lemma span_all (p : ascii → bool) (s : string) :
  all_chars p s = true → span p s = (s, "").
Proof.
  intros Hs. pose proof (span_app p s "" Hs) as H.
  by rewrite !append_nil_r in H.
Qed.

Lemma digits_group_app (d : string) (c : ascii) (r : string) :
  d ≠ "" → all_chars is_digit d = true → is_digit c = false →
  digits_group (d ++ String c r) = Some (d, String c r).
Proof.
  intros Hne Hd Hc. unfold digits_group. rewrite (span_end _ _ _ _ Hd Hc).
  simpl. by rewrite bool_decide_eq_false_2.
Qed.

Lemma digits_group_fail (c : ascii) (r : string) :
  is_digit c = false → digits_group (String c r) = None.
Proof. intros Hc. unfold digits_group. by rewrite (span_stop _ _ _ Hc). Qed.

Lemma strip_prefix_app (lit r : string) :
  strip_prefix lit (lit ++ r) = Some r.
Proof.
  induction lit as [|a lit IH]; [by destruct r|].
  change (String a lit ++ r)%string with (String a (lit ++ r)).
  simpl. by rewrite bool_decide_eq_true_2.
Qed.

Lemma strip_prefix_mismatch (a : ascii) (lit : string) (c : ascii) (r : string) :
  a ≠ c → strip_prefix (String a lit) (String c r) = None.
Proof. intros H. simpl. by rewrite bool_decide_eq_false_2. Qed.

Lemma rest_of_line_all (msg : string) :
  all_chars is_not_newline msg = true → rest_of_line msg = msg.
Proof. intros H. unfold rest_of_line. by rewrite (span_all _ _ H). Qed.

Lemma digit_head (d : string) :
  d ≠ "" → all_chars is_digit d = true →
  ∃ c d', d = String c d' ∧ is_digit c = true.
Proof.
  destruct d as [|c d']; [done|]. simpl. intros _ [Hc _]%andb_prop. by exists c, d'.
Qed.

(** X19: a message in the Nvidia format (digits, the line number in
    brackets, optional whitespace, a colon, one whitespace character and
    a text without newline) is parsed to the line number and the text;
    the leading file index is dropped. *)
Theorem parse_error_nvidia (file line spaces : string) (sp : ascii) (msg : string) :
  file ≠ "" → all_chars is_digit file = true →
  line ≠ "" → all_chars is_digit line = true →
  all_chars is_space spaces = true → is_space sp = true →
  all_chars is_not_newline msg = true →
  _parse_error (file ++ "(" ++ line ++ ")" ++ spaces ++ ":" ++ String sp msg) =
    (Some (int_of_digits line), msg).
Proof.
  intros Hf Hfd Hl Hld Hs Hsp Hmsg.
  change (_parse_error (file ++ String "(" (line ++ String ")"
            (spaces ++ String ":" (String sp msg)))) =
          (Some (int_of_digits line), msg)).
  unfold _parse_error, match_nvidia.
  rewrite (digits_group_app file "("%char _ Hf Hfd eq_refl). simpl.
  rewrite (digits_group_app line ")"%char _ Hl Hld eq_refl). simpl.
  rewrite (span_end is_space spaces ":"%char _ Hs eq_refl). simpl.
  rewrite Hsp. simpl. by rewrite (rest_of_line_all _ Hmsg).
Qed.

Lemma parse_error_nvidia_witness :
  _parse_error "0(7): error C1008: undefined variable" =
    (Some 7, "error C1008: undefined variable").
Proof.
  apply (parse_error_nvidia "0" "7" "" " " "error C1008: undefined variable");
    first [discriminate | reflexivity].
Defined.

(** X20: a message in the ATI / Intel format ([ERROR:], one whitespace
    character, digits, a colon, the line number, a colon, one whitespace
    character and a text without newline) is parsed to the line number
    and the text. *)
Theorem parse_error_ati (sp1 sp2 : ascii) (file line msg : string) :
  is_space sp1 = true → is_space sp2 = true →
  file ≠ "" → all_chars is_digit file = true →
  line ≠ "" → all_chars is_digit line = true →
  all_chars is_not_newline msg = true →
  _parse_error ("ERROR:" ++ String sp1 (file ++ ":" ++ line ++ ":" ++ String sp2 msg)) =
    (Some (int_of_digits line), msg).
Proof.
  intros Hsp1 Hsp2 Hf Hfd Hl Hld Hmsg.
  unfold _parse_error.
  assert (match_nvidia ("ERROR:" ++ String sp1
            (file ++ ":" ++ line ++ ":" ++ String sp2 msg)) = None) as ->.
  { unfold match_nvidia.
    change ("ERROR:" ++ ?x)%string with (String "E" ("RROR:" ++ x)).
    by rewrite digits_group_fail. }
  unfold match_ati. rewrite strip_prefix_app. simpl. rewrite Hsp1. simpl.
  change (file ++ ":" ++ line ++ ":" ++ String sp2 msg)%string
    with (file ++ String ":" (line ++ String ":" (String sp2 msg)))%string.
  rewrite (digits_group_app file ":"%char _ Hf Hfd eq_refl). simpl.
  rewrite (digits_group_app line ":"%char _ Hl Hld eq_refl). simpl.
  rewrite Hsp2. simpl. by rewrite (rest_of_line_all _ Hmsg).
Qed.

Lemma parse_error_ati_witness :
  _parse_error "ERROR: 0:131: '{' : syntax error parse error" =
    (Some 131, "'{' : syntax error parse error").
Proof.
  apply (parse_error_ati " " " " "0" "131" "'{' : syntax error parse error");
    first [discriminate | reflexivity].
Defined.

(** X21: a message in the Nouveau format (digits, a colon, the line
    number, a column in brackets, a colon, one whitespace character and
    a text without newline) is parsed to the line number and the text;
    the column is dropped. *)
Theorem parse_error_nouveau (file line col : string) (sp : ascii) (msg : string) :
  file ≠ "" → all_chars is_digit file = true →
  line ≠ "" → all_chars is_digit line = true →
  col ≠ "" → all_chars is_digit col = true →
  is_space sp = true → all_chars is_not_newline msg = true →
  _parse_error (file ++ ":" ++ line ++ "(" ++ col ++ "):" ++ String sp msg) =
    (Some (int_of_digits line), msg).
Proof.
  intros Hf Hfd Hl Hld Hc Hcd Hsp Hmsg.
  change (_parse_error (file ++ String ":" (line ++ String "("
            (col ++ String ")" (String ":" (String sp msg))))) =
          (Some (int_of_digits line), msg)).
  unfold _parse_error.
  assert (match_nvidia (file ++ String ":" (line ++ String "("
            (col ++ String ")" (String ":" (String sp msg))))) = None) as ->.
  { unfold match_nvidia.
    by rewrite (digits_group_app file ":"%char _ Hf Hfd eq_refl). }
  assert (match_ati (file ++ String ":" (line ++ String "("
            (col ++ String ")" (String ":" (String sp msg))))) = None) as ->.
  { unfold match_ati. destruct (digit_head file Hf Hfd) as (c & d' & -> & Hdc).
    change (String c d' ++ ?x)%string with (String c (d' ++ x)).
    rewrite strip_prefix_mismatch; [done|]. by intros <-. }
  unfold match_nouveau.
  rewrite (digits_group_app file ":"%char _ Hf Hfd eq_refl). simpl.
  rewrite (digits_group_app line "("%char _ Hl Hld eq_refl). simpl.
  rewrite (digits_group_app col ")"%char _ Hc Hcd eq_refl). simpl.
  rewrite Hsp. simpl. by rewrite (rest_of_line_all _ Hmsg).
Qed.

Lemma parse_error_nouveau_witness :
  _parse_error "0:28(16): error: syntax error, unexpected ')', expecting '('" =
    (Some 28, "error: syntax error, unexpected ')', expecting '('").
Proof.
  apply (parse_error_nouveau "0" "28" "16" " "
           "error: syntax error, unexpected ')', expecting '('");
    first [discriminate | reflexivity].
Defined.

(** X22: a message that is empty, or whose first character is an ASCII
    character other than a digit and [E], is in none of the three formats
    and is returned whole, without a line number. *)
Theorem parse_error_other (error : string) :
  (∀ c r, error = String c r →
          (nat_of_ascii c < 128)%nat ∧ is_digit c = false ∧ c ≠ "E"%char) →
  _parse_error error = (None, error).
Proof.
  intros H. destruct error as [|c r]; [done|].
  destruct (H c r eq_refl) as (_ & Hd & HE).
  unfold _parse_error, match_nvidia, match_ati, match_nouveau.
  rewrite (digits_group_fail _ _ Hd). simpl.
  by rewrite bool_decide_eq_false_2.
Qed.

Lemma parse_error_other_witness :
  _parse_error "syntax error" = (None, "syntax error").
Proof.
  apply parse_error_other. intros c r [= <- <-].
  split; [vm_compute; lia | split; [reflexivity | discriminate]].
Defined.

(** X23: a message of several lines in the Nvidia format gives the text
    of its first line only. *)
Theorem parse_error_first_line (file line msg more : string) :
  file ≠ "" → all_chars is_digit file = true →
  line ≠ "" → all_chars is_digit line = true →
  all_chars is_not_newline msg = true →
  _parse_error (file ++ "(" ++ line ++ "): " ++ msg ++ String "010" more) =
    (Some (int_of_digits line), msg).
Proof.
  intros Hf Hfd Hl Hld Hmsg.
  change (_parse_error (file ++ String "(" (line ++ String ")"
            ("" ++ String ":" (String " " (msg ++ String "010" more))))) =
          (Some (int_of_digits line), msg)).
  unfold _parse_error, match_nvidia.
  rewrite (digits_group_app file "("%char _ Hf Hfd eq_refl). simpl.
  rewrite (digits_group_app line ")"%char _ Hl Hld eq_refl). simpl.
  unfold rest_of_line. by rewrite (span_end _ msg "010"%char _ Hmsg eq_refl).
Qed.

Lemma parse_error_first_line_witness :
  (_parse_error ("0(7): first" ++ String "010" "0(9): second")).2 = "first".
Proof.
  apply (f_equal snd (parse_error_first_line "0" "7" "first" "0(9): second"
                        ltac:(discriminate) eq_refl ltac:(discriminate) eq_refl eq_refl)).
Defined.

(** ** The order computed by [exec_commands] *)

Lemma exec_commands_loop_no_resize (cs data other : list (string * list pyval)) :
  Forall (λ c, c.1 ≠ "resize") cs →
  exec_commands_loop cs data other =
    ((data ++ List.filter (λ c, bool_decide (c.1 = "data")) cs)%list,
     (other ++ List.filter (λ c, negb (bool_decide (c.1 = "data"))) cs)%list).
Proof.
  intros H. revert data other.
  induction H as [|c cs Hc _ IH]; intros data other; simpl.
  - by rewrite !app_nil_r.
  - rewrite (bool_decide_eq_false_2 _ Hc).
    destruct (bool_decide (c.1 = "data")); simpl; rewrite IH;
      by rewrite <- app_assoc.
Qed.

Lemma exec_commands_loop_resize (pre post data other : list (string * list pyval))
    (r : string * list pyval) :
  r.1 = "resize" →
  exec_commands_loop (pre ++ r :: post) data other =
    exec_commands_loop post []
      (other ++ List.filter (λ c, negb (bool_decide (c.1 = "data"))) pre ++ [r])%list.
Proof.
  intros Hr. revert data other. induction pre as [|c pre IH]; intros data other; simpl.
  - rewrite (bool_decide_eq_true_2 _ Hr), bool_decide_eq_false_2; [done|].
    by rewrite Hr.
  - destruct (bool_decide (c.1 = "data")); simpl; rewrite IH; [done|].
    by rewrite <- app_assoc.
Qed.

(** X24: without a resize among them, [exec_commands] orders its
    commands as the commands other than data, in the order given,
    followed by the data commands, in the order given. *)
Theorem exec_commands_without_resize (cs : list (string * list pyval)) :
  Forall (λ c, c.1 ≠ "resize") cs →
  exec_commands_order cs =
    (List.filter (λ c, negb (bool_decide (c.1 = "data"))) cs ++
     List.filter (λ c, bool_decide (c.1 = "data")) cs)%list.
Proof.
  intros H. unfold exec_commands_order.
  by rewrite (exec_commands_loop_no_resize cs [] [] H).
Qed.

Lemma exec_commands_without_resize_witness :
  exec_commands_order [("data", [PInt 0]); ("size", [PInt 4]); ("data", [PInt 1])] =
    [("size", [PInt 4]); ("data", [PInt 0]); ("data", [PInt 1])].
Proof.
  apply (exec_commands_without_resize
           [("data", [PInt 0]); ("size", [PInt 4]); ("data", [PInt 1])]).
  repeat constructor; discriminate.
Defined.

(** X25: [exec_commands] drops the data commands that come before the
    last resize: the order computed is every command other than data, in
    the order given, followed by the data commands after the last
    resize. *)
Theorem exec_commands_purges_before_resize
    (pre post : list (string * list pyval)) (r : string * list pyval) :
  r.1 = "resize" → Forall (λ c, c.1 ≠ "resize") post →
  exec_commands_order (pre ++ r :: post) =
    (List.filter (λ c, negb (bool_decide (c.1 = "data"))) (pre ++ r :: post) ++
     List.filter (λ c, bool_decide (c.1 = "data")) post)%list.
Proof.
  intros Hr Hpost. unfold exec_commands_order.
  rewrite (exec_commands_loop_resize pre post [] [] r Hr).
  rewrite (exec_commands_loop_no_resize post _ _ Hpost). simpl.
  rewrite List.filter_app. simpl.
  rewrite (bool_decide_eq_false_2 (r.1 = "data")); [|by rewrite Hr].
  simpl. by rewrite <- !app_assoc.
Qed.

Lemma exec_commands_purges_before_resize_witness :
  exec_commands_order
    [("data", [PInt 0]); ("resize", [PInt 8]); ("data", [PInt 1])] =
    [("resize", [PInt 8]); ("data", [PInt 1])].
Proof.
  apply (exec_commands_purges_before_resize
           [("data", [PInt 0])] [("data", [PInt 1])] ("resize", [PInt 8])).
  - reflexivity.
  - repeat constructor; discriminate.
Defined.

(** ** The SET command *)

(** X26: on a registered handle, SET followed by the name of a setter is
    the command of that setter: SET size is SIZE, SET data is DATA, SET
    shaders is SHADERS, SET uniform is UNIFORM and SET attribute is
    ATTRIBUTE.  A name no class has a setter for raises AttributeError
    and changes nothing; so DRAW cannot be sent through SET. *)
Theorem set_is_setter_command (D : driver) (h : Z) (ob : nat)
    (rest : list pyval) (w : world) :
  _objects w !! h = Some ob →
  parse_command D (SET h "size" rest) w
    = parse_command D {| cmd := "SIZE"; id := h; args := rest |} w ∧
  parse_command D (SET h "data" rest) w
    = parse_command D {| cmd := "DATA"; id := h; args := rest |} w ∧
  parse_command D (SET h "shaders" rest) w
    = parse_command D {| cmd := "SHADERS"; id := h; args := rest |} w ∧
  parse_command D (SET h "uniform" rest) w
    = parse_command D {| cmd := "UNIFORM"; id := h; args := rest |} w ∧
  parse_command D (SET h "attribute" rest) w
    = parse_command D {| cmd := "ATTRIBUTE"; id := h; args := rest |} w ∧
  (∀ what, what ∉ set_methods →
     parse_command D (SET h what rest) w = (Raise AttributeError, w)).
Proof.
  intros Hob. unfold parse_command, SET, bind, get_world. simpl. rewrite Hob.
  repeat split.
  intros what Hwhat. unfold set_methods in Hwhat. rewrite !not_elem_of_cons in Hwhat.
  destruct Hwhat as (? & ? & ? & ? & ? & ? & ? & _).
  unfold call_set. by rewrite !bool_decide_eq_false_2 by done.
Qed.

Lemma set_is_setter_command_witness :
  let w := (parse plain_driver [CREATE 1 (PStr "VERTEXBUFFER")] initial_world).2 in
  parse_command plain_driver (SET 1 "size" [PInt 8]) w
    = parse_command plain_driver (SIZE 1 [PInt 8]) w ∧
  parse_command plain_driver (SET 1 "draw" []) w = (Raise AttributeError, w).
Proof.
  intros w.
  destruct (set_is_setter_command plain_driver 1 0 [PInt 8] w eq_refl)
    as (H1 & _).
  destruct (set_is_setter_command plain_driver 1 0 [] w eq_refl)
    as (_ & _ & _ & _ & _ & H2).
  split; [exact H1|]. apply H2.
  unfold set_methods. rewrite !not_elem_of_cons.
  repeat split; try discriminate. apply not_elem_of_nil.
Defined.

(** X27: [set_wrapping] binds the texture before it looks at the value,
    and sets the S and T modes one after the other, each as soon as it
    has read it.  With two values or more both are set and the rest is
    ignored; with one value the S mode is set and IndexError is raised;
    with none IndexError is raised after the binding.  The texture object
    is never changed, and the R mode of a 3D texture is never set. *)
Theorem set_wrapping_spec (w : world) (self : nat) (target : Z) (t : GlirTexture)
    (vs : list pyval) :
  texture_at w self = Some (target, t) →
  GlirTexture_set_wrapping self (PTuple vs) w =
    match vs with
    | s :: t' :: _ =>
        (Ok tt, extend_trace [glBindTexture target (t_handle t);
                               glTexParameterf target GL_TEXTURE_WRAP_S s;
                               glTexParameterf target GL_TEXTURE_WRAP_T t'] w)
    | [s] =>
        (Raise IndexError,
         extend_trace [glBindTexture target (t_handle t);
                       glTexParameterf target GL_TEXTURE_WRAP_S s] w)
    | [] =>
        (Raise IndexError, extend_trace [glBindTexture target (t_handle t)] w)
    end.
Proof.
  intros Ht. unfold texture_at in Ht.
  unfold GlirTexture_set_wrapping, GlirTexture_activate, load_texture, bind, load,
    gl_call, lift, extend_trace, record_call, py_index.
  destruct (heap w !! self) as [[| | |t0|t0]|] eqn:Hself; try done;
    injection Ht as <- <-; simpl; rewrite Hself; simpl;
    destruct vs as [|s [|t' vs]]; simpl; by rewrite <- ?app_assoc.
Qed.

Lemma set_wrapping_spec_witness :
  let w := (parse plain_driver [CREATE 1 (PStr "Texture3D")] initial_world).2 in
  (GlirTexture_set_wrapping 0 (PTuple [PInt 33071]) w).1 = Raise IndexError.
Proof.
  intros w.
  by rewrite (set_wrapping_spec w 0 GL_TEXTURE_3D
                {| t_handle := 1; _shape_format := PInt 0; _format := None |}
                [PInt 33071] eq_refl).
Defined.

(** ** The text of a compile error *)

Lemma all_chars_app (p : ascii → bool) (a b : string) :
  all_chars p (a ++ b) = all_chars p a && all_chars p b.
Proof.
  induction a as [|x a IH]; [done|].
  change (String x a ++ b)%string with (String x (a ++ b)). simpl.
  by rewrite IH, andb_assoc.
Qed.

Lemma split_lines_one (s : string) :
  all_chars is_not_newline s = true → split_lines s = [s].
Proof.
  induction s as [|c s IH]; [done|]. simpl.
  intros [Hc Hs]%andb_prop. by rewrite Hc, (IH Hs).
Qed.

Lemma rstrip_last (s : string) (c : ascii) :
  is_space c = false → rstrip (s ++ String c "") = (s ++ String c "")%string.
Proof.
  intros Hc. induction s as [|x s IH].
  - change ("" ++ String c "")%string with (String c ""). simpl. by rewrite Hc.
  - change (String x s ++ String c "")%string with (String x (s ++ String c "")).
    simpl. rewrite IH. by destruct s.
Qed.

Lemma digit_not_space (c : ascii) : is_digit c = true → is_space c = false.
Proof.
  unfold is_digit, is_space, in_range.
  intros [H1 H2]%andb_prop. apply Nat.leb_le in H1, H2.
  repeat (apply orb_false_intro); apply andb_false_iff;
    rewrite !Nat.leb_gt; lia.
Qed.

Lemma digit_not_newline (s : string) :
  all_chars is_digit s = true → all_chars is_not_newline s = true.
Proof.
  induction s as [|c s IH]; [done|]. simpl.
  intros [Hc Hs]%andb_prop. rewrite (IH Hs), andb_true_r.
  unfold is_not_newline. rewrite bool_decide_eq_false_2; [done|].
  unfold is_digit, in_range in Hc. apply andb_prop in Hc as [H1 _].
  apply Nat.leb_le in H1. lia.
Qed.

(** X30: the text [_get_error] makes of a log of one line in the Nvidia
    format.  Without source it is the message, indented.  With a source
    it is [on line n:] and the message, indented, followed on a line of its
    own by line n of the source, stripped and indented two further, when
    n is above 0 and below the number of lines of the source: the last
    line of a source is never shown. *)
Theorem get_error_one_line (file line body : string) (last : ascii)
    (indentation : nat) (source : string) :
  file ≠ "" → all_chars is_digit file = true →
  line ≠ "" → all_chars is_digit line = true →
  all_chars is_not_newline body = true →
  is_not_newline last = true → is_space last = false →
  let msg := (body ++ String last "")%string in
  let error := (file ++ "(" ++ line ++ "): " ++ msg)%string in
  let n := int_of_digits line in
  let lines := map py_strip (split_lines source) in
  _get_error PNone error indentation = Ok (spaces indentation ++ msg) ∧
  _get_error (PStr source) error indentation =
    Ok ((spaces indentation ++ "on line " ++ pretty n ++ ": " ++ msg)
        ++ if bool_decide (0 < n < Z.of_nat (List.length lines))
           then String newline
                  (spaces indentation ++ "  "
                   ++ default "" (lines !! Z.to_nat (n - 1)))
           else "").
Proof.
  intros Hf Hfd Hl Hld Hbody Hlast Hsp msg error n lines.
  assert (all_chars is_not_newline msg = true) as Hmsg.
  { unfold msg. rewrite all_chars_app, Hbody. simpl. by rewrite Hlast. }
  assert (all_chars is_not_newline error = true) as Herr.
  { unfold error.
    rewrite !all_chars_app, (digit_not_newline _ Hfd), (digit_not_newline _ Hld), Hmsg.
    done. }
  assert (py_strip error = error) as Hstrip.
  { unfold py_strip.
    destruct (digit_head file Hf Hfd) as (c & f' & Hfile & Hc).
    assert ((span is_space error).2 = error) as ->.
    { unfold error. rewrite Hfile.
      change (String c f' ++ ?x)%string with (String c (f' ++ x)).
      by rewrite (span_stop _ _ _ (digit_not_space c Hc)). }
    unfold error, msg.
    rewrite <- (string_app_assoc "): " body), <- (string_app_assoc line),
      <- (string_app_assoc "("), <- (string_app_assoc file).
    by apply rstrip_last. }
  assert (error ≠ "") as Hne.
  { unfold error. destruct (digit_head file Hf Hfd) as (c & f' & -> & _). done. }
  assert (_parse_error error = (Some n, msg)) as Hparse.
  { unfold error.
    change (_parse_error (file ++ String "(" (line ++ String ")"
              ("" ++ String ":" (String " " msg)))) = (Some n, msg)).
    unfold _parse_error, match_nvidia.
    rewrite (digits_group_app file "("%char _ Hf Hfd eq_refl). simpl.
    rewrite (digits_group_app line ")"%char _ Hl Hld eq_refl). simpl.
    by rewrite (rest_of_line_all _ Hmsg). }
  unfold _get_error. rewrite (split_lines_one _ Herr). simpl.
  unfold error_lines. rewrite Hstrip, (bool_decide_eq_false_2 _ Hne), Hparse.
  simpl. split; [done|].
  fold lines. rewrite !app_nil_r.
  destruct (decide (0 < n < Z.of_nat (List.length lines))) as [Hn|Hn].
  - rewrite (bool_decide_eq_true_2 (0 < n < _)) by done.
    rewrite (bool_decide_eq_true_2 (n > 0)) by lia.
    rewrite (bool_decide_eq_true_2 (n < _)) by lia. simpl.
    destruct (lookup_lt_is_Some_2 lines (Z.to_nat (n - 1))) as [text ->]; [lia|].
    done.
  - rewrite (bool_decide_eq_false_2 (0 < n < _)) by done.
    assert (bool_decide (n > 0) && bool_decide (n < Z.of_nat (List.length lines))
            = false) as ->.
    { apply andb_false_iff. rewrite !bool_decide_eq_false. lia. }
    simpl. by rewrite append_nil_r.
Qed.

Lemma get_error_one_line_witness :
  _get_error (PStr ("a = 1;" ++ String newline "b = MV;"))
    "0(2): undefined variable" 4
  = Ok "    on line 2: undefined variable" ∧
  _get_error (PStr ("a = 1;" ++ String newline ("  b = MV;" ++ String newline "")))
    "0(2): undefined variable" 4
  = Ok ("    on line 2: undefined variable" ++ String newline "      b = MV;").
Proof.
  split.
  - apply (get_error_one_line "0" "2" "undefined variabl" "e" 4
             ("a = 1;" ++ String newline "b = MV;"));
      first [discriminate | reflexivity].
  - apply (get_error_one_line "0" "2" "undefined variabl" "e" 4
             ("a = 1;" ++ String newline ("  b = MV;" ++ String newline "")));
      first [discriminate | reflexivity].
Defined.
